(** * ColorfulTodo: a shallow embedding of [script.js]

    The development follows the layout of
    [src/agents/generated_project/script.js]: the JavaScript values the
    program manipulates, the [Todo] class, the module-level state, the
    persistence helpers, the CRUD operations, the rendering helpers and the
    edit-mode commit handler.  Statements about the program come last. *)

From Stdlib Require Import ZArith Ascii String List Bool Lia.
From Stdlib Require Import DecimalString HexadecimalString.
From stdpp Require Import base option list strings gmap.

Set Warnings "-register-all".

Local Open Scope Z_scope.

(** ** JavaScript values

    Values that can flow through the task fields: the primitives, and the
    arrays and plain objects that [JSON.parse] builds.  Numbers are integers
    (timestamps are integer milliseconds); strings are sequences of code
    units below 256.  An object is its list of own properties in insertion
    order; the keys of one object are pairwise distinct.

    An array or an object lives in a cell of the heap, and [===] compares
    cells, not contents: the value carries the address of its cell.  The
    script never writes into such a cell, so the contents travel with the
    address.  Address [0] is for the object literals of the script itself,
    which are read once and never compared. *)

Inductive value : Type :=
| VUndefined
| VNull
| VBool (b : bool)
| VNum (n : Z)
| VStr (s : string)
| VArr (address : nat) (elems : list value)
| VObj (address : nat) (props : list (string * value)).

(** [ToBoolean]. *)
Definition truthy (v : value) : bool :=
  match v with
  | VUndefined | VNull => false
  | VBool b => b
  | VNum n => negb (n =? 0)%Z
  | VStr s => negb (String.eqb s "")
  | VArr _ _ | VObj _ _ => true
  end.

(** [typeof v === 'string'] and [typeof v === 'boolean']. *)
Definition typeof_string (v : value) : bool :=
  match v with VStr _ => true | _ => false end.

Definition typeof_boolean (v : value) : bool :=
  match v with VBool _ => true | _ => false end.

(** The left operand of [??] is replaced when it is [null] or [undefined]. *)
Definition nullish (v : value) : bool :=
  match v with VUndefined | VNull => true | _ => false end.

Definition nullish_coalesce (v d : value) : value :=
  if nullish v then d else v.

(** [a === b].  Primitives compare by value, arrays and objects by the
    identity of their cell. *)
Definition strict_eq (a b : value) : bool :=
  match a, b with
  | VUndefined, VUndefined => true
  | VNull, VNull => true
  | VBool x, VBool y => Bool.eqb x y
  | VNum x, VNum y => (x =? y)%Z
  | VStr x, VStr y => String.eqb x y
  | VArr x _, VArr y _ => Nat.eqb x y
  | VObj x _, VObj y _ => Nat.eqb x y
  | _, _ => false
  end.

(** What [JSON.parse] does with the tree it has read: every array and every
    object is a new cell.  [allocate a v] gives the nodes of [v] the
    addresses from [a] on, and returns the first address still free. *)
Fixpoint allocate_each {A} (alloc : nat → A → A * nat) (l : list A) (a : nat)
    : list A * nat :=
  match l with
  | [] => ([], a)
  | x :: rest =>
      let (x', a1) := alloc a x in
      let (rest', a2) := allocate_each alloc rest a1 in
      (x' :: rest', a2)
  end.

Fixpoint allocate (a : nat) (v : value) {struct v} : value * nat :=
  match v with
  | VArr _ elems =>
      let (elems', a') := allocate_each allocate elems (S a) in
      (VArr a elems', a')
  | VObj _ props =>
      let (props', a') :=
        allocate_each
          (fun a0 kv =>
             let '(k, x) := kv in
             let (x', a1) := allocate a0 x in
             ((k, x'), a1))
          props (S a) in
      (VObj a props', a')
  | _ => (v, a)
  end.

(** Own property lookup in a property list; an absent key reads as
    [undefined]. *)
Fixpoint own_prop (k : string) (props : list (string * value)) : value :=
  match props with
  | [] => VUndefined
  | (k', v) :: rest => if String.eqb k k' then v else own_prop k rest
  end.

(** [Object.hasOwn(o, k)] on the property list of [o]. *)
Definition has_own (k : string) (props : list (string * value)) : bool :=
  existsb (fun kv => String.eqb k (fst kv)) props.

(** Errors the program can meet: the [SyntaxError] of [JSON.parse], the
    [TypeError] of the language, and the two exceptions of the DOM, the one
    of a full storage and the one of a selector that does not parse (a
    [DOMException] whose name is also ['SyntaxError']). *)
Inductive error : Type :=
| SyntaxError
| TypeError
| QuotaExceededError
| DOMSyntaxError.

Inductive completion (A : Type) : Type :=
| Normal (a : A)
| Throw (e : error).
Arguments Normal {A} a.
Arguments Throw {A} e.

(** [o.k] for the property names the program reads ([id], [title],
    [description], [completed], [createdAt]): none of them is inherited, so
    the read yields the own property of an object, [undefined] on any other
    non-nullish value, and a [TypeError] on [null] and [undefined]. *)
Definition get_prop (o : value) (k : string) : completion value :=
  match o with
  | VUndefined | VNull => Throw TypeError
  | VObj _ props => Normal (own_prop k props)
  | VBool _ | VNum _ | VStr _ | VArr _ _ => Normal VUndefined
  end.

(** ** Strings *)

(** White space removed by [String.prototype.trim], among code units below
    256: TAB, LF, VT, FF, CR, SPACE and NBSP. *)
Definition is_white_space (c : ascii) : bool :=
  let n := nat_of_ascii c in
  ((9 <=? n)%nat && (n <=? 13)%nat) || (n =? 32)%nat || (n =? 160)%nat.

Fixpoint trim_start (s : string) : string :=
  match s with
  | EmptyString => EmptyString
  | String c rest => if is_white_space c then trim_start rest else s
  end.

(** [trim_end] keeps a character when it is not white space or when
    something survives after it. *)
Fixpoint trim_end (s : string) : string :=
  match s with
  | EmptyString => EmptyString
  | String c rest =>
      match trim_end rest with
      | EmptyString => if is_white_space c then EmptyString else String c EmptyString
      | kept => String c kept
      end
  end.

Definition trim (s : string) : string := trim_end (trim_start s).

Definition nonempty (s : string) : bool := negb (String.eqb s "").

(** [n.toString()] for an integer that a double holds exactly. *)
Definition decimal (n : Z) : string :=
  DecimalString.NilZero.string_of_int (Z.to_int n).

(** The double quote, which a string literal of this file cannot hold. *)
Definition double_quote : ascii := ascii_of_nat 34.

(** ** Data model: [class Todo] *)

Record Todo : Type := {
  id : value;
  title : value;
  description : value;
  completed : value;
  createdAt : value
}.

(** What [JSON.stringify] visits in a [Todo] instance: its own enumerable
    properties, in the order the constructor assigns them. *)
Definition Todo_props (t : Todo) : value :=
  VObj 0 [("id", id t); ("title", title t); ("description", description t);
        ("completed", completed t); ("createdAt", createdAt t)].

(** ** The document

    A list item cloned from [#todo-item-template] and populated by
    [createTodoElement]: its [data-id] attribute, its classes, the text of
    its title and of its description, the [display] style of the
    description and the state of the checkbox.  [bound_id] is the [todo.id]
    captured by the checkbox, delete and edit listeners. *)
Record Li : Type := {
  dataset_id : string;
  classList : list string;
  todo_title : string;
  todo_description : string;
  description_display : string;
  checkbox_checked : bool;
  bound_id : value
}.

(** [classList.add]: a token set kept in insertion order. *)
Definition classList_add (c : string) (cl : list string) : list string :=
  if existsb (String.eqb c) cl then cl else cl ++ [c].

Definition li_add_class (c : string) (li : Li) : Li :=
  {| dataset_id := dataset_id li;
     classList := classList_add c (classList li);
     todo_title := todo_title li;
     todo_description := todo_description li;
     description_display := description_display li;
     checkbox_checked := checkbox_checked li;
     bound_id := bound_id li |}.

(** The value an [<input type="color">] keeps of a text assigned to it: a
    ['#'] followed by six hexadecimal digits is kept, in lower case; any
    other text leaves ['#000000']. *)
Definition is_hex_digit (c : ascii) : bool :=
  let n := nat_of_ascii c in
  ((48 <=? n)%nat && (n <=? 57)%nat) || ((65 <=? n)%nat && (n <=? 70)%nat) ||
  ((97 <=? n)%nat && (n <=? 102)%nat).

Definition to_lower (c : ascii) : ascii :=
  let n := nat_of_ascii c in
  if (65 <=? n)%nat && (n <=? 90)%nat then ascii_of_nat (n + 32) else c.

Fixpoint lower_case (s : string) : string :=
  match s with
  | EmptyString => EmptyString
  | String c rest => String (to_lower c) (lower_case rest)
  end.

Definition valid_simple_color (s : string) : bool :=
  match s with
  | EmptyString => false
  | String c digits =>
      Ascii.eqb c "#" && (String.length digits =? 6)%nat &&
      forallb is_hex_digit (list_ascii_of_string digits)
  end.

Definition sanitize_color (s : string) : string :=
  if valid_simple_color s then lower_case s else "#000000".

(** ** The platform

    What the browser supplies and the script only calls: the JSON codec
    ([None] stands for the [SyntaxError] of [JSON.parse]; the addresses in
    the tree it returns are not looked at, see [allocate]), the clock and the
    random source (each indexed by the number of earlier calls), the storage
    quota, the classes of the [<li>] inside the item template, the text of a
    number too large to be printed digit by digit, and the selector engine,
    for the selectors that the script cannot read by itself:
    [Element_querySelector selector items] is the position of the first of
    [items] that [selector] matches, if any, and [None] stands for the
    [DOMException] raised for a selector that does not parse. *)
Class Platform : Type := {
  JSON_parse : string → option value;
  JSON_stringify : value → string;
  Date_now : nat → Z;
  random_byte : nat → Z;
  storage_accepts : gmap string string → bool;
  template_classes : list string;
  Number_toString : Z → string;
  Element_querySelector : string → list Li → option (option nat)
}.

(** ** State management

    The module-level variables [todos] and [currentFilter], with the parts
    of the page and of the browser the script reads and writes:
    [accent_color] is the value last given to [--accent-color],
    [accentPicker_value] what the colour picker has kept of the value the
    script last gave it, and [next_address] the first address of the heap
    not yet in use. *)
Record State : Type := {
  todos : list Todo;
  currentFilter : string;
  listEl : list Li;
  filterButtons_active : list string;
  titleInput_value : string;
  descInput_value : string;
  accent_color : option string;
  accentPicker_value : string;
  localStorage : gmap string string;
  console_error : list string;
  Date_now_calls : nat;
  random_calls : nat;
  next_address : nat
}.

Definition set_todos (v : list Todo) (st : State) : State :=
  {| todos := v; currentFilter := currentFilter st; listEl := listEl st;
     filterButtons_active := filterButtons_active st;
     titleInput_value := titleInput_value st;
     descInput_value := descInput_value st;
     accent_color := accent_color st;
     accentPicker_value := accentPicker_value st;
     localStorage := localStorage st; console_error := console_error st;
     Date_now_calls := Date_now_calls st; random_calls := random_calls st;
     next_address := next_address st |}.

Definition set_currentFilter (v : string) (st : State) : State :=
  {| todos := todos st; currentFilter := v; listEl := listEl st;
     filterButtons_active := filterButtons_active st;
     titleInput_value := titleInput_value st;
     descInput_value := descInput_value st;
     accent_color := accent_color st;
     accentPicker_value := accentPicker_value st;
     localStorage := localStorage st; console_error := console_error st;
     Date_now_calls := Date_now_calls st; random_calls := random_calls st;
     next_address := next_address st |}.

Definition set_listEl (v : list Li) (st : State) : State :=
  {| todos := todos st; currentFilter := currentFilter st; listEl := v;
     filterButtons_active := filterButtons_active st;
     titleInput_value := titleInput_value st;
     descInput_value := descInput_value st;
     accent_color := accent_color st;
     accentPicker_value := accentPicker_value st;
     localStorage := localStorage st; console_error := console_error st;
     Date_now_calls := Date_now_calls st; random_calls := random_calls st;
     next_address := next_address st |}.

Definition set_filterButtons_active (v : list string) (st : State) : State :=
  {| todos := todos st; currentFilter := currentFilter st; listEl := listEl st;
     filterButtons_active := v;
     titleInput_value := titleInput_value st;
     descInput_value := descInput_value st;
     accent_color := accent_color st;
     accentPicker_value := accentPicker_value st;
     localStorage := localStorage st; console_error := console_error st;
     Date_now_calls := Date_now_calls st; random_calls := random_calls st;
     next_address := next_address st |}.

Definition set_form_inputs (t d : string) (st : State) : State :=
  {| todos := todos st; currentFilter := currentFilter st; listEl := listEl st;
     filterButtons_active := filterButtons_active st;
     titleInput_value := t;
     descInput_value := d;
     accent_color := accent_color st;
     accentPicker_value := accentPicker_value st;
     localStorage := localStorage st; console_error := console_error st;
     Date_now_calls := Date_now_calls st; random_calls := random_calls st;
     next_address := next_address st |}.

(** [document.documentElement.style.setProperty('--accent-color', c)]. *)
Definition set_accent_color (c : string) (st : State) : State :=
  {| todos := todos st; currentFilter := currentFilter st; listEl := listEl st;
     filterButtons_active := filterButtons_active st;
     titleInput_value := titleInput_value st;
     descInput_value := descInput_value st;
     accent_color := Some c;
     accentPicker_value := accentPicker_value st;
     localStorage := localStorage st; console_error := console_error st;
     Date_now_calls := Date_now_calls st; random_calls := random_calls st;
     next_address := next_address st |}.

Definition set_accentPicker_value (v : string) (st : State) : State :=
  {| todos := todos st; currentFilter := currentFilter st; listEl := listEl st;
     filterButtons_active := filterButtons_active st;
     titleInput_value := titleInput_value st;
     descInput_value := descInput_value st;
     accent_color := accent_color st;
     accentPicker_value := v;
     localStorage := localStorage st; console_error := console_error st;
     Date_now_calls := Date_now_calls st; random_calls := random_calls st;
     next_address := next_address st |}.

Definition set_localStorage (v : gmap string string) (st : State) : State :=
  {| todos := todos st; currentFilter := currentFilter st; listEl := listEl st;
     filterButtons_active := filterButtons_active st;
     titleInput_value := titleInput_value st;
     descInput_value := descInput_value st;
     accent_color := accent_color st;
     accentPicker_value := accentPicker_value st;
     localStorage := v; console_error := console_error st;
     Date_now_calls := Date_now_calls st; random_calls := random_calls st;
     next_address := next_address st |}.

Definition log_error (msg : string) (st : State) : State :=
  {| todos := todos st; currentFilter := currentFilter st; listEl := listEl st;
     filterButtons_active := filterButtons_active st;
     titleInput_value := titleInput_value st;
     descInput_value := descInput_value st;
     accent_color := accent_color st;
     accentPicker_value := accentPicker_value st;
     localStorage := localStorage st;
     console_error := console_error st ++ [msg];
     Date_now_calls := Date_now_calls st; random_calls := random_calls st;
     next_address := next_address st |}.

Definition tick_clock (st : State) : State :=
  {| todos := todos st; currentFilter := currentFilter st; listEl := listEl st;
     filterButtons_active := filterButtons_active st;
     titleInput_value := titleInput_value st;
     descInput_value := descInput_value st;
     accent_color := accent_color st;
     accentPicker_value := accentPicker_value st;
     localStorage := localStorage st; console_error := console_error st;
     Date_now_calls := S (Date_now_calls st); random_calls := random_calls st;
     next_address := next_address st |}.

Definition set_next_address (a : nat) (st : State) : State :=
  {| todos := todos st; currentFilter := currentFilter st; listEl := listEl st;
     filterButtons_active := filterButtons_active st;
     titleInput_value := titleInput_value st;
     descInput_value := descInput_value st;
     accent_color := accent_color st;
     accentPicker_value := accentPicker_value st;
     localStorage := localStorage st; console_error := console_error st;
     Date_now_calls := Date_now_calls st; random_calls := random_calls st;
     next_address := a |}.

Definition tick_random (st : State) : State :=
  {| todos := todos st; currentFilter := currentFilter st; listEl := listEl st;
     filterButtons_active := filterButtons_active st;
     titleInput_value := titleInput_value st;
     descInput_value := descInput_value st;
     accent_color := accent_color st;
     accentPicker_value := accentPicker_value st;
     localStorage := localStorage st; console_error := console_error st;
     Date_now_calls := Date_now_calls st; random_calls := S (random_calls st);
     next_address := next_address st |}.

(** ** Statements and exceptions

    A piece of script is a function from the state before it to its
    completion and the state after it; a thrown error keeps the effects that
    happened before the throw. *)
Definition JS (A : Type) : Type := State → completion A * State.

Definition ret {A} (a : A) : JS A := fun st => (Normal a, st).

Definition throw {A} (e : error) : JS A := fun st => (Throw e, st).

Definition bind {A B} (m : JS A) (k : A → JS B) : JS B :=
  fun st =>
    match m st with
    | (Normal a, st') => k a st'
    | (Throw e, st') => (Throw e, st')
    end.

Definition try_catch {A} (body : JS A) (handler : error → JS A) : JS A :=
  fun st =>
    match body st with
    | (Normal a, st') => (Normal a, st')
    | (Throw e, st') => handler e st'
    end.

Definition lift {A} (c : completion A) : JS A := fun st => (c, st).

Definition gets {A} (f : State → A) : JS A := fun st => (Normal (f st), st).

Definition modify (f : State → State) : JS unit := fun st => (Normal tt, f st).

Declare Scope js_scope.
Delimit Scope js_scope with js.
Notation "'let!' x ':=' m 'in' k" := (bind m (fun x => k))
  (at level 10, x pattern, m at level 100, k at level 200) : js_scope.
Notation "m ';;' k" := (bind m (fun _ => k))
  (at level 100, k at level 200, right associativity) : js_scope.
Local Open Scope js_scope.

(** [arr.map(f)] where [f] may throw: elements are visited left to right. *)
Fixpoint mapM {A B} (f : A → JS B) (l : list A) : JS (list B) :=
  match l with
  | [] => ret []
  | x :: rest =>
      let! y := f x in
      let! ys := mapM f rest in
      ret (y :: ys)
  end.

(** [arr.forEach(f)]: a throw ends the loop, with the effects so far. *)
Fixpoint forEach {A} (f : A → JS unit) (l : list A) : JS unit :=
  match l with
  | [] => ret tt
  | x :: rest => f x;; forEach f rest
  end.

(** Sequencing of conversions that have no effect on the state. *)
Definition and_then {A B} (c : completion A) (k : A → completion B)
    : completion B :=
  match c with
  | Normal a => k a
  | Throw e => Throw e
  end.

(** [Array.prototype.join] with the default separator, given the
    conversion of an element to text: [null] and [undefined] print as
    nothing, and the elements are converted from left to right. *)
Fixpoint join (convert : value → completion string) (l : list value)
    : completion string :=
  match l with
  | [] => Normal ""
  | x :: rest =>
      and_then (if nullish x then Normal "" else convert x)
        (fun first =>
           match rest with
           | [] => Normal first
           | _ :: _ =>
               and_then (join convert rest)
                 (fun others =>
                    Normal (String.append first (String.append "," others)))
           end)
  end.

(** [if (c) { body }] without an [else]. *)
Definition when (c : bool) (body : JS unit) : JS unit :=
  if c then body else ret tt.

Section Script.
Context `{Platform}.

(** *** Conversions *)

(** [String(v)], the conversion applied by template literals and by the
    DOM when it is given something for a string.  An integer up to [2^53]
    prints digit by digit.  An array prints its elements separated by commas,
    [null] and [undefined] as nothing.  A plain object prints through
    [Object.prototype.toString], unless it has a [toString] property of its
    own: what [JSON.parse] builds is never callable, [valueOf] gives the
    object back, and the conversion ends in a [TypeError]. *)
Fixpoint ToString (v : value) : completion string :=
  match v with
  | VUndefined => Normal "undefined"
  | VNull => Normal "null"
  | VBool b => Normal (if b then "true" else "false")
  | VNum n =>
      Normal (if (Z.abs n <=? 2 ^ 53)%Z then decimal n else Number_toString n)
  | VStr s => Normal s
  | VArr _ elems => join ToString elems
  | VObj _ props =>
      if has_own "toString" props then Throw TypeError
      else Normal "[object Object]"
  end.

(** The conversion of what is assigned to [textContent], a string or
    [null]: [null] and [undefined] give the empty text. *)
Definition textContent_of (v : value) : completion string :=
  if nullish v then Normal "" else ToString v.

(** *** Browser calls *)

Definition Date_now_call : JS Z :=
  fun st => (Normal (Date_now (Date_now_calls st)), tick_clock st).

(** [crypto.getRandomValues(new Uint8Array(1))[0]]. *)
Definition getRandomValues_call : JS Z :=
  fun st => (Normal (random_byte (random_calls st) mod 256), tick_random st).

Definition localStorage_getItem (key : string) : JS (option string) :=
  gets (fun st => localStorage st !! key).

(** [setItem] throws when the storage refuses the new contents. *)
Definition localStorage_setItem (key val : string) : JS unit :=
  fun st =>
    let items := <[key := val]> (localStorage st) in
    if storage_accepts items
    then (Normal tt, set_localStorage items st)
    else (Throw QuotaExceededError, st).

Definition console_error_call (msg : string) : JS unit :=
  modify (log_error msg).

(** *** [class Todo] *)

(** A destructured parameter with a default: the default expression is
    evaluated only when the property is [undefined]. *)
Definition with_default (v : value) (d : JS value) : JS value :=
  match v with
  | VUndefined => d
  | _ => ret v
  end.

(** [constructor({ id, title, description = '', completed = false,
    createdAt = Date.now() })]. *)
Definition Todo_constructor (param0 : value) : JS Todo :=
  let! id0 := lift (get_prop param0 "id") in
  let! title0 := lift (get_prop param0 "title") in
  let! description0 := lift (get_prop param0 "description") in
  let! description1 := with_default description0 (ret (VStr "")) in
  let! completed0 := lift (get_prop param0 "completed") in
  let! completed1 := with_default completed0 (ret (VBool false)) in
  let! createdAt0 := lift (get_prop param0 "createdAt") in
  let! createdAt1 :=
    with_default createdAt0 (let! now := Date_now_call in ret (VNum now)) in
  ret {| id := id0; title := title0; description := description1;
         completed := completed1; createdAt := createdAt1 |}.

(** [static fromObject(obj)]. *)
Definition Todo_fromObject (obj : value) : JS Todo :=
  let! id0 := lift (get_prop obj "id") in
  let! title0 := lift (get_prop obj "title") in
  let! description0 := lift (get_prop obj "description") in
  let description1 := nullish_coalesce description0 (VStr "") in
  let! completed0 := lift (get_prop obj "completed") in
  let completed1 := nullish_coalesce completed0 (VBool false) in
  let! createdAt0 := lift (get_prop obj "createdAt") in
  let! createdAt1 :=
    (if nullish createdAt0
     then let! now := Date_now_call in ret (VNum now)
     else ret createdAt0) in
  Todo_constructor
    (VObj 0 [("id", id0); ("title", title0); ("description", description1);
             ("completed", completed1); ("createdAt", createdAt1)]).

(** *** Rendering helpers *)

(** [createTodoElement(todo)], on a template that provides the list item
    with its title, description, checkbox and buttons.  The item is built
    apart from the page; the three conversions to text, of [todo.id] for
    [dataset.id] and of the title and the description for [textContent],
    can each end in a [TypeError], and then no item is returned. *)
Definition createTodoElement (todo : Todo) : completion Li :=
  and_then (ToString (id todo)) (fun data_id =>
  let classes :=
    if truthy (completed todo)
    then classList_add "completed" template_classes
    else template_classes in
  and_then (textContent_of (title todo)) (fun title_text =>
  and_then (textContent_of (description todo)) (fun description_text =>
  Normal
    {| dataset_id := data_id;
       classList := classList_add "enter" classes;
       todo_title := title_text;
       todo_description := description_text;
       description_display :=
         if negb (truthy (description todo)) then "none" else "";
       checkbox_checked := negb (negb (truthy (completed todo)));
       bound_id := id todo |}))).

(** The callback of [todos.filter] in [renderTodos]. *)
Definition shown (filter : string) (todo : Todo) : bool :=
  if String.eqb filter "active" then negb (truthy (completed todo))
  else if String.eqb filter "completed" then truthy (completed todo)
  else true.

(** [const filtered] of [renderTodos]: the tasks the current filter shows. *)
Definition filtered (filter : string) (tasks : list Todo) : list Todo :=
  List.filter (shown filter) tasks.

(** [listEl.appendChild(el)]. *)
Definition appendChild (el : Li) : JS unit :=
  modify (fun st => set_listEl (listEl st ++ [el]) st).

Definition renderTodos : JS unit :=
  modify (set_listEl []);;
  let! ts := gets todos in
  let! f := gets currentFilter in
  forEach (fun todo =>
             let! el := lift (createTodoElement todo) in
             appendChild el)
    (filtered f ts);;
  modify (set_filterButtons_active
            (List.filter (fun key => String.eqb key f)
               ["all"; "active"; "completed"])).

(** *** Persistence helpers *)

Definition saveTodos : JS unit :=
  try_catch
    (let! ts := gets todos in
     localStorage_setItem "colorfulTodo"
       (JSON_stringify (VArr 0 (map Todo_props ts))))
    (fun e => console_error_call "Failed to save todos to localStorage").

(** [arr.map(f)] on a parsed value: only an array has a callable [map]. *)
Definition array_map {B} (arr : value) (f : value → JS B) : JS (list B) :=
  match arr with
  | VArr _ elems => mapM f elems
  | _ => throw TypeError
  end.

(** [JSON.parse(text)]: the value read, in cells of its own. *)
Definition JSON_parse_call (text : string) : JS value :=
  match JSON_parse text with
  | Some v =>
      fun st =>
        let (v', a) := allocate (next_address st) v in
        (Normal v', set_next_address a st)
  | None => throw SyntaxError
  end.

(** The accent colour of [loadTodos]: the custom property takes the stored
    text as it is, the picker what a colour input keeps of it. *)
Definition restore_accent (savedAccent : string) : JS unit :=
  modify (set_accent_color savedAccent);;
  modify (set_accentPicker_value (sanitize_color savedAccent)).

Definition loadTodos : JS unit :=
  let! savedAccent := localStorage_getItem "todoAccentColor" in
  (match savedAccent with
   | Some c => when (nonempty c) (restore_accent c)
   | None => ret tt
   end);;
  let! raw := localStorage_getItem "colorfulTodo" in
  (match raw with
   | Some text =>
       when (nonempty text)
         (try_catch
            (let! arr := JSON_parse_call text in
             let! loaded := array_map arr Todo_fromObject in
             modify (set_todos loaded))
            (fun e =>
               console_error_call "Failed to parse todos from localStorage";;
               modify (set_todos [])))
   | None => ret tt
   end);;
  renderTodos.

(** *** CRUD operations *)

(** [n.toString(16)] for a non-negative integer. *)
Definition toString16 (n : Z) : string :=
  HexadecimalString.NilZero.string_of_uint (N.to_hex_uint (Z.to_N n)).

(** [[1e7]+-1e3+-4e3+-8e3+-1e11]. *)
Definition uuid_template : string := "10000000-1000-4000-8000-100000000000".

(** The replacement callback of [generateUUID], on the digit [c] it is given:
    [c ^ random & 15 >> c / 4], printed in base 16. *)
Definition uuid_digit (c : Z) : JS string :=
  let! r := getRandomValues_call in
  ret (toString16 (Z.lxor c (Z.land r (Z.shiftr 15 (c / 4))))).

(** [.replace(/[018]/g, callback)]. *)
Fixpoint replace_018 (s : string) : JS string :=
  match s with
  | EmptyString => ret EmptyString
  | String ch rest =>
      let! piece :=
        (if Ascii.eqb ch "0" then uuid_digit 0
         else if Ascii.eqb ch "1" then uuid_digit 1
         else if Ascii.eqb ch "8" then uuid_digit 8
         else ret (String ch EmptyString)) in
      let! rest' := replace_018 rest in
      ret (String.append piece rest')
  end.

Definition generateUUID : JS string := replace_018 uuid_template.

Definition addTodo (title0 : string) (description0 : option string) : JS unit :=
  let description1 := default "" description0 in
  let! uuid := generateUUID in
  let! newTodo :=
    Todo_constructor
      (VObj 0 [("id", VStr uuid); ("title", VStr (trim title0));
               ("description", VStr (trim description1))]) in
  modify (fun st => set_todos (todos st ++ [newTodo]) st);;
  saveTodos;;
  let! el := lift (createTodoElement newTodo) in
  appendChild el.

(** [todos.findIndex(callback)]. *)
Fixpoint findIndex_from {A} (p : A → bool) (l : list A) (i : Z) : Z :=
  match l with
  | [] => -1
  | x :: rest => if p x then i else findIndex_from p rest (i + 1)
  end.

Definition findIndex {A} (p : A → bool) (l : list A) : Z :=
  findIndex_from p l 0.

Definition set_title (v : value) (t : Todo) : Todo :=
  {| id := id t; title := v; description := description t;
     completed := completed t; createdAt := createdAt t |}.

Definition set_description (v : value) (t : Todo) : Todo :=
  {| id := id t; title := title t; description := v;
     completed := completed t; createdAt := createdAt t |}.

Definition set_completed (v : value) (t : Todo) : Todo :=
  {| id := id t; title := title t; description := description t;
     completed := v; createdAt := createdAt t |}.

(** An assignment through a reference to the object held in slot [i] of
    [todos]: the array sees the new field at once. *)
Definition assign (i : nat) (f : Todo → Todo) : JS unit :=
  modify (fun st => set_todos (alter f i (todos st)) st).

(** [if (typeof updates.k === 'string') todo.k = updates.k.trim()]. *)
Definition merge_string (updates : value) (k : string) (i : nat)
    (setter : value → Todo → Todo) : JS unit :=
  let! v := lift (get_prop updates k) in
  match v with
  | VStr s => assign i (setter (VStr (trim s)))
  | _ => ret tt
  end.

Definition updateTodo (id0 : value) (updates : value) : JS unit :=
  let! ts := gets todos in
  let index := findIndex (fun t => strict_eq (id t) id0) ts in
  if (index =? -1)%Z then ret tt
  else
    let i := Z.to_nat index in
    merge_string updates "title" i set_title;;
    merge_string updates "description" i set_description;;
    (let! v := lift (get_prop updates "completed") in
     match v with
     | VBool b => assign i (set_completed (VBool b))
     | _ => ret tt
     end);;
    saveTodos;;
    renderTodos.

(** The selector [`li[data-id="${id}"]`], on the text of the id. *)
Definition data_id_selector (text : string) : string :=
  String.append "li[data-id="
    (String double_quote
       (String.append text (String double_quote "]"))).

(** A text that stands for itself between the quotes of a CSS string: it
    has no double quote, no backslash, no line break (LF, FF, CR) and no
    NUL, which CSS would read as the end of the string, as an escape, as an
    error or as another character. *)
Definition css_plain_char (c : ascii) : bool :=
  let n := nat_of_ascii c in
  negb ((n =? 0)%nat || (n =? 10)%nat || (n =? 12)%nat || (n =? 13)%nat ||
        (n =? 34)%nat || (n =? 92)%nat).

Definition css_plain (text : string) : bool :=
  forallb css_plain_char (list_ascii_of_string text).

(** The position of the first item whose [data-id] is the given string. *)
Fixpoint first_with_data_id (wanted : string) (items : list Li) : option nat :=
  match items with
  | [] => None
  | li :: rest =>
      if String.eqb (dataset_id li) wanted then Some O
      else option_map S (first_with_data_id wanted rest)
  end.

(** White space of CSS: TAB, LF, FF, CR and SPACE. *)
Definition css_space (c : ascii) : bool :=
  let n := nat_of_ascii c in
  (n =? 9)%nat || (n =? 10)%nat || (n =? 12)%nat || (n =? 13)%nat ||
  (n =? 32)%nat.

Fixpoint skip_css_space (s : string) : string :=
  match s with
  | EmptyString => EmptyString
  | String c rest => if css_space c then skip_css_space rest else s
  end.

(** After the value of an attribute selector come white space and then the
    closing bracket, possibly with a modifier, [i] or [s], before it.
    [cannot_close rest] says that [rest] starts, after its white space, with
    a character that begins none of these, nor an escape or a comment behind
    which one of them could stand. *)
Definition cannot_close (rest : string) : bool :=
  match skip_css_space rest with
  | EmptyString => false
  | String c _ =>
      negb (existsb (Ascii.eqb c)
              [ascii_of_nat 93; "i"; "I"; "s"; "S"; ascii_of_nat 92; "/"]%char)
  end.

(** Texts for which the selector is malformed whatever the engine: a line
    break inside the quotes, which ends the CSS string in error, or a double
    quote, which ends the string, followed by something that cannot close
    the attribute selector.  The scan stops at a backslash, which starts an
    escape. *)
Fixpoint selector_malformed (text : string) : bool :=
  match text with
  | EmptyString => false
  | String c rest =>
      let n := nat_of_ascii c in
      if (n =? 10)%nat || (n =? 12)%nat || (n =? 13)%nat then true
      else if (n =? 34)%nat
      then cannot_close (String.append rest (String double_quote "]"))
      else if (n =? 92)%nat then false
      else selector_malformed rest
  end.

(** [listEl.querySelector(`li[data-id="${id}"]`)].  For a plain text the
    selector asks for the first item with exactly that [data-id].  For a
    text that makes the selector malformed the call throws.  For any other
    text, one with escapes or with a double quote after which the selector
    goes on, the answer is the selector engine's. *)
Definition querySelector_data_id (text : string) (items : list Li)
    : completion (option nat) :=
  if css_plain text then Normal (first_with_data_id text items)
  else if selector_malformed text then Throw DOMSyntaxError
  else
    match Element_querySelector (data_id_selector text) items with
    | Some found => Normal found
    | None => Throw DOMSyntaxError
    end.

(** [todos = todos.filter(t => t.id !== id)]. *)
Definition remove_id (id0 : value) : JS unit :=
  modify (fun st =>
            set_todos
              (List.filter (fun t => negb (strict_eq (id t) id0)) (todos st))
              st).

(** [deleteTodo(id)].  The template literal converts the id to text and
    [querySelector] reads the selector, both before anything is changed.
    The item found is only marked here; its [animationend] listener detaches
    it in a later event. *)
Definition deleteTodo (id0 : value) : JS unit :=
  let! text := lift (ToString id0) in
  let! items := gets listEl in
  let! li := lift (querySelector_data_id text items) in
  match li with
  | None =>
      remove_id id0;;
      saveTodos
  | Some i =>
      modify (fun st =>
                set_listEl (alter (li_add_class "removing") i (listEl st)) st);;
      remove_id id0;;
      saveTodos
  end.

(** [todos.find(callback)], as the slot of the object it returns. *)
Fixpoint find_slot {A} (p : A → bool) (l : list A) : option nat :=
  match l with
  | [] => None
  | x :: rest => if p x then Some O else option_map S (find_slot p rest)
  end.

Definition toggleComplete (id0 : value) : JS unit :=
  let! ts := gets todos in
  match find_slot (fun t => strict_eq (id t) id0) ts with
  | None => ret tt
  | Some i =>
      assign i (fun todo =>
                  set_completed (VBool (negb (truthy (completed todo)))) todo);;
      saveTodos;;
      renderTodos
  end.

(** *** Edit mode helpers *)

(** [exitEditMode(li)]: the class removed from [li] is lost with the item,
    which the rebuild replaces. *)
Definition exitEditMode : JS unit := renderTodos.

(** The save handler [commit] of [enterEditMode(li, todo)], on the contents
    of the two edit fields. *)
Definition commit (todo : Todo) (titleInput_val descTextarea_val : string)
    : JS unit :=
  let newTitle := trim titleInput_val in
  let newDesc := trim descTextarea_val in
  (if nonempty newTitle
   then updateTodo (id todo)
          (VObj 0 [("title", VStr newTitle); ("description", VStr newDesc)])
   else deleteTodo (id todo));;
  exitEditMode.

(** The cancel handler. *)
Definition cancel : JS unit := exitEditMode.

(** *** Filter buttons and form *)

(** The click listener attached to the filter button [key]. *)
Definition filter_click (key : string) : JS unit :=
  modify (set_currentFilter key);;
  renderTodos.

(** The [submit] listener of the form. *)
Definition form_submit : JS unit :=
  let! tv := gets titleInput_value in
  let! dv := gets descInput_value in
  let title1 := trim tv in
  let desc := trim dv in
  if negb (nonempty title1) then ret tt
  else
    addTodo title1 (Some desc);;
    modify (set_form_inputs "" "").

End Script.

(** The state in which the script starts: [let todos = []],
    [let currentFilter = 'all'], an empty list on the page, a colour picker
    without a colour of its own. *)
Definition initial_state (storage : gmap string string) : State :=
  {| todos := []; currentFilter := "all"; listEl := [];
     filterButtons_active := []; titleInput_value := "";
     descInput_value := ""; accent_color := None;
     accentPicker_value := "#000000";
     localStorage := storage; console_error := [];
     Date_now_calls := O; random_calls := O; next_address := 1%nat |}.

(** ** Effects of the helpers, as state transformers *)

Section Effects.
Context `{Platform}.

(** Whether [createTodoElement] builds an item for the task. *)
Definition displayable (t : Todo) : bool :=
  match createTodoElement t with
  | Normal _ => true
  | Throw _ => false
  end.

(** The items the loop of [renderTodos] appends for the given tasks: one per
    task, up to the first task that has no item. *)
Fixpoint elements (tasks : list Todo) : list Li :=
  match tasks with
  | [] => []
  | t :: rest =>
      match createTodoElement t with
      | Normal li => li :: elements rest
      | Throw _ => []
      end
  end.

(** The state when [renderTodos] has run to its end: the items of the shown
    tasks, and the button of the current filter marked active. *)
Definition rendered (st : State) : State :=
  set_filterButtons_active
    (List.filter (fun key => String.eqb key (currentFilter st))
       ["all"; "active"; "completed"])
    (set_listEl (elements (filtered (currentFilter st) (todos st))) st).

(** The state when [renderTodos] is stopped by a task without an item: the
    items of the tasks before it, and the buttons as they were. *)
Definition render_stopped (st : State) : State :=
  set_listEl (elements (filtered (currentFilter st) (todos st))) st.

(** What [renderTodos] does: it returns when every shown task has an item,
    and otherwise throws the [TypeError] of the first one that has none. *)
Definition render_result (st : State) : completion unit * State :=
  if forallb displayable (filtered (currentFilter st) (todos st))
  then (Normal tt, rendered st)
  else (Throw TypeError, render_stopped st).

(** The text [saveTodos] hands to the storage. *)
Definition serialized (tasks : list Todo) : string :=
  JSON_stringify (VArr 0 (map Todo_props tasks)).

(** The state after [saveTodos]: the collection stored, or the failure
    logged. *)
Definition saved (st : State) : State :=
  let items := <["colorfulTodo" := serialized (todos st)]> (localStorage st) in
  if storage_accepts items
  then set_localStorage items st
  else log_error "Failed to save todos to localStorage" st.

(** The accent colour restored at the start of [loadTodos]. *)
Definition accent_restored (st : State) : State :=
  match localStorage st !! "todoAccentColor" with
  | Some c =>
      if nonempty c
      then set_accentPicker_value (sanitize_color c) (set_accent_color c st)
      else st
  | None => st
  end.

(** [o.k] on a value that is neither [null] nor [undefined]. *)
Definition field (o : value) (k : string) : value :=
  match o with
  | VObj _ props => own_prop k props
  | _ => VUndefined
  end.

(** The record [Todo.fromObject] builds from a stored object when the clock
    has been read [n] times before. *)
Definition repaired (n : nat) (obj : value) : Todo :=
  {| id := field obj "id";
     title := field obj "title";
     description := nullish_coalesce (field obj "description") (VStr "");
     completed := nullish_coalesce (field obj "completed") (VBool false);
     createdAt :=
       if nullish (field obj "createdAt") then VNum (Date_now n)
       else field obj "createdAt" |}.

(** Whether deserializing [obj] reads the clock. *)
Definition reads_clock (obj : value) : bool := nullish (field obj "createdAt").

(** The records loaded from a parsed array, and the number of clock reads
    afterwards. *)
Fixpoint load_records (n : nat) (elems : list value) : list Todo * nat :=
  match elems with
  | [] => ([], n)
  | obj :: rest =>
      let n' := if reads_clock obj then S n else n in
      let (ts, m) := load_records n' rest in
      (repaired n obj :: ts, m)
  end.

Definition set_clock (n : nat) (st : State) : State :=
  {| todos := todos st; currentFilter := currentFilter st; listEl := listEl st;
     filterButtons_active := filterButtons_active st;
     titleInput_value := titleInput_value st;
     descInput_value := descInput_value st;
     accent_color := accent_color st;
     accentPicker_value := accentPicker_value st;
     localStorage := localStorage st; console_error := console_error st;
     Date_now_calls := n; random_calls := random_calls st;
     next_address := next_address st |}.

(** The value [JSON.parse] hands to the script in the state [st]. *)
Definition parsed (st : State) (v : value) : value :=
  fst (allocate (next_address st) v).

(** The collection [loadTodos] leaves, by what the storage holds: nothing or
    the empty string keeps the collection; text that does not parse, that is
    not an array, or that has a [null] element empties it; an array of other
    values is loaded. *)
Definition load_outcome (st : State) : list Todo :=
  match localStorage st !! "colorfulTodo" with
  | None => todos st
  | Some text =>
      if nonempty text then
        match JSON_parse text with
        | Some v =>
            match parsed st v with
            | VArr _ elems =>
                if forallb (fun o => negb (nullish o)) elems
                then fst (load_records (Date_now_calls st) elems)
                else []
            | _ => []
            end
        | None => []
        end
      else todos st
  end.


(** The codec loses nothing of a document: printing gives text, and parsing
    that text gives the document back. *)
Definition lossless (doc : value) : Prop :=
  JSON_stringify doc ≠ "" ∧ JSON_parse (JSON_stringify doc) = Some doc.

Definition set_random (n : nat) (st : State) : State :=
  {| todos := todos st; currentFilter := currentFilter st; listEl := listEl st;
     filterButtons_active := filterButtons_active st;
     titleInput_value := titleInput_value st;
     descInput_value := descInput_value st;
     accent_color := accent_color st;
     accentPicker_value := accentPicker_value st;
     localStorage := localStorage st; console_error := console_error st;
     Date_now_calls := Date_now_calls st; random_calls := n;
     next_address := next_address st |}.

(** The record [addTodo] builds, given the identifier drawn. *)
Definition created (uuid title0 description0 : string) (n : nat) : Todo :=
  {| id := VStr uuid; title := VStr (trim title0);
     description := VStr (trim description0); completed := VBool false;
     createdAt := VNum (Date_now n) |}.

(** The item [createTodoElement] builds for that record. *)
Definition created_item (uuid title0 description0 : string) (n : nat) : Li :=
  {| dataset_id := uuid;
     classList := classList_add "enter" template_classes;
     todo_title := trim title0;
     todo_description := trim description0;
     description_display :=
       if negb (nonempty (trim description0)) then "none" else "";
     checkbox_checked := false;
     bound_id := VStr uuid |}.

(** The fields [updateTodo] merges into a task. *)
Definition merged (updates : value) (t : Todo) : Todo :=
  let t1 :=
    match field updates "title" with
    | VStr s => set_title (VStr (trim s)) t
    | _ => t
    end in
  let t2 :=
    match field updates "description" with
    | VStr s => set_description (VStr (trim s)) t1
    | _ => t1
    end in
  match field updates "completed" with
  | VBool b => set_completed (VBool b) t2
  | _ => t2
  end.

Definition toggled (t : Todo) : Todo :=
  set_completed (VBool (negb (truthy (completed t)))) t.

(** The collection without the tasks of the given id. *)
Definition without_id (id0 : value) (tasks : list Todo) : list Todo :=
  List.filter (fun t => negb (strict_eq (id t) id0)) tasks.

(** The page after [deleteTodo] has marked the item it found, if any. *)
Definition marked_removing (found : option nat) (st : State) : State :=
  match found with
  | Some i => set_listEl (alter (li_add_class "removing") i (listEl st)) st
  | None => st
  end.

(** The state [deleteTodo] leaves when it gets past [querySelector]. *)
Definition deleted (id0 : value) (found : option nat) (st : State) : State :=
  saved (set_todos (without_id id0 (todos st)) (marked_removing found st)).

(** What [deleteTodo] does: the conversion of the id or the selector can
    throw, and then nothing has changed. *)
Definition delete_result (id0 : value) (st : State) : completion unit * State :=
  match ToString id0 with
  | Throw e => (Throw e, st)
  | Normal text =>
      match querySelector_data_id text (listEl st) with
      | Throw e => (Throw e, st)
      | Normal found => (Normal tt, deleted id0 found st)
      end
  end.

(** *** Sequences of store operations *)

Inductive Op : Type :=
| OpCreate (title0 : string) (description0 : option string)
| OpUpdate (id0 updates : value)
| OpToggle (id0 : value)
| OpDelete (id0 : value).

Definition run_op (op : Op) : JS unit :=
  match op with
  | OpCreate t d => addTodo t d
  | OpUpdate i u => updateTodo i u
  | OpToggle i => toggleComplete i
  | OpDelete i => deleteTodo i
  end.

(** Each operation runs in an event of its own: an error that escapes one
    ends that event only. *)
Fixpoint run_ops (ops : list Op) (st : State) : State :=
  match ops with
  | [] => st
  | op :: rest => run_ops rest (snd (run_op op st))
  end.

(** *** Events of the page

    What the user can do: submit the form with the given field contents,
    save or cancel an edit, tick a checkbox, press a delete button, press a
    filter button. *)
Inductive Event : Type :=
| Submit (title_val desc_val : string)
| Commit (todo : Todo) (title_val desc_val : string)
| Cancel
| Tick (id0 : value)
| Delete (id0 : value)
| Filter (key : string).

Definition handle (e : Event) : JS unit :=
  match e with
  | Submit t d => modify (set_form_inputs t d);; form_submit
  | Commit todo t d => commit todo t d
  | Cancel => cancel
  | Tick i => toggleComplete i
  | Delete i => deleteTodo i
  | Filter key => filter_click key
  end.

End Effects.

(** Every task of the collection has a non-empty string as title. *)
Definition titled (tasks : list Todo) : Prop :=
  Forall (fun t => ∃ s, title t = VStr s ∧ s ≠ "") tasks.

(** What identifies a task for its whole life. *)
Definition identity (t : Todo) : value * value := (id t, createdAt t).

(** How one operation may change the sequence of identities: a creation adds
    one at the end, a deletion drops those of the given id or, when it
    throws, none at all, an update or a toggle changes nothing.  No rule
    rewrites an identity. *)
Inductive identity_step : Op → list (value * value) → list (value * value) → Prop :=
| step_create t d ks k : identity_step (OpCreate t d) ks (ks ++ [k])
| step_update i u ks : identity_step (OpUpdate i u) ks ks
| step_toggle i ks : identity_step (OpToggle i) ks ks
| step_delete i ks :
    identity_step (OpDelete i) ks
      (List.filter (fun k => negb (strict_eq (fst k) i)) ks)
| step_delete_thrown i ks : identity_step (OpDelete i) ks ks.

Inductive identity_trace : list Op → list (value * value) → list (value * value) → Prop :=
| trace_nil ks : identity_trace [] ks ks
| trace_cons op ops ks ks' ks'' :
    identity_step op ks ks' →
    identity_trace ops ks' ks'' →
    identity_trace (op :: ops) ks ks''.

Definition is_create (op : Op) : bool :=
  match op with OpCreate _ _ => true | _ => false end.

(** A task record as the data model types it. *)
Definition task_record (t : Todo) : Prop :=
  typeof_string (id t) = true ∧ typeof_string (title t) = true ∧
  typeof_string (description t) = true ∧ typeof_boolean (completed t) = true ∧
  (∃ n, createdAt t = VNum n).

(** A stored object lacks the property [k]. *)
Definition lacks (k : string) (props : list (string * value)) : Prop :=
  k ∉ map fst props.

(** A task whose id has a double quote in it: the letter a, a double quote,
    the letter b. *)
Definition quoted_id : string := String "a" (String double_quote "b").

Definition quoted : Todo :=
  {| id := VStr quoted_id; title := VStr "Call Ana"; description := VStr "";
     completed := VBool false; createdAt := VNum 1700000000000 |}.

(** ** A reference platform

    A platform on which the script can be run: a JSON codec for the values
    of the model (compact output, integer numbers), a clock that advances one
    millisecond per reading, a counter as random source, a five-million
    character storage, and a template whose item carries one class.  Its
    selector engine, which the script reaches only with an identifier that
    holds an escape, a NUL, or a double quote after which the selector goes
    on, knows none of these and reports the selector as malformed; no
    example below reaches it.  A number above [2^53] is printed from the
    digits it is given, which are those of a double in the examples
    below. *)
Module Reference.

Definition dquote : ascii := double_quote.
Definition backslash : ascii := ascii_of_nat 92.

Definition hex_char (n : nat) : ascii :=
  nth n (list_ascii_of_string "0123456789abcdef") "0"%char.

Definition escape_char (c : ascii) : string :=
  let n := nat_of_ascii c in
  if (n =? 34)%nat then String backslash (String dquote EmptyString)
  else if (n =? 92)%nat then String backslash (String backslash EmptyString)
  else if (n =? 8)%nat then String backslash "b"
  else if (n =? 9)%nat then String backslash "t"
  else if (n =? 10)%nat then String backslash "n"
  else if (n =? 12)%nat then String backslash "f"
  else if (n =? 13)%nat then String backslash "r"
  else if (n <? 32)%nat
       then String backslash
              (String.append "u00"
                 (String (hex_char (n / 16)) (String (hex_char (n mod 16)) EmptyString)))
  else String c EmptyString.

Fixpoint escape (s : string) : string :=
  match s with
  | EmptyString => EmptyString
  | String c rest => String.append (escape_char c) (escape rest)
  end.

Definition quote (s : string) : string :=
  String dquote (String.append (escape s) (String dquote EmptyString)).

(** [JSON.stringify]: properties holding [undefined] are left out, and
    [undefined] inside an array prints as [null]. *)
Fixpoint stringify (v : value) : string :=
  match v with
  | VUndefined | VNull => "null"
  | VBool b => if b then "true" else "false"
  | VNum n => decimal n
  | VStr s => quote s
  | VArr _ elems =>
      String.append "["
        (String.append
           ((fix items (l : list value) : string :=
               match l with
               | [] => ""
               | x :: rest =>
                   match rest with
                   | [] => stringify x
                   | _ :: _ =>
                       String.append (stringify x) (String.append "," (items rest))
                   end
               end) elems) "]")
  | VObj _ props =>
      String.append "{"
        (String.append
           ((fix members (l : list (string * value)) (first : bool) : string :=
               match l with
               | [] => ""
               | (k, x) :: rest =>
                   match x with
                   | VUndefined => members rest first
                   | _ =>
                       String.append (if first then "" else ",")
                         (String.append (quote k)
                            (String.append ":"
                               (String.append (stringify x) (members rest false))))
                   end
               end) props true) "}")
  end.

Definition is_json_space (c : ascii) : bool :=
  let n := nat_of_ascii c in
  (n =? 32)%nat || (n =? 9)%nat || (n =? 10)%nat || (n =? 13)%nat.

Fixpoint skip_space (s : string) : string :=
  match s with
  | String c rest => if is_json_space c then skip_space rest else s
  | EmptyString => EmptyString
  end.

Definition hex_value (c : ascii) : option nat :=
  let n := nat_of_ascii c in
  if (48 <=? n)%nat && (n <=? 57)%nat then Some (n - 48)%nat
  else if (97 <=? n)%nat && (n <=? 102)%nat then Some (n - 87)%nat
  else if (65 <=? n)%nat && (n <=? 70)%nat then Some (n - 55)%nat
  else None.

Definition unescape (e : ascii) : option ascii :=
  let n := nat_of_ascii e in
  if (n =? 34)%nat then Some dquote
  else if (n =? 92)%nat then Some backslash
  else if (n =? 47)%nat then Some "/"%char
  else if (n =? 98)%nat then Some (ascii_of_nat 8)
  else if (n =? 102)%nat then Some (ascii_of_nat 12)
  else if (n =? 110)%nat then Some (ascii_of_nat 10)
  else if (n =? 114)%nat then Some (ascii_of_nat 13)
  else if (n =? 116)%nat then Some (ascii_of_nat 9)
  else None.

(** The characters of a string literal, after its opening quote. *)
Fixpoint parse_chars (s : string) : option (string * string) :=
  match s with
  | EmptyString => None
  | String c rest =>
      if Ascii.eqb c dquote then Some (EmptyString, rest)
      else if Ascii.eqb c backslash then
        match rest with
        | String "u" (String h1 (String h2 (String h3 (String h4 rest')))) =>
            match hex_value h1, hex_value h2, hex_value h3, hex_value h4 with
            | Some O, Some O, Some a, Some b =>
                match parse_chars rest' with
                | Some (body, tail) =>
                    Some (String (ascii_of_nat (16 * a + b)) body, tail)
                | None => None
                end
            | _, _, _, _ => None
            end
        | String e rest' =>
            match unescape e, parse_chars rest' with
            | Some ch, Some (body, tail) => Some (String ch body, tail)
            | _, _ => None
            end
        | EmptyString => None
        end
      else if (nat_of_ascii c <? 32)%nat then None
      else
        match parse_chars rest with
        | Some (body, tail) => Some (String c body, tail)
        | None => None
        end
  end.

Definition digit_value (c : ascii) : option Z :=
  let n := nat_of_ascii c in
  if (48 <=? n)%nat && (n <=? 57)%nat then Some (Z.of_nat (n - 48)) else None.

Fixpoint parse_digits (acc : Z) (s : string) : Z * string :=
  match s with
  | String c rest =>
      match digit_value c with
      | Some d => parse_digits (10 * acc + d) rest
      | None => (acc, s)
      end
  | EmptyString => (acc, s)
  end.

(** An integer literal: no leading zero, no fraction, no exponent. *)
Definition parse_natural (s : string) : option (Z * string) :=
  match s with
  | String c rest =>
      match digit_value c with
      | Some 0 =>
          match rest with
          | String c' _ =>
              match digit_value c' with
              | Some _ => None
              | None => Some (0, rest)
              end
          | EmptyString => Some (0, rest)
          end
      | Some d => Some (parse_digits d rest)
      | None => None
      end
  | EmptyString => None
  end.

Definition no_fraction (s : string) : bool :=
  match s with
  | String c _ =>
      negb (Ascii.eqb c "." || Ascii.eqb c "e" || Ascii.eqb c "E")
  | EmptyString => true
  end.

Fixpoint strip_prefix (p s : string) : option string :=
  match p, s with
  | EmptyString, _ => Some s
  | String a p', String b s' => if Ascii.eqb a b then strip_prefix p' s' else None
  | String _ _, EmptyString => None
  end.

(** An own property set by the parser: a repeated key keeps its place and
    takes the later value. *)
Fixpoint set_own (k : string) (v : value) (props : list (string * value))
    : list (string * value) :=
  match props with
  | [] => [(k, v)]
  | (k', v') :: rest =>
      if String.eqb k k' then (k, v) :: rest else (k', v') :: set_own k v rest
  end.

(** The elements of an array after the first, up to the closing bracket. *)
Fixpoint parse_elements (fuel : nat)
    (parse_value : string → option (value * string)) (s : string)
    : option (list value * string) :=
  match fuel with
  | O => None
  | S fuel' =>
      match skip_space s with
      | String "]" rest => Some ([], rest)
      | String "," rest =>
          match parse_value rest with
          | Some (v, rest') =>
              match parse_elements fuel' parse_value rest' with
              | Some (vs, tail) => Some (v :: vs, tail)
              | None => None
              end
          | None => None
          end
      | _ => None
      end
  end.

Definition parse_member (parse_value : string → option (value * string))
    (s : string) : option (string * value * string) :=
  match skip_space s with
  | String c rest =>
      if Ascii.eqb c dquote then
        match parse_chars rest with
        | Some (k, rest') =>
            match skip_space rest' with
            | String ":" rest'' =>
                match parse_value rest'' with
                | Some (v, tail) => Some (k, v, tail)
                | None => None
                end
            | _ => None
            end
        | None => None
        end
      else None
  | EmptyString => None
  end.

(** The members of an object after the first, up to the closing brace. *)
Fixpoint parse_members (fuel : nat)
    (parse_value : string → option (value * string))
    (acc : list (string * value)) (s : string)
    : option (list (string * value) * string) :=
  match fuel with
  | O => None
  | S fuel' =>
      match skip_space s with
      | String "}" rest => Some (acc, rest)
      | String "," rest =>
          match parse_member parse_value rest with
          | Some (k, v, rest') =>
              parse_members fuel' parse_value (set_own k v acc) rest'
          | None => None
          end
      | _ => None
      end
  end.

Fixpoint parse_value (fuel : nat) (s : string) : option (value * string) :=
  match fuel with
  | O => None
  | S fuel' =>
      match skip_space s with
      | EmptyString => None
      | String c rest as s' =>
          if Ascii.eqb c "n"
          then option_map (fun r => (VNull, r)) (strip_prefix "null" s')
          else if Ascii.eqb c "t"
          then option_map (fun r => (VBool true, r)) (strip_prefix "true" s')
          else if Ascii.eqb c "f"
          then option_map (fun r => (VBool false, r)) (strip_prefix "false" s')
          else if Ascii.eqb c dquote
          then option_map (fun p => (VStr (fst p), snd p)) (parse_chars rest)
          else if Ascii.eqb c "["
          then
            match skip_space rest with
            | String "]" tail => Some (VArr 0 [], tail)
            | _ =>
                match parse_value fuel' rest with
                | Some (v, rest') =>
                    option_map (fun p => (VArr 0 (v :: fst p), snd p))
                      (parse_elements fuel' (parse_value fuel') rest')
                | None => None
                end
            end
          else if Ascii.eqb c "{"
          then
            match skip_space rest with
            | String "}" tail => Some (VObj 0 [], tail)
            | _ =>
                match parse_member (parse_value fuel') rest with
                | Some (k, v, rest') =>
                    option_map (fun p => (VObj 0 (fst p), snd p))
                      (parse_members fuel' (parse_value fuel') [(k, v)] rest')
                | None => None
                end
            end
          else if Ascii.eqb c "-"
          then
            match parse_natural rest with
            | Some (n, tail) =>
                if no_fraction tail then Some (VNum (- n), tail) else None
            | None => None
            end
          else
            match parse_natural s' with
            | Some (n, tail) =>
                if no_fraction tail then Some (VNum n, tail) else None
            | None => None
            end
      end
  end.

(** [JSON.parse]: one value, with nothing but white space after it. *)
Definition parse (text : string) : option value :=
  match parse_value (S (String.length text)) text with
  | Some (v, rest) =>
      match skip_space rest with
      | EmptyString => Some v
      | String _ _ => None
      end
  | None => None
  end.

(** [n.toString()] above [2^53]: the digits of [n] up to [10^21], and from
    there on its first digit, the further digits up to the last one that is
    not zero, and the exponent. *)
Fixpoint strip_zeros (s : string) : string :=
  match s with
  | EmptyString => EmptyString
  | String c rest =>
      match strip_zeros rest with
      | EmptyString => if Ascii.eqb c "0" then EmptyString else String c EmptyString
      | kept => String c kept
      end
  end.

Definition large_number_text (n : Z) : string :=
  if (Z.abs n <? 10 ^ 21)%Z then decimal n
  else
    let digits := decimal (Z.abs n) in
    match strip_zeros digits with
    | EmptyString => "0"
    | String d rest =>
        String.append (if (n <? 0)%Z then "-" else "")
          (String d
             (String.append
                (match rest with
                 | EmptyString => ""
                 | String _ _ => String "." rest
                 end)
                (String.append "e+"
                   (decimal (Z.of_nat (String.length digits) - 1)))))
    end.

Definition stored_size (items : gmap string string) : nat :=
  map_fold (fun k v acc => (String.length k + String.length v + acc)%nat) O items.

#[export] Instance platform : Platform := {|
  JSON_parse := parse;
  JSON_stringify := stringify;
  Date_now := fun n => 1700000000000 + Z.of_nat n;
  random_byte := fun n => Z.of_nat (37 * n + 11);
  storage_accepts := fun items => (N.of_nat (stored_size items) <=? 5000000)%N;
  template_classes := ["todo-item"];
  Number_toString := large_number_text;
  Element_querySelector := fun selector items => None
|}.

End Reference.

(** ** States to run the script on *)
Module Scenario.
Import Reference.

Definition milk : Todo :=
  {| id := VStr "t-1"; title := VStr "Buy milk"; description := VStr "";
     completed := VBool false; createdAt := VNum 1700000000000 |}.

(** One open task, shown on the page under the filter ['all']. *)
Definition one_task : State := rendered (set_todos [milk] (initial_state ∅)).

(** The same, with a blank title typed into the form. *)
Definition blank_form : State := set_form_inputs "   " "soon" one_task.

(** No task, the filter on ['completed']. *)
Definition completed_view : State :=
  snd (filter_click "completed" (initial_state ∅)).

(** A storage that holds the task [quoted]. *)
Definition quoted_storage : gmap string string :=
  <["colorfulTodo" := serialized [quoted]]> ∅.

(** The page after the start of the script on that storage. *)
Definition quoted_task : State := snd (loadTodos (initial_state quoted_storage)).

(** A stored record whose title is the object [{"toString": null}]. *)
Definition broken_record : value :=
  VObj 0 [("id", VStr "a"); ("title", VObj 0 [("toString", VNull)])].

(** The text [[{"id":"a","title":{"toString":null}}]], which is what
    [JSON.stringify] prints for an array that holds this record. *)
Definition broken_text : string :=
  String.concat ""
    ["[{"; quote "id"; ":"; quote "a"; ","; quote "title"; ":{";
     quote "toString"; ":null}}]"].

Definition broken_storage : gmap string string :=
  <["colorfulTodo" := broken_text]> ∅.

(** Two stored records whose ids are arrays with the same contents:
    [[{"id":[1],"title":"a"},{"id":[1],"title":"b"}]]. *)
Definition twin_storage : gmap string string :=
  <["colorfulTodo" :=
      stringify
        (VArr 0 [VObj 0 [("id", VArr 0 [VNum 1]); ("title", VStr "a")];
                 VObj 0 [("id", VArr 0 [VNum 1]); ("title", VStr "b")]])]> ∅.

End Scenario.

(** ** The rest of the script *)

Section Script_rest.
Context `{Platform}.

(** The [input] listener that [initAccentPicker] attaches to the colour
    picker; [color] is [e.target.value], the value that the picker holds
    when the event is dispatched.  The listener itself does not write to
    the picker. *)
Definition accent_input (color : string) : JS unit :=
  modify (set_accent_color color);;
  try_catch
    (localStorage_setItem "todoAccentColor" color)
    (fun err => console_error_call "Failed to persist accent color").

(** The [keydown] listeners of the two edit fields of [enterEditMode]: Enter
    saves, except with Shift in the description. *)
Definition titleInput_keydown (todo : Todo)
    (titleInput_val descTextarea_val key : string) : JS unit :=
  if String.eqb key "Enter"
  then commit todo titleInput_val descTextarea_val
  else ret tt.

Definition descTextarea_keydown (todo : Todo)
    (titleInput_val descTextarea_val key : string) (shiftKey : bool) : JS unit :=
  if String.eqb key "Enter" && negb shiftKey
  then commit todo titleInput_val descTextarea_val
  else ret tt.

(** The events of the page, one after the other. *)
Fixpoint run_events (es : list Event) (st : State) : State :=
  match es with
  | [] => st
  | e :: rest => run_events rest (snd (handle e st))
  end.

(** The events whose handler ends with a rebuild of the list. *)
Definition rebuilds (e : Event) : bool :=
  match e with
  | Commit _ _ _ | Cancel | Filter _ => true
  | Submit _ _ | Tick _ | Delete _ => false
  end.

(** The id that the handler of an event hands to [deleteTodo], if any: that
    of a delete button, and that of an edit saved with a blank title. *)
Definition deleted_by (e : Event) : option value :=
  match e with
  | Delete i => Some i
  | Commit todo title_val _ =>
      if nonempty (trim title_val) then None else Some (id todo)
  | Submit _ _ | Cancel | Tick _ | Filter _ => None
  end.

(** The storage holds the collection as it is in memory. *)
Definition stored_in_step (st : State) : Prop :=
  localStorage st !! "colorfulTodo" = Some (serialized (todos st)).

(** The page holds one item per task the current filter shows, in order:
    each item is the one [createTodoElement] builds for its task. *)
Definition page_in_step (st : State) : Prop :=
  Forall2 (fun t li => createTodoElement t = Normal li)
    (filtered (currentFilter st) (todos st)) (listEl st).

(** A page item shows a task: its [data-id] is the text of the id, its
    texts are those of the title and of the description (nothing for [null]
    and [undefined]), and it has the classes and the checkbox that go with
    the flag, and a description hidden when empty. *)
Definition reflects (t : Todo) (li : Li) : Prop :=
  ToString (id t) = Normal (dataset_id li) ∧
  textContent_of (title t) = Normal (todo_title li) ∧
  textContent_of (description t) = Normal (todo_description li) ∧
  bound_id li = id t ∧
  "enter" ∈ classList li ∧
  ("completed" ∈ classList li ↔ truthy (completed t) = true) ∧
  checkbox_checked li = truthy (completed t) ∧
  (description_display li = "none" ↔ truthy (description t) = false).

(** An id whose selector [deleteTodo] can build and every engine reads the
    same way: it has a text, and the text is plain. *)
Definition selectable (id0 : value) : Prop :=
  ∃ text, ToString id0 = Normal text ∧ css_plain text = true.

End Script_rest.

(** *** The shape of an identifier *)

Definition is_hex (c : ascii) : bool :=
  existsb (Ascii.eqb c) (list_ascii_of_string "0123456789abcdef").

(** What may stand in an identifier where the template has [pattern]: any
    hexadecimal digit for [0] and [1], one of [8 9 a b] for [8], and the
    character of the template itself elsewhere. *)
Definition uuid_char (pattern c : ascii) : bool :=
  if Ascii.eqb pattern "0" || Ascii.eqb pattern "1" then is_hex c
  else if Ascii.eqb pattern "8"
       then existsb (Ascii.eqb c) (list_ascii_of_string "89ab")
       else Ascii.eqb c pattern.

Fixpoint uuid_shape (pattern u : string) : bool :=
  match pattern, u with
  | EmptyString, EmptyString => true
  | String p pattern', String c u' => uuid_char p c && uuid_shape pattern' u'
  | _, _ => false
  end.

(** The number of characters [replace_018] replaces. *)
Fixpoint count_018 (s : string) : nat :=
  match s with
  | EmptyString => O
  | String ch rest =>
      if Ascii.eqb ch "0" || Ascii.eqb ch "1" || Ascii.eqb ch "8"
      then S (count_018 rest)
      else count_018 rest
  end.

(** The replacement digit for every byte, checked against the shape. *)
Definition digit_checked (c : Z) (pattern : ascii) : bool :=
  forallb
    (fun r =>
       match toString16 (Z.lxor c (Z.land (Z.of_nat r) (Z.shiftr 15 (c / 4)))) with
       | String h EmptyString => uuid_char pattern h
       | _ => false
       end)
    (seq 0 256).

(** A state whose storage holds its collection. *)
Module Session.
Import Reference Scenario.

Definition kept : State := snd (saveTodos one_task).

(** Some operations and some events to run. *)
Definition some_ops : list Op :=
  [OpCreate " Call Ana " None;
   OpUpdate (VStr "t-1") (VObj 0 [("title", VStr "Buy oat milk"); ("completed", VNum 1)]);
   OpToggle (VStr "t-1");
   OpDelete (VStr "none")].

Definition some_events : list Event :=
  [Submit "   " "nothing"; Submit " Call Ana " ""; Tick (VStr "t-1");
   Filter "completed"; Commit milk "  " ""; Cancel].

End Session.

(** * Properties *)

(** ** Values and strings *)

(** Induction on values that reaches inside arrays and objects. *)
Section value_induction.
Variable P : value → Prop.
Hypothesis Hundefined : P VUndefined.
Hypothesis Hnull : P VNull.
Hypothesis Hbool : ∀ b, P (VBool b).
Hypothesis Hnum : ∀ n, P (VNum n).
Hypothesis Hstr : ∀ s, P (VStr s).
Hypothesis Harr : ∀ a elems, Forall P elems → P (VArr a elems).
Hypothesis Hobj :
  ∀ a props, Forall (fun kv => P (snd kv)) props → P (VObj a props).

Fixpoint value_nested_ind (v : value) : P v :=
  match v with
  | VUndefined => Hundefined
  | VNull => Hnull
  | VBool b => Hbool b
  | VNum n => Hnum n
  | VStr s => Hstr s
  | VArr a elems =>
      Harr a elems
        ((fix all (l : list value) : Forall P l :=
            match l with
            | [] => List.Forall_nil P
            | x :: rest => List.Forall_cons _ x rest (value_nested_ind x) (all rest)
            end) elems)
  | VObj a props =>
      Hobj a props
        ((fix all (l : list (string * value)) : Forall (fun kv => P (snd kv)) l :=
            match l with
            | [] => List.Forall_nil _
            | kv :: rest =>
                List.Forall_cons (fun kv => P (snd kv)) kv rest
                  (value_nested_ind (snd kv)) (all rest)
            end) props)
  end.
End value_induction.

Lemma strict_eq_refl (v : value) : strict_eq v v = true.
Proof.
  destruct v; simpl; auto using Bool.eqb_reflx, Z.eqb_refl, String.eqb_refl,
    Nat.eqb_refl.
Qed.

(** On strings, [===] is equality of the texts. *)
Lemma strict_eq_string (v : value) (s : string) :
  strict_eq v (VStr s) = true ↔ v = VStr s.
Proof.
  destruct v; simpl; try (split; [discriminate | intros [=]]).
  rewrite String.eqb_eq. split; congruence.
Qed.

Lemma nonempty_true (s : string) : nonempty s = true ↔ s ≠ "".
Proof.
  unfold nonempty. rewrite negb_true_iff.
  destruct (String.eqb_spec s ""); split; congruence.
Qed.

(** [trim_start] stops at a character that is not white space. *)
Lemma trim_start_head (s : string) :
  trim_start s = "" ∨
  ∃ c rest, trim_start s = String c rest ∧ is_white_space c = false.
Proof.
  induction s as [|c s IH]; simpl; [by left|].
  destruct (is_white_space c) eqn:Hc; [exact IH|].
  right. by exists c, s.
Qed.

Lemma trim_end_head (c : ascii) (s : string) :
  is_white_space c = false → ∃ rest, trim_end (String c s) = String c rest.
Proof.
  intros Hc. simpl. destruct (trim_end s); rewrite ?Hc; eauto.
Qed.

Lemma trim_end_idempotent (s : string) : trim_end (trim_end s) = trim_end s.
Proof.
  induction s as [|c s IH]; simpl; [reflexivity|].
  destruct (trim_end s) as [|c' kept] eqn:Hk.
  - destruct (is_white_space c) eqn:Hc; simpl; [reflexivity|].
    by rewrite Hc.
  - change (trim_end (String c (String c' kept)))
      with (match trim_end (String c' kept) with
            | EmptyString =>
                if is_white_space c then EmptyString else String c EmptyString
            | k => String c k
            end).
    by rewrite IH.
Qed.

Lemma trim_idempotent (s : string) : trim (trim s) = trim s.
Proof.
  unfold trim.
  destruct (trim_start_head s) as [Hs | (c & rest & Hs & Hc)]; rewrite Hs.
  - reflexivity.
  - destruct (trim_end_head c rest Hc) as [kept Hk]. rewrite Hk.
    simpl trim_start. rewrite Hc. rewrite <- Hk. apply trim_end_idempotent.
Qed.

(** ** Lists *)

Lemma list_filter_sublist {A} (p : A → bool) (l : list A) :
  sublist (List.filter p l) l.
Proof.
  induction l as [|x l IH]; simpl; [constructor|].
  destruct (p x); by constructor.
Qed.

Lemma Forall_list_filter {A} (P : A → Prop) (p : A → bool) (l : list A) :
  Forall P l → Forall P (List.filter p l).
Proof.
  induction 1 as [|x l Hx _ IH]; simpl; [constructor|].
  destruct (p x); [by constructor | exact IH].
Qed.

Lemma list_filter_id {A} (p : A → bool) (l : list A) :
  (∀ x, x ∈ l → p x = true) → List.filter p l = l.
Proof.
  intros Hall. apply forallb_filter_id, forallb_forall.
  intros x Hx. apply Hall. by apply list_elem_of_In.
Qed.

Lemma list_filter_elem_of {A} (p : A → bool) (l : list A) (x : A) :
  x ∈ List.filter p l ↔ x ∈ l ∧ p x = true.
Proof. rewrite !list_elem_of_In. apply filter_In. Qed.

Lemma alter_as_insert {A} (f : A → A) (l : list A) (k : nat) (x : A) :
  l !! k = Some x → alter f k l = <[k := f x]> l.
Proof.
  intros Hk. rewrite list_insert_alter.
  apply list_alter_ext; [|reflexivity]. intros y Hy. congruence.
Qed.

Lemma own_prop_lacks (k : string) (props : list (string * value)) :
  lacks k props → own_prop k props = VUndefined.
Proof.
  unfold lacks. induction props as [|[k' v] rest IH]; simpl; [done|].
  intros Hk. apply not_elem_of_cons in Hk as [Hne Hrest].
  destruct (String.eqb_spec k k'); [done|]. by apply IH.
Qed.

Lemma findIndex_from_spec {A} (p : A → bool) (l : list A) (i : Z) :
  0 ≤ i →
  (findIndex_from p l i = -1 ∧ ∀ x, x ∈ l → p x = false) ∨
  (∃ (k : nat) (x : A),
      findIndex_from p l i = i + Z.of_nat k ∧ l !! k = Some x ∧ p x = true ∧
      ∀ (j : nat) (y : A), (j < k)%nat → l !! j = Some y → p y = false).
Proof.
  revert i. induction l as [|a l IH]; intros i Hi; simpl.
  - left. split; [reflexivity|]. intros x Hx. by apply elem_of_nil in Hx.
  - destruct (p a) eqn:Hpa.
    + right. exists O, a. repeat split; [lia|done|]. intros j y Hj. lia.
    + destruct (IH (i + 1) ltac:(lia)) as [[He Hall] | (k & x & He & Hk & Hx & Hlt)].
      * left. split; [exact He|]. intros x Hx.
        apply elem_of_cons in Hx as [-> | Hx]; auto.
      * right. exists (S k), x. repeat split; [lia|done|done|].
        intros [|j] y Hj Hy; simpl in Hy.
        -- congruence.
        -- apply (Hlt j y); [lia|done].
Qed.

Lemma findIndex_spec {A} (p : A → bool) (l : list A) :
  (findIndex p l = -1 ∧ ∀ x, x ∈ l → p x = false) ∨
  (∃ (k : nat) (x : A),
      findIndex p l = Z.of_nat k ∧ l !! k = Some x ∧ p x = true ∧
      ∀ (j : nat) (y : A), (j < k)%nat → l !! j = Some y → p y = false).
Proof.
  destruct (findIndex_from_spec p l 0 ltac:(lia)) as [? | (k & x & He & ?)];
    [by left|].
  right. exists k, x. by rewrite Z.add_0_l in He.
Qed.

(** ** The helpers as state transformers *)

Section Script_facts.
Context `{Platform}.

Lemma bind_normal {A B} (m : JS A) (k : A → JS B) st a st' :
  m st = (Normal a, st') → bind m k st = k a st'.
Proof. unfold bind. by intros ->. Qed.

Lemma bind_throw {A B} (m : JS A) (k : A → JS B) st e st' :
  m st = (Throw e, st') → bind m k st = (Throw e, st').
Proof. unfold bind. by intros ->. Qed.

(** *** Conversions *)

Lemma and_then_normal {A B} (c : completion A) (k : A → completion B) (b : B) :
  and_then c k = Normal b → ∃ a, c = Normal a ∧ k a = Normal b.
Proof. destruct c as [a|e]; [by exists a | discriminate]. Qed.

Lemma join_error (convert : value → completion string) (l : list value)
    (e : error) :
  Forall (fun x => ∀ e, convert x = Throw e → e = TypeError) l →
  join convert l = Throw e → e = TypeError.
Proof.
  induction 1 as [|x rest Hx _ IH]; simpl; [discriminate|].
  destruct (if nullish x then Normal "" else convert x) as [first|e'] eqn:Hf;
    simpl.
  - destruct rest as [|y rest']; [discriminate|].
    destruct (join convert (y :: rest')) as [others|e'']; simpl;
      [discriminate|].
    intros [= <-]. by apply IH.
  - intros [= <-]. destruct (nullish x); [discriminate|]. by apply Hx.
Qed.

(** A conversion to text fails with a [TypeError] only. *)
Lemma ToString_error (v : value) (e : error) :
  ToString v = Throw e → e = TypeError.
Proof.
  revert e.
  induction v as [| | b | n | s | a elems IH | a props _]
    using value_nested_ind; intros e; simpl; try discriminate.
  - by apply join_error.
  - destruct (has_own "toString" props); [by intros [= <-] | discriminate].
Qed.

Lemma textContent_of_error (v : value) (e : error) :
  textContent_of v = Throw e → e = TypeError.
Proof.
  unfold textContent_of. destruct (nullish v); [discriminate|].
  apply ToString_error.
Qed.

Lemma createTodoElement_error (t : Todo) (e : error) :
  createTodoElement t = Throw e → e = TypeError.
Proof.
  unfold createTodoElement.
  destruct (ToString (id t)) as [d|e1] eqn:Hd; simpl;
    [|intros [= <-]; by eapply ToString_error].
  destruct (textContent_of (title t)) as [ti|e2] eqn:Hti; simpl;
    [|intros [= <-]; by eapply textContent_of_error].
  destruct (textContent_of (description t)) as [de|e3] eqn:Hde; simpl;
    [discriminate | intros [= <-]; by eapply textContent_of_error].
Qed.

(** A task whose [id], [title] and [description] are strings has an item. *)
Lemma createTodoElement_strings (t : Todo) :
  typeof_string (id t) = true → typeof_string (title t) = true →
  typeof_string (description t) = true →
  ∃ li, createTodoElement t = Normal li.
Proof.
  destruct t as [i ti d c ca]; simpl.
  destruct i; try discriminate. destruct ti; try discriminate.
  destruct d; try discriminate. intros _ _ _. by eexists.
Qed.

Lemma displayable_true (t : Todo) :
  displayable t = true ↔ ∃ li, createTodoElement t = Normal li.
Proof.
  unfold displayable. destruct (createTodoElement t) as [li|e].
  - split; [by exists li | done].
  - split; [discriminate | by intros [li ?]].
Qed.

Lemma displayable_task_record (t : Todo) : task_record t → displayable t = true.
Proof.
  intros (Hi & Ht & Hd & _). apply displayable_true.
  by apply createTodoElement_strings.
Qed.

Lemma displayable_iff (t : Todo) :
  displayable t = true ↔
  (∃ a, ToString (id t) = Normal a) ∧
  (∃ b, textContent_of (title t) = Normal b) ∧
  (∃ c, textContent_of (description t) = Normal c).
Proof.
  unfold displayable, createTodoElement.
  destruct (ToString (id t)) as [a|e1]; simpl;
    [|split; [discriminate | by intros [[a ?] _]]].
  destruct (textContent_of (title t)) as [b|e2]; simpl;
    [|split; [discriminate | by intros (_ & [b ?] & _)]].
  destruct (textContent_of (description t)) as [c|e3]; simpl;
    [|split; [discriminate | by intros (_ & _ & [c ?])]].
  split; [intros _; repeat split; by eexists | done].
Qed.

Lemma displayable_toggled (t : Todo) : displayable (toggled t) = displayable t.
Proof.
  unfold displayable, createTodoElement, toggled. simpl.
  destruct (ToString (id t)); simpl; [|done].
  destruct (textContent_of (title t)); simpl; [|done].
  by destruct (textContent_of (description t)).
Qed.

Lemma displayable_merged (updates : value) (t : Todo) :
  displayable t = true → displayable (merged updates t) = true.
Proof.
  rewrite !displayable_iff. intros (Ha & Hb & Hc).
  unfold merged. repeat case_match; simpl; repeat split; eauto.
Qed.

Lemma forallb_displayable_filtered (f : string) (tasks : list Todo) :
  Forall (fun t => displayable t = true) tasks →
  forallb displayable (filtered f tasks) = true.
Proof.
  intros Hall. apply forallb_forall. intros t Ht.
  apply filter_In in Ht as [Ht _].
  rewrite Forall_forall in Hall. apply Hall. by apply list_elem_of_In.
Qed.

(** When every task has an item, [elements] are these items, one per task. *)
Lemma elements_all (tasks : list Todo) :
  forallb displayable tasks = true →
  Forall2 (fun t li => createTodoElement t = Normal li) tasks (elements tasks).
Proof.
  induction tasks as [|t rest IH]; simpl; [constructor|].
  unfold displayable at 1.
  destruct (createTodoElement t) as [li|e] eqn:Ht; [|discriminate].
  intros Hall. by constructor; [|apply IH].
Qed.

(** *** [renderTodos] *)

Lemma set_listEl_same st : set_listEl (listEl st) st = st.
Proof. by destruct st. Qed.

Lemma forEach_appendChild (tasks : list Todo) st :
  forEach (fun todo =>
             let! el := lift (createTodoElement todo) in appendChild el)%js
    tasks st =
  (if forallb displayable tasks then Normal tt else Throw TypeError,
   set_listEl (listEl st ++ elements tasks) st).
Proof.
  revert st. induction tasks as [|t rest IH]; intros st.
  - simpl. unfold ret. by rewrite app_nil_r, set_listEl_same.
  - cbn [forEach forallb elements]. unfold displayable at 1.
    destruct (createTodoElement t) as [li|e] eqn:Ht.
    + erewrite bind_normal by (erewrite bind_normal by reflexivity; reflexivity).
      rewrite IH. cbn [andb]. simpl listEl. by rewrite <- app_assoc.
    + apply createTodoElement_error in Ht as Hte. subst e.
      erewrite bind_throw by (by apply bind_throw).
      cbn [andb]. by rewrite app_nil_r, set_listEl_same.
Qed.

Lemma renderTodos_eq st : renderTodos st = render_result st.
Proof.
  unfold renderTodos, render_result.
  erewrite bind_normal by reflexivity.
  erewrite bind_normal by reflexivity.
  erewrite bind_normal by reflexivity.
  unfold bind at 1. rewrite forEach_appendChild. simpl.
  by destruct (forallb displayable _).
Qed.

Lemma renderTodos_returns st :
  forallb displayable (filtered (currentFilter st) (todos st)) = true →
  renderTodos st = (Normal tt, rendered st).
Proof. intros Hall. by rewrite renderTodos_eq; unfold render_result; rewrite Hall. Qed.

Lemma renderTodos_completion st :
  fst (renderTodos st) = Normal tt ∨ fst (renderTodos st) = Throw TypeError.
Proof.
  rewrite renderTodos_eq. unfold render_result.
  destruct (forallb displayable _); [by left | by right].
Qed.

Lemma todos_renderTodos st : todos (snd (renderTodos st)) = todos st.
Proof.
  rewrite renderTodos_eq. unfold render_result. by destruct (forallb displayable _).
Qed.

Lemma currentFilter_renderTodos st :
  currentFilter (snd (renderTodos st)) = currentFilter st.
Proof.
  rewrite renderTodos_eq. unfold render_result. by destruct (forallb displayable _).
Qed.

Lemma listEl_renderTodos st :
  listEl (snd (renderTodos st)) =
  elements (filtered (currentFilter st) (todos st)).
Proof.
  rewrite renderTodos_eq. unfold render_result. by destruct (forallb displayable _).
Qed.

Lemma localStorage_renderTodos st :
  localStorage (snd (renderTodos st)) = localStorage st.
Proof.
  rewrite renderTodos_eq. unfold render_result. by destruct (forallb displayable _).
Qed.

Lemma console_error_renderTodos st :
  console_error (snd (renderTodos st)) = console_error st.
Proof.
  rewrite renderTodos_eq. unfold render_result. by destruct (forallb displayable _).
Qed.

Lemma accent_renderTodos st :
  accent_color (snd (renderTodos st)) = accent_color st ∧
  accentPicker_value (snd (renderTodos st)) = accentPicker_value st.
Proof.
  rewrite renderTodos_eq. unfold render_result. by destruct (forallb displayable _).
Qed.

(** A rebuild that returns leaves the page in step. *)
Lemma page_in_step_renderTodos st :
  fst (renderTodos st) = Normal tt → page_in_step (snd (renderTodos st)).
Proof.
  rewrite renderTodos_eq. unfold render_result, page_in_step.
  destruct (forallb displayable _) eqn:Hall; [|discriminate].
  intros _. simpl. by apply elements_all.
Qed.

(** *** [saveTodos] *)

Lemma saveTodos_eq st : saveTodos st = (Normal tt, saved st).
Proof.
  unfold saveTodos, saved, serialized, try_catch, bind, gets,
    localStorage_setItem, console_error_call, modify.
  by destruct (storage_accepts _).
Qed.

Lemma todos_saved st : todos (saved st) = todos st.
Proof. unfold saved. by destruct (storage_accepts _). Qed.

Lemma listEl_saved st : listEl (saved st) = listEl st.
Proof. unfold saved. by destruct (storage_accepts _). Qed.

Lemma currentFilter_saved st : currentFilter (saved st) = currentFilter st.
Proof. unfold saved. by destruct (storage_accepts _). Qed.

(** *** [deleteTodo] *)

Lemma deleteTodo_eq id0 st : deleteTodo id0 st = delete_result id0 st.
Proof.
  unfold deleteTodo, delete_result.
  destruct (ToString id0) as [text|e] eqn:Ht; [|by apply bind_throw].
  erewrite bind_normal by reflexivity.
  erewrite bind_normal by reflexivity.
  destruct (querySelector_data_id text (listEl st)) as [found|e] eqn:Hq;
    [|by apply bind_throw].
  erewrite bind_normal by reflexivity.
  unfold deleted, marked_removing.
  destruct found; unfold bind, remove_id, modify; simpl; by rewrite saveTodos_eq.
Qed.

(** [deleteTodo] either runs to its end, or throws with nothing changed. *)
Lemma deleteTodo_cases id0 st :
  (∃ found, deleteTodo id0 st = (Normal tt, deleted id0 found st)) ∨
  (∃ e, deleteTodo id0 st = (Throw e, st)).
Proof.
  rewrite deleteTodo_eq. unfold delete_result.
  destruct (ToString id0) as [text|e]; [|right; by exists e].
  destruct (querySelector_data_id text (listEl st)) as [found|e];
    [left; by exists found | right; by exists e].
Qed.

Lemma todos_deleted id0 found st :
  todos (deleted id0 found st) = without_id id0 (todos st).
Proof.
  unfold deleted. rewrite todos_saved. simpl. by destruct found.
Qed.

Lemma currentFilter_deleted id0 found st :
  currentFilter (deleted id0 found st) = currentFilter st.
Proof.
  unfold deleted. rewrite currentFilter_saved. simpl. by destruct found.
Qed.

(** On a text that makes the selector malformed, [deleteTodo] throws. *)
Lemma css_plain_not_malformed (text : string) :
  css_plain text = true → selector_malformed text = false.
Proof.
  unfold css_plain. induction text as [|c rest IH]; [done|].
  simpl. unfold css_plain_char at 1. intros Hp.
  apply andb_true_iff in Hp as [Hc Hrest]. apply negb_true_iff in Hc.
  repeat (apply orb_false_iff in Hc as [Hc ?]).
  repeat match goal with
         | Heq : (_ =? _)%nat = false |- _ => rewrite Heq; clear Heq
         end.
  simpl. by apply IH.
Qed.

Lemma deleteTodo_malformed id0 st text :
  ToString id0 = Normal text → selector_malformed text = true →
  deleteTodo id0 st = (Throw DOMSyntaxError, st).
Proof.
  intros Ht Hm. rewrite deleteTodo_eq. unfold delete_result.
  rewrite Ht. unfold querySelector_data_id.
  destruct (css_plain text) eqn:Hp; [|by rewrite Hm].
  apply css_plain_not_malformed in Hp. congruence.
Qed.

(** On a plain text the selector is well formed. *)
Lemma deleteTodo_selectable id0 st text :
  ToString id0 = Normal text → css_plain text = true →
  deleteTodo id0 st =
  (Normal tt, deleted id0 (first_with_data_id text (listEl st)) st).
Proof.
  intros Ht Hp. rewrite deleteTodo_eq. unfold delete_result.
  rewrite Ht. unfold querySelector_data_id. by rewrite Hp.
Qed.

(** *** [updateTodo] and [toggleComplete] *)

Lemma get_prop_field (o : value) (k : string) :
  nullish o = false → get_prop o k = Normal (field o k).
Proof. by destruct o. Qed.

Lemma get_prop_nullish (o : value) (k : string) :
  nullish o = true → get_prop o k = Throw TypeError.
Proof. by destruct o. Qed.

Lemma set_todos_same st : set_todos (todos st) st = st.
Proof. by destruct st. Qed.

Lemma merge_string_eq updates k i setter st :
  nullish updates = false →
  merge_string updates k i setter st =
  (Normal tt,
   set_todos
     (alter (fun t => match field updates k with
                      | VStr s => setter (VStr (trim s)) t
                      | _ => t
                      end) i (todos st)) st).
Proof.
  intros Hu. unfold merge_string, bind, lift.
  rewrite (get_prop_field _ _ Hu).
  destruct (field updates k); unfold assign, modify, ret;
    rewrite ?list_alter_id by done; by rewrite ?set_todos_same.
Qed.

Lemma updateTodo_absent id0 updates st :
  findIndex (fun t => strict_eq (id t) id0) (todos st) = -1 →
  updateTodo id0 updates st = (Normal tt, st).
Proof.
  intros Hi. unfold updateTodo, bind, gets. by rewrite Hi.
Qed.

(** With a task of the id, [updateTodo] merges, saves and rebuilds. *)
Lemma updateTodo_found id0 updates st (k : nat) :
  findIndex (fun t => strict_eq (id t) id0) (todos st) = Z.of_nat k →
  nullish updates = false →
  updateTodo id0 updates st =
  renderTodos (saved (set_todos (alter (merged updates) k (todos st)) st)).
Proof.
  intros Hi Hu. unfold updateTodo.
  rewrite (bind_normal _ _ st (todos st) st) by reflexivity.
  rewrite Hi. replace (Z.of_nat k =? -1) with false by (symmetry; lia).
  rewrite Nat2Z.id.
  erewrite bind_normal by (by apply merge_string_eq).
  erewrite bind_normal by (by apply merge_string_eq).
  unfold bind at 1. unfold lift. rewrite (get_prop_field _ _ Hu).
  assert (∀ st0,
    match field updates "completed" with
    | VBool b => assign k (set_completed (VBool b))
    | _ => ret tt
    end st0 =
    (Normal tt,
     set_todos (alter (fun t => match field updates "completed" with
                                | VBool b => set_completed (VBool b) t
                                | _ => t
                                end) k (todos st0)) st0)) as Hc.
  { intros st0. destruct (field updates "completed");
      unfold assign, modify, ret;
      rewrite ?list_alter_id by done; by rewrite ?set_todos_same. }
  rewrite Hc. simpl todos. rewrite !list_alter_alter_eq.
  erewrite bind_normal by apply saveTodos_eq.
  reflexivity.
Qed.

Lemma updateTodo_throws id0 updates st (k : nat) :
  findIndex (fun t => strict_eq (id t) id0) (todos st) = Z.of_nat k →
  nullish updates = true →
  updateTodo id0 updates st = (Throw TypeError, st).
Proof.
  intros Hi Hu. unfold updateTodo.
  rewrite (bind_normal _ _ st (todos st) st) by reflexivity.
  rewrite Hi. replace (Z.of_nat k =? -1) with false by (symmetry; lia).
  unfold merge_string, bind, lift. by rewrite (get_prop_nullish _ _ Hu).
Qed.

Lemma toggleComplete_absent id0 st :
  find_slot (fun t => strict_eq (id t) id0) (todos st) = None →
  toggleComplete id0 st = (Normal tt, st).
Proof. intros Hf. unfold toggleComplete, bind, gets. by rewrite Hf. Qed.

Lemma toggleComplete_found id0 st (k : nat) :
  find_slot (fun t => strict_eq (id t) id0) (todos st) = Some k →
  toggleComplete id0 st =
  renderTodos (saved (set_todos (alter toggled k (todos st)) st)).
Proof.
  intros Hf. unfold toggleComplete, bind, gets. rewrite Hf.
  unfold assign, modify. by rewrite saveTodos_eq.
Qed.

(** The collection and the filter after a save and a rebuild. *)
Lemma todos_rebuilt (l : list Todo) st :
  todos (snd (renderTodos (saved (set_todos l st)))) = l.
Proof. by rewrite todos_renderTodos, todos_saved. Qed.

Lemma currentFilter_rebuilt (l : list Todo) st :
  currentFilter (snd (renderTodos (saved (set_todos l st)))) = currentFilter st.
Proof. by rewrite currentFilter_renderTodos, currentFilter_saved. Qed.

Lemma listEl_rebuilt (l : list Todo) st :
  listEl (snd (renderTodos (saved (set_todos l st)))) =
  elements (filtered (currentFilter st) l).
Proof. by rewrite listEl_renderTodos, todos_saved, currentFilter_saved. Qed.

(** The rebuild at the end of a handler keeps the collection, and is not
    reached when the handler has thrown before. *)
Lemma todos_then_rebuild (m : JS unit) st :
  todos (snd ((m;; renderTodos)%js st)) = todos (snd (m st)).
Proof.
  unfold bind. destruct (m st) as [[a|e] st1]; [|done].
  apply todos_renderTodos.
Qed.

Lemma page_then_rebuild (m : JS unit) st :
  fst ((m;; renderTodos)%js st) = Normal tt →
  page_in_step (snd ((m;; renderTodos)%js st)).
Proof.
  unfold bind. destruct (m st) as [[[]|e] st1];
    [apply page_in_step_renderTodos | discriminate].
Qed.

Lemma todos_commit todo tv dv st :
  todos (snd (commit todo tv dv st)) =
  todos (snd ((if nonempty (trim tv)
               then updateTodo (id todo)
                      (VObj 0 [("title", VStr (trim tv));
                               ("description", VStr (trim dv))])
               else deleteTodo (id todo)) st)).
Proof. unfold commit, exitEditMode. apply todos_then_rebuild. Qed.

(** *** [generateUUID] and [addTodo] *)

Lemma set_random_same st : set_random (random_calls st) st = st.
Proof. by destruct st. Qed.

Lemma uuid_digit_eq c st :
  ∃ piece, uuid_digit c st = (Normal piece, set_random (S (random_calls st)) st).
Proof. eexists. reflexivity. Qed.

Lemma replace_018_total (s : string) st :
  ∃ out n, replace_018 s st = (Normal out, set_random n st).
Proof.
  revert st. induction s as [|ch s IH]; intros st; simpl.
  - exists "", (random_calls st). unfold ret. by rewrite set_random_same.
  - assert (∃ piece m,
      (if Ascii.eqb ch "0" then uuid_digit 0
       else if Ascii.eqb ch "1" then uuid_digit 1
       else if Ascii.eqb ch "8" then uuid_digit 8
       else ret (String ch EmptyString)) st
      = (Normal piece, set_random m st)) as (piece & m & Hp).
    { destruct (Ascii.eqb ch "0");
        [destruct (uuid_digit_eq 0 st) as [p Hp]; eauto|].
      destruct (Ascii.eqb ch "1");
        [destruct (uuid_digit_eq 1 st) as [p Hp]; eauto|].
      destruct (Ascii.eqb ch "8");
        [destruct (uuid_digit_eq 8 st) as [p Hp]; eauto|].
      exists (String ch EmptyString), (random_calls st).
      unfold ret. by rewrite set_random_same. }
    erewrite bind_normal by exact Hp.
    destruct (IH (set_random m st)) as (out & n & Hout).
    erewrite bind_normal by exact Hout.
    exists (String.append piece out), n. reflexivity.
Qed.

Lemma generateUUID_total st :
  ∃ uuid n, generateUUID st = (Normal uuid, set_random n st).
Proof. apply replace_018_total. Qed.

(** [addTodo] never fails: it draws an identifier, reads the clock once,
    pushes the record, saves, and appends one item to the page. *)
Lemma addTodo_eq title0 description0 st :
  ∃ uuid n,
    let newTodo :=
      created uuid title0 (default "" description0) (Date_now_calls st) in
    let pushed :=
      saved (set_todos (todos st ++ [newTodo]) (tick_clock (set_random n st))) in
    addTodo title0 description0 st =
    (Normal tt,
     set_listEl
       (listEl pushed ++
        [created_item uuid title0 (default "" description0) (Date_now_calls st)])
       pushed).
Proof.
  destruct (generateUUID_total st) as (uuid & n & Hu).
  exists uuid, n. unfold addTodo.
  erewrite bind_normal by exact Hu.
  erewrite bind_normal by reflexivity.
  erewrite bind_normal by reflexivity.
  erewrite bind_normal by apply saveTodos_eq.
  reflexivity.
Qed.

(** *** Deserialization *)

Lemma with_default_defined (v : value) (d : JS value) st :
  v ≠ VUndefined → with_default v d st = (Normal v, st).
Proof. by destruct v. Qed.

Lemma nullish_coalesce_defined (v d : value) :
  nullish d = false → nullish (nullish_coalesce v d) = false.
Proof. unfold nullish_coalesce. by destruct (nullish v) eqn:Hv. Qed.

Lemma not_nullish_defined (v : value) : nullish v = false → v ≠ VUndefined.
Proof. by destruct v. Qed.

Lemma Todo_fromObject_nullish obj st :
  nullish obj = true → Todo_fromObject obj st = (Throw TypeError, st).
Proof.
  intros Ho. unfold Todo_fromObject, bind, lift.
  by rewrite (get_prop_nullish _ _ Ho).
Qed.

Lemma Todo_fromObject_eq obj st :
  nullish obj = false →
  Todo_fromObject obj st =
  (Normal (repaired (Date_now_calls st) obj),
   if reads_clock obj then tick_clock st else st).
Proof.
  intros Ho. unfold Todo_fromObject, repaired, reads_clock.
  repeat (erewrite bind_normal
            by (unfold lift; by rewrite (get_prop_field _ _ Ho))).
  set (d := nullish_coalesce (field obj "description") (VStr "")).
  set (c := nullish_coalesce (field obj "completed") (VBool false)).
  assert (d ≠ VUndefined) as Hd
    by (by apply not_nullish_defined, nullish_coalesce_defined).
  assert (c ≠ VUndefined) as Hc
    by (by apply not_nullish_defined, nullish_coalesce_defined).
  destruct (nullish (field obj "createdAt")) eqn:Hn.
  - erewrite bind_normal by reflexivity.
    unfold Todo_constructor.
    repeat (erewrite bind_normal by reflexivity).
    simpl own_prop.
    erewrite bind_normal by (by apply with_default_defined).
    erewrite bind_normal by reflexivity.
    erewrite bind_normal by (by apply with_default_defined).
    erewrite bind_normal by reflexivity.
    erewrite bind_normal by reflexivity.
    reflexivity.
  - erewrite bind_normal by reflexivity.
    unfold Todo_constructor.
    repeat (erewrite bind_normal by reflexivity).
    simpl own_prop.
    erewrite bind_normal by (by apply with_default_defined).
    erewrite bind_normal by reflexivity.
    erewrite bind_normal by (by apply with_default_defined).
    erewrite bind_normal by reflexivity.
    erewrite bind_normal
      by (by apply with_default_defined, not_nullish_defined).
    reflexivity.
Qed.

Lemma set_clock_same st : set_clock (Date_now_calls st) st = st.
Proof. by destruct st. Qed.

Lemma mapM_fromObject_ok elems st :
  forallb (fun o => negb (nullish o)) elems = true →
  mapM Todo_fromObject elems st =
  (Normal (fst (load_records (Date_now_calls st) elems)),
   set_clock (snd (load_records (Date_now_calls st) elems)) st).
Proof.
  revert st. induction elems as [|obj rest IH]; intros st Hall; simpl.
  - unfold ret. by rewrite set_clock_same.
  - simpl in Hall. apply andb_true_iff in Hall as [Ho Hrest].
    apply negb_true_iff in Ho.
    erewrite bind_normal by (by apply Todo_fromObject_eq).
    erewrite bind_normal by (by apply IH).
    destruct (reads_clock obj); simpl;
      destruct (load_records _ rest) as [ts m]; reflexivity.
Qed.

Lemma mapM_fromObject_throws elems st :
  forallb (fun o => negb (nullish o)) elems = false →
  ∃ n, mapM Todo_fromObject elems st = (Throw TypeError, set_clock n st).
Proof.
  revert st. induction elems as [|obj rest IH]; intros st Hall; simpl in *.
  - discriminate.
  - destruct (nullish obj) eqn:Ho; simpl in Hall.
    + exists (Date_now_calls st).
      erewrite bind_throw by (by apply Todo_fromObject_nullish).
      by rewrite set_clock_same.
    + erewrite bind_normal by (by apply Todo_fromObject_eq).
      destruct (IH (if reads_clock obj then tick_clock st else st) Hall)
        as [n Hn].
      erewrite bind_throw by exact Hn.
      exists n. by destruct (reads_clock obj).
Qed.

Lemma JSON_parse_call_eq text v st :
  JSON_parse text = Some v →
  JSON_parse_call text st =
  (Normal (parsed st v),
   set_next_address (snd (allocate (next_address st) v)) st).
Proof.
  intros Hp. unfold JSON_parse_call, parsed. rewrite Hp.
  by destruct (allocate (next_address st) v).
Qed.

(** What the start of [loadTodos] keeps of the state. *)
Lemma accent_restored_keeps st :
  todos (accent_restored st) = todos st ∧
  currentFilter (accent_restored st) = currentFilter st ∧
  listEl (accent_restored st) = listEl st ∧
  localStorage (accent_restored st) = localStorage st ∧
  console_error (accent_restored st) = console_error st ∧
  Date_now_calls (accent_restored st) = Date_now_calls st ∧
  next_address (accent_restored st) = next_address st.
Proof.
  unfold accent_restored. destruct (localStorage st !! _) as [c|]; [|done].
  by destruct (nonempty c).
Qed.

(** [loadTodos] is a rebuild of the page in a state that holds the loaded
    collection and the restored colour; the storage is only read, and the
    console gets a line exactly when the stored text is not a list of
    objects. *)
Lemma loadTodos_eq st :
  ∃ st', loadTodos st = renderTodos st' ∧
         todos st' = load_outcome st ∧
         currentFilter st' = currentFilter st ∧
         localStorage st' = localStorage st ∧
         accent_color st' = accent_color (accent_restored st) ∧
         accentPicker_value st' = accentPicker_value (accent_restored st) ∧
         (console_error st' = console_error st ∨
          console_error st' =
            console_error st ++ ["Failed to parse todos from localStorage"]).
Proof.
  unfold loadTodos, load_outcome.
  rewrite (bind_normal _ _ st (localStorage st !! "todoAccentColor") st)
    by reflexivity.
  assert (match localStorage st !! "todoAccentColor" with
          | Some c => when (nonempty c) (restore_accent c)
          | None => ret tt
          end st = (Normal tt, accent_restored st)) as Ha.
  { unfold accent_restored, when.
    destruct (localStorage st !! _) as [c|]; [|done]. by destruct (nonempty c). }
  erewrite bind_normal by exact Ha.
  erewrite bind_normal by reflexivity.
  destruct (accent_restored_keeps st) as (Ht & Hf & _ & Hl & Hce & Hc & Hn).
  rewrite Hl.
  assert (∀ v, parsed (accent_restored st) v = parsed st v) as Hparsed
    by (intros v; unfold parsed; by rewrite Hn).
  set (st1 := accent_restored st) in *.
  destruct (localStorage st !! "colorfulTodo") as [text|].
  2: { exists st1. rewrite bind_normal with (a := tt) (st' := st1) by done.
       repeat split; try done. by left. }
  unfold when. destruct (nonempty text).
  2: { exists st1. rewrite bind_normal with (a := tt) (st' := st1) by done.
       repeat split; try done. by left. }
  destruct (JSON_parse text) as [v|] eqn:Hv.
  2: { set (failed := set_todos []
                        (log_error "Failed to parse todos from localStorage" st1)).
       exists failed.
       rewrite bind_normal with (a := tt) (st' := failed).
       - repeat split; try done. right. simpl. by rewrite Hce.
       - unfold try_catch, JSON_parse_call. rewrite Hv. reflexivity. }
  set (st2 := set_next_address (snd (allocate (next_address st1) v)) st1).
  set (failed := set_todos []
                   (log_error "Failed to parse todos from localStorage" st2)).
  pose proof (JSON_parse_call_eq text v st1 Hv) as Hcall. fold st2 in Hcall.
  rewrite <- Hparsed.
  destruct (parsed st1 v) as [| | b | n | s | a elems | a props] eqn:Hpv;
    try (exists failed;
         rewrite bind_normal with (a := tt) (st' := failed);
         [repeat split; try done; right; simpl; by rewrite Hce
         |unfold try_catch; erewrite bind_normal by exact Hcall;
          reflexivity]).
  destruct (forallb (fun o => negb (nullish o)) elems) eqn:Hall.
  - pose proof (mapM_fromObject_ok elems st2 Hall) as Hm.
    change (Date_now_calls st2) with (Date_now_calls st1) in Hm.
    rewrite Hc in Hm.
    eexists. split.
    { erewrite bind_normal; [reflexivity|].
      unfold try_catch. erewrite bind_normal by exact Hcall.
      unfold array_map. erewrite bind_normal by exact Hm. reflexivity. }
    simpl. repeat split; try done. by left.
  - destruct (mapM_fromObject_throws elems st2 Hall) as [n Hm].
    eexists. split.
    { erewrite bind_normal; [reflexivity|].
      unfold try_catch. erewrite bind_normal by exact Hcall.
      unfold array_map. erewrite bind_throw by exact Hm. reflexivity. }
    simpl. repeat split; try done. right. by rewrite Hce.
Qed.






(** The cells [JSON.parse] makes for printed task records hold the
    properties of the records. *)
Lemma allocate_each_records (ts : list Todo) (a : nat) :
  Forall task_record ts →
  ∃ elems a',
    allocate_each allocate (map Todo_props ts) a = (elems, a') ∧
    Forall2 (fun t o => field o = field (Todo_props t) ∧ nullish o = false)
      ts elems.
Proof.
  intros Hrec. revert a. induction Hrec as [|t ts Ht _ IH]; intros a.
  - by exists [], a.
  - destruct Ht as (Hi & Hti & Hd & Hc & m & Hm).
    destruct t as [i ti d c ca]; simpl in *. subst ca.
    destruct i; try discriminate. destruct ti; try discriminate.
    destruct d; try discriminate. destruct c; try discriminate.
    simpl. destruct (IH (S a)) as (elems & a' & -> & Hall).
    eexists _, _. split; [reflexivity|]. by constructor.
Qed.

(** Deserializing such cells gives the records back, without reading the
    clock. *)
Lemma load_records_props (ts : list Todo) (elems : list value) (n : nat) :
  Forall task_record ts →
  Forall2 (fun t o => field o = field (Todo_props t) ∧ nullish o = false)
    ts elems →
  load_records n elems = (ts, n) ∧
  forallb (fun o => negb (nullish o)) elems = true.
Proof.
  intros Hrec Hall. induction Hall as [|t o ts elems [Hf Ho] _ IH]; [done|].
  apply Forall_cons in Hrec as [Ht Hrec]. destruct (IH Hrec) as [IH1 IH2].
  destruct Ht as (_ & _ & Hd & Hc & m & Hm).
  simpl. rewrite Ho, IH2. split; [|done].
  unfold reads_clock, repaired. rewrite !Hf. simpl. rewrite Hm. simpl.
  rewrite IH1. f_equal. f_equal.
  unfold nullish_coalesce.
  destruct t as [i ti d c ca]; simpl in *.
  subst ca. destruct d; try discriminate. by destruct c.
Qed.

(** Loading a storage that holds the printed form of task records. *)
Lemma load_outcome_stored (ts : list Todo) st0 :
  localStorage st0 !! "colorfulTodo" = Some (serialized ts) →
  Forall task_record ts →
  lossless (VArr 0 (map Todo_props ts)) →
  load_outcome st0 = ts.
Proof.
  intros Hst Hrec [Hne Hparse].
  unfold load_outcome. rewrite Hst.
  apply nonempty_true in Hne. unfold serialized. rewrite Hne, Hparse.
  unfold parsed. simpl.
  destruct (allocate_each_records ts (S (next_address st0)) Hrec)
    as (elems & a' & -> & Hall).
  simpl. destruct (load_records_props ts elems (Date_now_calls st0) Hrec Hall)
    as [-> ->]. reflexivity.
Qed.

(** A rebuild of a collection of task records returns: every field that is
    put on the page is a string. *)
Lemma renderTodos_task_records st :
  Forall task_record (todos st) → renderTodos st = (Normal tt, rendered st).
Proof.
  intros Hrec. apply renderTodos_returns, forallb_forall.
  intros t Ht. apply displayable_task_record.
  apply filter_In in Ht as [Ht _].
  rewrite Forall_forall in Hrec. apply Hrec. by apply list_elem_of_In.
Qed.

(** *** Identities along the operations *)

Lemma identity_merged updates t : identity (merged updates t) = identity t.
Proof. unfold merged. by repeat case_match. Qed.

Lemma identity_toggled t : identity (toggled t) = identity t.
Proof. reflexivity. Qed.

Lemma map_identity_alter (f : Todo → Todo) (k : nat) (ts : list Todo) :
  (∀ t, identity (f t) = identity t) →
  map identity (alter f k ts) = map identity ts.
Proof.
  intros Hf. revert k.
  induction ts as [|t ts IH]; intros [|k]; simpl; [done|done|by rewrite Hf|].
  f_equal. apply IH.
Qed.

Lemma run_op_identity_step (op : Op) st :
  identity_step op (map identity (todos st))
    (map identity (todos (snd (run_op op st)))).
Proof.
  destruct op as [t d | i u | i | i]; simpl.
  - destruct (addTodo_eq t d st) as (uuid & n & ->). simpl.
    rewrite todos_saved. simpl. rewrite map_app. constructor.
  - destruct (findIndex_spec (fun t => strict_eq (id t) i) (todos st))
      as [[Hi _] | (k & t & Hk & _)].
    + rewrite (updateTodo_absent _ _ _ Hi). constructor.
    + destruct (nullish u) eqn:Hu.
      * rewrite (updateTodo_throws _ _ _ k Hk Hu). constructor.
      * rewrite (updateTodo_found _ _ _ k Hk Hu), todos_rebuilt.
        rewrite map_identity_alter by apply identity_merged. constructor.
  - destruct (find_slot (fun t => strict_eq (id t) i) (todos st)) as [k|] eqn:Hf.
    + rewrite (toggleComplete_found _ _ k Hf), todos_rebuilt.
      rewrite map_identity_alter by apply identity_toggled. constructor.
    + rewrite (toggleComplete_absent _ _ Hf). constructor.
  - destruct (deleteTodo_cases i st) as [[found ->] | [e ->]]; simpl.
    + rewrite todos_deleted. unfold without_id.
      rewrite <- (filter_map_swap (fun k => negb (strict_eq (fst k) i)) identity).
      constructor.
    + constructor.
Qed.

Lemma identity_step_sublist op ks ks' :
  is_create op = false → identity_step op ks ks' → sublist ks' ks.
Proof.
  intros Hop Hstep. destruct Hstep; try discriminate; try reflexivity.
  apply list_filter_sublist.
Qed.

Lemma form_submit_eq st :
  form_submit st =
  if nonempty (trim (titleInput_value st))
  then (addTodo (trim (titleInput_value st)) (Some (trim (descInput_value st)));;
        modify (set_form_inputs "" ""))%js st
  else (Normal tt, st).
Proof.
  unfold form_submit.
  rewrite (bind_normal _ _ st (titleInput_value st) st) by reflexivity.
  rewrite (bind_normal _ _ st (descInput_value st) st) by reflexivity.
  by destruct (nonempty (trim (titleInput_value st))).
Qed.
End Script_facts.

(** * The specification, claim by claim *)

Section Claims.
Context `{Platform}.

(** C4.  The visible tasks are derived without touching the collection:
    under ['all'] the view is the collection itself, under ['active'] it is
    the tasks whose [completed] flag is false, under ['completed'] those whose
    flag is true, each time in the order of the collection.  Rendering that
    view leaves [todos] as it was, whether the rebuild returns or throws; a
    rebuild that returns has put one item per visible task on the page, in
    order, and one that throws the items of the visible tasks before the one
    it could not display. *)
Theorem visible_is_an_ordered_selection (st : State) :
  let tasks := todos st in
  filtered "all" tasks = tasks ∧
  filtered "active" tasks =
    List.filter (fun t => negb (truthy (completed t))) tasks ∧
  filtered "completed" tasks =
    List.filter (fun t => truthy (completed t)) tasks ∧
  (∀ f, sublist (filtered f tasks) tasks) ∧
  (∀ t, t ∈ filtered "active" tasks ↔ t ∈ tasks ∧ truthy (completed t) = false) ∧
  (∀ t, t ∈ filtered "completed" tasks ↔ t ∈ tasks ∧ truthy (completed t) = true) ∧
  (∀ t b, completed t = VBool b →
          (t ∈ filtered "active" tasks ↔ t ∈ tasks ∧ b = false) ∧
          (t ∈ filtered "completed" tasks ↔ t ∈ tasks ∧ b = true)) ∧
  todos (snd (renderTodos st)) = tasks ∧
  currentFilter (snd (renderTodos st)) = currentFilter st ∧
  listEl (snd (renderTodos st)) = elements (filtered (currentFilter st) tasks) ∧
  (fst (renderTodos st) = Normal tt →
   Forall2 (fun t li => createTodoElement t = Normal li)
     (filtered (currentFilter st) tasks) (listEl (snd (renderTodos st)))).
Proof.
  intros tasks.
  assert (∀ t, t ∈ filtered "active" tasks ↔
               t ∈ tasks ∧ truthy (completed t) = false) as Hactive.
  { intros t. unfold filtered. rewrite list_filter_elem_of.
    unfold shown. simpl. by rewrite negb_true_iff. }
  assert (∀ t, t ∈ filtered "completed" tasks ↔
               t ∈ tasks ∧ truthy (completed t) = true) as Hcompleted.
  { intros t. unfold filtered. by rewrite list_filter_elem_of. }
  split; [apply filter_true|].
  split; [reflexivity|].
  split; [reflexivity|].
  split; [intros f; apply list_filter_sublist|].
  split; [exact Hactive|].
  split; [exact Hcompleted|].
  split; [intros t b Hb; by rewrite Hactive, Hcompleted, Hb|].
  split; [apply todos_renderTodos|].
  split; [apply currentFilter_renderTodos|].
  split; [apply listEl_renderTodos|].
  intros Hret. pose proof (page_in_step_renderTodos st Hret) as Hpage.
  unfold page_in_step in Hpage.
  by rewrite currentFilter_renderTodos, todos_renderTodos in Hpage.
Qed.

(** C10.  [Todo.fromObject] never fails on a stored object.  It takes [id]
    and [title] as stored; a record that lacks [description] gets [''], one
    that lacks [completed] gets [false], one that lacks [createdAt] gets the
    current reading of the clock; a field that is stored (and not [null]) is
    kept. *)
Theorem fromObject_repairs_missing_fields
    (a : nat) (props : list (string * value)) (st : State) :
  ∃ t st',
    Todo_fromObject (VObj a props) st = (Normal t, st') ∧
    id t = own_prop "id" props ∧
    title t = own_prop "title" props ∧
    (lacks "description" props → description t = VStr "") ∧
    (lacks "completed" props → completed t = VBool false) ∧
    (lacks "createdAt" props →
     createdAt t = VNum (Date_now (Date_now_calls st))) ∧
    (nullish (own_prop "description" props) = false →
     description t = own_prop "description" props) ∧
    (nullish (own_prop "completed" props) = false →
     completed t = own_prop "completed" props) ∧
    (nullish (own_prop "createdAt" props) = false →
     createdAt t = own_prop "createdAt" props).
Proof.
  eexists _, _. split; [by apply Todo_fromObject_eq|].
  simpl. unfold nullish_coalesce.
  repeat split.
  - intros Hl. by rewrite (own_prop_lacks _ _ Hl).
  - intros Hl. by rewrite (own_prop_lacks _ _ Hl).
  - intros Hl. by rewrite (own_prop_lacks _ _ Hl).
  - by intros ->.
  - by intros ->.
  - by intros ->.
Qed.


(** C1, as the script has it.  [updateTodo] on the id of a task, with a
    string title, stores the trimmed title in the first task with that id,
    also when the trimmed title is empty; every task stays in the collection,
    under the id it had.  It then saves and rebuilds the page, and the only
    error it can end in is that of the rebuild. *)
Theorem updateTodo_stores_trimmed_title
    (st : State) (id0 updates : value) (s : string) :
  (∃ t, t ∈ todos st ∧ strict_eq (id t) id0 = true) →
  field updates "title" = VStr s →
  ∃ (k : nat) (t : Todo),
    let st' := snd (updateTodo id0 updates st) in
    todos st !! k = Some t ∧
    strict_eq (id t) id0 = true ∧
    (∀ (j : nat) (y : Todo),
        (j < k)%nat → todos st !! j = Some y → strict_eq (id y) id0 = false) ∧
    updateTodo id0 updates st =
      renderTodos (saved (set_todos (<[k := merged updates t]> (todos st)) st)) ∧
    todos st' = <[k := merged updates t]> (todos st) ∧
    title (merged updates t) = VStr (trim s) ∧
    id (merged updates t) = id t ∧
    length (todos st') = length (todos st) ∧
    map id (todos st') = map id (todos st) ∧
    (fst (updateTodo id0 updates st) = Normal tt ∨
     fst (updateTodo id0 updates st) = Throw TypeError).
Proof.
  intros (t0 & Hin & Hid0) Htitle.
  assert (nullish updates = false) as Hu by (by destruct updates).
  destruct (findIndex_spec (fun t => strict_eq (id t) id0) (todos st))
    as [[_ Hnone] | (k & t & Hk & Ht & Hid & Hfirst)].
  { specialize (Hnone t0 Hin). simpl in Hnone. congruence. }
  assert (id (merged updates t) = id t) as Hsame.
  { unfold merged. by repeat case_match. }
  exists k, t. cbn zeta.
  rewrite (updateTodo_found _ _ _ k Hk Hu), todos_rebuilt.
  rewrite (alter_as_insert _ _ _ _ Ht).
  repeat split; try done.
  - unfold merged. rewrite Htitle. by repeat case_match.
  - apply length_insert.
  - rewrite list_fmap_insert, Hsame. apply list_insert_id.
    by rewrite list_lookup_fmap, Ht.
  - apply renderTodos_completion.
Qed.

(** C2, as the script has it.  The form handler ignores a submission whose
    trimmed title is empty: it returns without calling [addTodo] and without
    raising, and nothing changes, neither the collection, nor the storage,
    nor the page. *)
Theorem form_submit_ignores_blank_title (st : State) :
  trim (titleInput_value st) = "" →
  form_submit st = (Normal tt, st).
Proof.
  intros Hblank. unfold form_submit, bind, gets. by rewrite Hblank.
Qed.

(** The guards of the form handler and of the save handler are what keeps
    empty titles out of the collection: no event of the page stores one. *)
Lemma handlers_keep_titles_nonempty (e : Event) (st : State) :
  titled (todos st) → titled (todos (snd (handle e st))).
Proof.
  intros Hst. destruct e as [tv dv | todo tv dv | | i | i | key]; simpl.
  - erewrite bind_normal by reflexivity. rewrite form_submit_eq. simpl.
    destruct (nonempty (trim tv)) eqn:Hne; [|exact Hst].
    destruct (addTodo_eq (trim tv) (Some (trim dv)) (set_form_inputs tv dv st))
      as (uuid & n & Heq).
    erewrite bind_normal by exact Heq. simpl. rewrite todos_saved. simpl.
    apply Forall_app. split; [exact Hst|].
    repeat constructor. exists (trim (trim tv)). split; [reflexivity|].
    rewrite trim_idempotent. by apply nonempty_true.
  - rewrite todos_commit. destruct (nonempty (trim tv)) eqn:Hne.
    + set (u := VObj 0 [("title", VStr (trim tv));
                        ("description", VStr (trim dv))]).
      destruct (findIndex_spec (fun t => strict_eq (id t) (id todo)) (todos st))
        as [[Hi _] | (k & t & Hk & _)].
      * by rewrite (updateTodo_absent _ _ _ Hi).
      * rewrite (updateTodo_found _ u _ k Hk eq_refl), todos_rebuilt.
        apply Forall_alter; [exact Hst|].
        intros t' _ _. exists (trim (trim tv)). split; [reflexivity|].
        rewrite trim_idempotent. by apply nonempty_true.
    + destruct (deleteTodo_cases (id todo) st) as [[found ->] | [e ->]];
        [|exact Hst].
      simpl. rewrite todos_deleted. by apply Forall_list_filter.
  - unfold cancel, exitEditMode. by rewrite todos_renderTodos.
  - destruct (find_slot (fun t => strict_eq (id t) i) (todos st)) as [k|] eqn:Hf.
    + rewrite (toggleComplete_found _ _ k Hf), todos_rebuilt.
      apply Forall_alter; [exact Hst|]. intros t' _ Ht'. exact Ht'.
    + by rewrite (toggleComplete_absent _ _ Hf).
  - destruct (deleteTodo_cases i st) as [[found ->] | [e ->]]; [|exact Hst].
    simpl. rewrite todos_deleted. by apply Forall_list_filter.
  - unfold filter_click. erewrite bind_normal by reflexivity.
    by rewrite todos_renderTodos.
Qed.

(** After [addTodo] the page has one more item, whatever the filter, while
    the set of shown tasks grows only if the filter shows an open task. *)
Lemma addTodo_appends_item title0 description0 st :
  ∃ st' newTodo li,
    addTodo title0 description0 st = (Normal tt, st') ∧
    todos st' = todos st ++ [newTodo] ∧
    completed newTodo = VBool false ∧
    currentFilter st' = currentFilter st ∧
    createTodoElement newTodo = Normal li ∧
    listEl st' = listEl st ++ [li].
Proof.
  destruct (addTodo_eq title0 description0 st) as (uuid & n & Heq).
  eexists _, _, _. split; [exact Heq|].
  simpl. rewrite todos_saved, listEl_saved, currentFilter_saved.
  repeat split.
Qed.

Lemma addTodo_under_completed_filter title0 description0 st :
  currentFilter st = "completed" →
  page_in_step st →
  ∃ st',
    addTodo title0 description0 st = (Normal tt, st') ∧
    length (listEl st') =
      S (length (filtered (currentFilter st') (todos st'))).
Proof.
  intros Hf Hsync. apply Forall2_length in Hsync.
  destruct (addTodo_appends_item title0 description0 st)
    as (st' & newTodo & li & Heq & Htodos & Hc & Hf' & _ & Hl).
  exists st'. split; [exact Heq|].
  rewrite Hl, Hf', Htodos, length_app, <- Hsync, Hf. unfold filtered.
  rewrite List.filter_app, length_app.
  assert (List.filter (shown "completed") [newTodo] = []) as ->
    by (simpl; unfold shown; simpl; by rewrite Hc).
  simpl. lia.
Qed.

(** Under a filter that shows the new task, the appended item keeps a page
    that matched the shown tasks matching them. *)
Lemma addTodo_keeps_page_in_step title0 description0 st :
  String.eqb (currentFilter st) "completed" = false →
  page_in_step st →
  ∃ st',
    addTodo title0 description0 st = (Normal tt, st') ∧
    page_in_step st'.
Proof.
  intros Hf Hsync.
  destruct (addTodo_appends_item title0 description0 st)
    as (st' & newTodo & li & Heq & Htodos & Hc & Hf' & Hli & Hl).
  exists st'. split; [exact Heq|].
  unfold page_in_step in *. rewrite Hl, Hf', Htodos. unfold filtered.
  rewrite List.filter_app. apply Forall2_app; [exact Hsync|].
  simpl. unfold shown. rewrite Hf, Hc. simpl.
  destruct (String.eqb (currentFilter st) "active"); by repeat constructor.
Qed.

(** C7.  When the storage accepts the write and the codec loses nothing of
    the document, saving a collection of task records and loading it, in the
    same session or in a later one, gives back the same records in the same
    order, field for field. *)
Theorem save_then_load_round_trip (st : State) :
  Forall task_record (todos st) →
  storage_accepts
    (<["colorfulTodo" := serialized (todos st)]> (localStorage st)) = true →
  lossless (VArr 0 (map Todo_props (todos st))) →
  ∃ st1,
    saveTodos st = (Normal tt, st1) ∧
    ∀ st0, localStorage st0 = localStorage st1 →
           ∃ st2, loadTodos st0 = (Normal tt, st2) ∧ todos st2 = todos st.
Proof.
  intros Hrec Hacc Hcodec.
  exists (saved st). split; [apply saveTodos_eq|].
  intros st0 Hst0.
  destruct (loadTodos_eq st0) as (st2 & Hrun & Hout & _).
  assert (todos st2 = todos st) as Hts.
  { rewrite Hout. apply load_outcome_stored; [|done|done].
    rewrite Hst0. unfold saved. rewrite Hacc. apply lookup_insert_eq. }
  exists (rendered st2). split; [|exact Hts].
  rewrite Hrun. apply renderTodos_task_records. by rewrite Hts.
Qed.

(** C8.  Along every sequence of [addTodo], [updateTodo], [toggleComplete]
    and [deleteTodo], whether they return or throw, the sequence of
    (id, createdAt) pairs of the collection changes only by the steps of
    [identity_step]: a pair is added at the end by a creation, the pairs of
    the given id are dropped by a deletion that gets to its end, and no pair
    is ever rewritten.  Without creations, the pairs at the end are a
    subsequence of the pairs at the start. *)
Theorem identities_are_never_rewritten (ops : list Op) (st : State) :
  identity_trace ops
    (map identity (todos st))
    (map identity (todos (run_ops ops st))) ∧
  (forallb (fun op => negb (is_create op)) ops = true →
   sublist (map identity (todos (run_ops ops st))) (map identity (todos st))).
Proof.
  revert st. induction ops as [|op ops IH]; intros st; simpl.
  - split; [constructor | reflexivity].
  - destruct (IH (snd (run_op op st))) as [Htrace Hsub].
    pose proof (run_op_identity_step op st) as Hstep.
    split; [by econstructor|].
    intros Hno. apply andb_true_iff in Hno as [Hop Hops].
    apply negb_true_iff in Hop.
    transitivity (map identity (todos (snd (run_op op st)))); [by apply Hsub|].
    by eapply identity_step_sublist.
Qed.

(** C9, at the failing input.  For the id made of the letter a, a double
    quote and the letter b, the selector that [deleteTodo] builds is
    malformed: in every state and with every selector engine, [deleteTodo]
    raises the exception of [querySelector] with nothing changed.  So a task
    of that id, which the storage may hold and the page may show, stays in
    the collection, and where no task has the id the call raises as well,
    where the claim has a silent no-op. *)
Theorem deleteTodo_raises_on_quoted_id (st : State) :
  ToString (VStr quoted_id) = Normal quoted_id ∧
  css_plain quoted_id = false ∧
  selector_malformed quoted_id = true ∧
  deleteTodo (VStr quoted_id) st = (Throw DOMSyntaxError, st) ∧
  (∀ t, t ∈ todos st → t ∈ todos (snd (deleteTodo (VStr quoted_id) st))) ∧
  (quoted ∈ todos st →
   strict_eq (id quoted) (VStr quoted_id) = true ∧
   quoted ∈ todos (snd (deleteTodo (VStr quoted_id) st))) ∧
  ((∀ t, t ∈ todos st → strict_eq (id t) (VStr quoted_id) = false) →
   fst (deleteTodo (VStr quoted_id) st) ≠ Normal tt).
Proof.
  assert (deleteTodo (VStr quoted_id) st = (Throw DOMSyntaxError, st)) as Hrun
    by (by apply (deleteTodo_malformed _ _ quoted_id)).
  rewrite Hrun. repeat split; try done.
Qed.

(** C3, at the failing input.  Saving an edit of the task [quoted], whose id
    has a double quote in it, with a blank title calls [deleteTodo], whose
    selector is malformed: in every state the handler ends in the exception
    of [querySelector], nothing has changed, the task is still in the
    collection if it was, and the rebuild of [exitEditMode] is not
    reached. *)
Theorem commit_blank_title_keeps_quoted_task (st : State) :
  trim "   " = "" ∧
  commit quoted "   " "" st = (deleteTodo (id quoted);; exitEditMode)%js st ∧
  commit quoted "   " "" st = (Throw DOMSyntaxError, st) ∧
  (quoted ∈ todos st → quoted ∈ todos (snd (commit quoted "   " "" st))).
Proof.
  assert (commit quoted "   " "" st = (Throw DOMSyntaxError, st)) as Hrun.
  { unfold commit. simpl nonempty. cbv iota.
    apply bind_throw. by apply (deleteTodo_malformed _ _ quoted_id). }
  rewrite Hrun. repeat split; try done.
Qed.

End Claims.

(** ** The claims on concrete states *)

Section Concrete.
Import Reference Scenario.

(** C1, as stated, fails: [updateTodo] with a blank title keeps the task and
    stores the empty title, where [deleteTodo] would have removed the task. *)
Lemma updateTodo_blank_title_keeps_task :
  let st' := snd (updateTodo (VStr "t-1") (VObj 0 [("title", VStr "   ")]) one_task) in
  fst (updateTodo (VStr "t-1") (VObj 0 [("title", VStr "   ")]) one_task) = Normal tt ∧
  todos st' = [set_title (VStr "") milk] ∧
  todos (snd (deleteTodo (VStr "t-1") one_task)) = [] ∧
  todos st' ≠ todos (snd (deleteTodo (VStr "t-1") one_task)).
Proof. vm_compute. repeat split; discriminate. Qed.

Lemma updateTodo_stores_trimmed_title_witness :
  (∃ t, t ∈ todos one_task ∧ strict_eq (id t) (VStr "t-1") = true) ∧
  field (VObj 0 [("title", VStr "  Buy oat milk ")]) "title"
    = VStr "  Buy oat milk " ∧
  map title
    (todos (snd (updateTodo (VStr "t-1")
                   (VObj 0 [("title", VStr "  Buy oat milk ")]) one_task)))
    = [VStr "Buy oat milk"] ∧
  fst (updateTodo (VStr "t-1")
         (VObj 0 [("title", VStr "  Buy oat milk ")]) one_task) = Normal tt.
Proof.
  assert (∃ t, t ∈ todos one_task ∧ strict_eq (id t) (VStr "t-1") = true) as Hex.
  { exists milk. split; [apply list_elem_of_here | reflexivity]. }
  split; [exact Hex|]. split; [reflexivity|].
  destruct (updateTodo_stores_trimmed_title one_task (VStr "t-1")
              (VObj 0 [("title", VStr "  Buy oat milk ")]) "  Buy oat milk "
              Hex eq_refl)
    as (k & t & Hk & _ & _ & _ & Htodos & _).
  split; [|reflexivity].
  destruct k as [|k]; [|destruct k; discriminate Hk].
  injection Hk as <-. rewrite Htodos. reflexivity.
Defined.

(** C2, as stated, fails: [addTodo] with a blank title raises nothing and
    appends a task whose title is empty; the collection grows and is
    stored. *)
Lemma addTodo_accepts_blank_title :
  let r := addTodo "   " None (initial_state ∅) in
  fst r = Normal tt ∧
  length (todos (initial_state ∅)) = 0%nat ∧
  length (todos (snd r)) = 1%nat ∧
  map title (todos (snd r)) = [VStr ""] ∧
  localStorage (snd r) !! "colorfulTodo" = Some (serialized (todos (snd r))).
Proof. vm_compute. repeat split. Qed.

Lemma form_submit_ignores_blank_title_witness :
  trim (titleInput_value blank_form) = "" ∧
  form_submit blank_form = (Normal tt, blank_form).
Proof.
  split; [reflexivity|].
  apply (form_submit_ignores_blank_title blank_form). reflexivity.
Defined.

(** C5, at the failing input: with the filter on ['completed'], [addTodo]
    puts an item for the new, open task on the page, although the filter
    shows no task; a rebuild of the list would leave the page empty. *)
Lemma addTodo_appends_under_excluding_filter :
  let st' := snd (addTodo "Buy milk" None completed_view) in
  fst (addTodo "Buy milk" None completed_view) = Normal tt ∧
  currentFilter st' = "completed" ∧
  map title (todos st') = [VStr "Buy milk"] ∧
  filtered (currentFilter st') (todos st') = [] ∧
  map todo_title (listEl st') = ["Buy milk"] ∧
  listEl (rendered st') = [].
Proof. vm_compute. repeat split. Qed.

(** C6, at the failing input.  The storage holds a well-formed array with
    one record whose title is an object with a [toString] property.
    [loadTodos] parses it and replaces the collection without a word on the
    console, and then raises: the rebuild of the page, which is outside the
    [try], cannot turn that title into text. *)
Lemma loadTodos_raises_on_stored_object_title :
  let r := loadTodos (initial_state broken_storage) in
  broken_storage !! "colorfulTodo" = Some broken_text ∧
  JSON_stringify (VArr 0 [broken_record]) = broken_text ∧
  JSON_parse broken_text = Some (VArr 0 [broken_record]) ∧
  fst r = Throw TypeError ∧
  map id (todos (snd r)) = [VStr "a"] ∧
  map title (todos (snd r)) = [VObj 3 [("toString", VNull)]] ∧
  listEl (snd r) = [] ∧
  console_error (snd r) = [].
Proof. vm_compute. repeat split. Qed.

Lemma save_then_load_round_trip_witness :
  Forall task_record (todos one_task) ∧
  storage_accepts
    (<["colorfulTodo" := serialized (todos one_task)]> (localStorage one_task))
    = true ∧
  lossless (VArr 0 (map Todo_props (todos one_task))) ∧
  ∃ st1, saveTodos one_task = (Normal tt, st1) ∧
         ∃ st2, loadTodos (initial_state (localStorage st1)) = (Normal tt, st2) ∧
                todos st2 = [milk].
Proof.
  assert (Forall task_record (todos one_task)) as Hrec.
  { repeat constructor. by exists 1700000000000. }
  assert (storage_accepts
            (<["colorfulTodo" := serialized (todos one_task)]>
               (localStorage one_task)) = true) as Hacc
    by (vm_compute; reflexivity).
  assert (lossless (VArr 0 (map Todo_props (todos one_task)))) as Hcodec.
  { split; [vm_compute; discriminate | vm_compute; reflexivity]. }
  split; [exact Hrec|]. split; [exact Hacc|]. split; [exact Hcodec|].
  destruct (save_then_load_round_trip one_task Hrec Hacc Hcodec)
    as (st1 & Hsave & Hload).
  exists st1. split; [exact Hsave|].
  exact (Hload (initial_state (localStorage st1)) eq_refl).
Defined.

(** The state of these two failing inputs is within reach of the page: the
    storage holds the task [quoted], the script starts, the page shows the
    task; its delete button and a save with a blank title then both raise,
    and the task stays. *)
Example quoted_task_on_the_page :
  fst (loadTodos (initial_state quoted_storage)) = Normal tt ∧
  todos quoted_task = [quoted] ∧
  map dataset_id (listEl quoted_task) = [quoted_id] ∧
  map bound_id (listEl quoted_task) = [VStr quoted_id] ∧
  deleteTodo (VStr quoted_id) quoted_task = (Throw DOMSyntaxError, quoted_task) ∧
  commit quoted "   " "" quoted_task = (Throw DOMSyntaxError, quoted_task) ∧
  todos one_task = [milk] ∧
  deleteTodo (VStr quoted_id) one_task = (Throw DOMSyntaxError, one_task).
Proof. vm_compute. repeat split. Qed.

(** The scenario of the specification: create "Buy milk", toggle it, look
    at the active and at the completed tasks, then blank its title in an
    edit. *)
Example buy_milk_scenario :
  let s1 := snd (addTodo "Buy milk" None (initial_state ∅)) in
  let bought := default milk (head (todos s1)) in
  let s2 := snd (toggleComplete (id bought) s1) in
  let s3 := snd (filter_click "active" s2) in
  let s4 := snd (filter_click "completed" s3) in
  let s5 := snd (commit (default milk (head (todos s4))) "  " "" s4) in
  map (fun t => (title t, completed t)) (todos s1)
    = [(VStr "Buy milk", VBool false)] ∧
  map (fun t => (title t, completed t)) (todos s2)
    = [(VStr "Buy milk", VBool true)] ∧
  filtered (currentFilter s3) (todos s3) = [] ∧
  listEl s3 = [] ∧
  map title (filtered (currentFilter s4) (todos s4)) = [VStr "Buy milk"] ∧
  map todo_title (listEl s4) = ["Buy milk"] ∧
  todos s5 = [].
Proof. vm_compute. repeat split. Qed.

(** Texts on the reference platform: a number from [10^21] on prints with
    an exponent, and a colour input keeps a simple colour only. *)
Example number_and_colour_texts :
  ToString (VNum (10 ^ 21)) = Normal "1e+21" ∧
  ToString (VNum 1700000000000) = Normal "1700000000000" ∧
  ToString (VNum (-12)) = Normal "-12" ∧
  sanitize_color "red" = "#000000" ∧
  sanitize_color "#FF6F61" = "#ff6f61".
Proof. vm_compute. repeat split. Qed.

(** Two stored tasks whose ids are two arrays with the same contents are
    told apart: ticking the second one completes the second one only, and
    deleting it leaves the first. *)
Example equal_array_ids_are_two_ids :
  let s0 := snd (loadTodos (initial_state twin_storage)) in
  let second := default milk (last (todos s0)) in
  map id (todos s0) = [VArr 3 [VNum 1]; VArr 5 [VNum 1]] ∧
  map completed (todos (snd (toggleComplete (id second) s0)))
    = [VBool false; VBool true] ∧
  map id (todos (snd (deleteTodo (id second) s0))) = [VArr 3 [VNum 1]].
Proof. vm_compute. repeat split. Qed.

End Concrete.

(** * Further properties of the script *)

Section Extras.
Context `{Platform}.

(** ** [generateUUID] *)

Lemma digit_checked_all :
  digit_checked 0 "0" && digit_checked 1 "1" && digit_checked 8 "8" = true.
Proof. vm_compute. reflexivity. Qed.

Lemma uuid_digit_shape (c : Z) (pattern : ascii) st :
  digit_checked c pattern = true →
  ∃ h, uuid_digit c st =
         (Normal (String h EmptyString), set_random (S (random_calls st)) st) ∧
       uuid_char pattern h = true.
Proof.
  intros Hall. unfold uuid_digit, getRandomValues_call.
  set (r := random_byte (random_calls st) mod 256).
  assert (0 ≤ r < 256) as Hr by (apply Z.mod_pos_bound; lia).
  unfold digit_checked in Hall. rewrite forallb_forall in Hall.
  specialize (Hall (Z.to_nat r)).
  rewrite Z2Nat.id in Hall by lia.
  assert (In (Z.to_nat r) (seq 0 256)) as Hin by (apply in_seq; lia).
  specialize (Hall Hin).
  destruct (toString16 _) as [|h [|]] eqn:Hd; try discriminate.
  exists h. split; [|exact Hall].
  unfold bind, ret. simpl. fold r. by rewrite Hd.
Qed.

Lemma set_random_twice (n m : nat) st :
  set_random n (set_random m st) = set_random n st.
Proof. reflexivity. Qed.

Lemma replace_018_shape (s : string) st :
  ∃ out,
    replace_018 s st =
      (Normal out, set_random (random_calls st + count_018 s)%nat st) ∧
    uuid_shape s out = true.
Proof.
  pose proof digit_checked_all as Hall.
  apply andb_true_iff in Hall as [Hall H8].
  apply andb_true_iff in Hall as [H0 H1].
  revert st. induction s as [|ch s IH]; intros st.
  - exists EmptyString. simpl. unfold ret.
    rewrite Nat.add_0_r, set_random_same. done.
  - simpl replace_018. simpl count_018. simpl uuid_shape.
    destruct (Ascii.eqb_spec ch "0") as [-> | N0].
    { destruct (uuid_digit_shape 0 "0" st H0) as (h & Hh & Hc).
      destruct (IH (set_random (S (random_calls st)) st)) as (out & Ho & Hs).
      exists (String h out). split; [|simpl; by rewrite Hc, Hs].
      erewrite bind_normal by exact Hh. erewrite bind_normal by exact Ho.
      simpl. unfold ret. rewrite set_random_twice. simpl random_calls.
      by rewrite Nat.add_succ_r. }
    destruct (Ascii.eqb_spec ch "1") as [-> | N1].
    { destruct (uuid_digit_shape 1 "1" st H1) as (h & Hh & Hc).
      destruct (IH (set_random (S (random_calls st)) st)) as (out & Ho & Hs).
      exists (String h out). split; [|simpl; by rewrite Hc, Hs].
      erewrite bind_normal by exact Hh. erewrite bind_normal by exact Ho.
      simpl. unfold ret. rewrite set_random_twice. simpl random_calls.
      by rewrite Nat.add_succ_r. }
    destruct (Ascii.eqb_spec ch "8") as [-> | N8].
    { destruct (uuid_digit_shape 8 "8" st H8) as (h & Hh & Hc).
      destruct (IH (set_random (S (random_calls st)) st)) as (out & Ho & Hs).
      exists (String h out). split; [|simpl; by rewrite Hc, Hs].
      erewrite bind_normal by exact Hh. erewrite bind_normal by exact Ho.
      simpl. unfold ret. rewrite set_random_twice. simpl random_calls.
      by rewrite Nat.add_succ_r. }
    destruct (IH st) as (out & Ho & Hs).
    exists (String ch out). split.
    + erewrite bind_normal by reflexivity. erewrite bind_normal by exact Ho.
      reflexivity.
    + unfold uuid_char.
      destruct (Ascii.eqb_spec ch "0"); [done|].
      destruct (Ascii.eqb_spec ch "1"); [done|].
      destruct (Ascii.eqb_spec ch "8"); [done|].
      simpl. by rewrite Ascii.eqb_refl.
Qed.

Lemma uuid_shape_length (pattern u : string) :
  uuid_shape pattern u = true → String.length u = String.length pattern.
Proof.
  revert u. induction pattern as [|p pattern IH]; intros [|c u]; simpl;
    try discriminate; [done|].
  intros Hs. apply andb_true_iff in Hs as [_ Hs]. by rewrite (IH u Hs).
Qed.

Lemma uuid_shape_get (pattern u : string) (i : nat) (p : ascii) :
  uuid_shape pattern u = true →
  String.get i pattern = Some p →
  ∃ c, String.get i u = Some c ∧ uuid_char p c = true.
Proof.
  revert u i. induction pattern as [|q pattern IH]; intros [|c u] i; simpl;
    try discriminate.
  intros Hs Hp. apply andb_true_iff in Hs as [Hc Hs].
  destruct i as [|i]; simpl.
  - injection Hp as <-. by exists c.
  - by apply IH.
Qed.

(** X1.  [generateUUID] never fails and reads exactly 31 random bytes.
    Whatever the bytes, the identifier has the 36 characters of a version 4
    UUID: hyphens at positions 8, 13, 18 and 23, the digit 4 at position 14,
    one of 8, 9, a, b at position 19, and lower-case hexadecimal digits
    elsewhere. *)
Theorem generateUUID_is_uuid_v4 (st : State) :
  ∃ uuid,
    generateUUID st =
      (Normal uuid, set_random (random_calls st + 31)%nat st) ∧
    String.length uuid = 36%nat ∧
    uuid_shape "10000000-1000-4000-8000-100000000000" uuid = true ∧
    (∀ i, i ∈ [8; 13; 18; 23]%nat → String.get i uuid = Some "-"%char) ∧
    String.get 14 uuid = Some "4"%char ∧
    (∃ c, String.get 19 uuid = Some c ∧
          c ∈ ["8"; "9"; "a"; "b"]%char) ∧
    (∀ i c, String.get i uuid = Some c → is_hex c = true ∨ c = "-"%char).
Proof.
  destruct (replace_018_shape uuid_template st) as (uuid & Hrun & Hshape).
  exists uuid. split; [exact Hrun|].
  split; [exact (uuid_shape_length _ _ Hshape)|].
  split; [exact Hshape|].
  assert (∀ i p, String.get i uuid_template = Some p →
                 ∃ c, String.get i uuid = Some c ∧ uuid_char p c = true) as Hget
    by (intros i p; by apply uuid_shape_get).
  split.
  { intros i Hi.
    assert (String.get i uuid_template = Some "-"%char) as Hp.
    { repeat (apply elem_of_cons in Hi as [-> | Hi]; [reflexivity|]).
      by apply elem_of_nil in Hi. }
    destruct (Hget i _ Hp) as (c & -> & Hc).
    apply Ascii.eqb_eq in Hc. by rewrite Hc. }
  split.
  { destruct (Hget 14%nat "4"%char eq_refl) as (c & -> & Hc).
    apply Ascii.eqb_eq in Hc. by rewrite Hc. }
  split.
  { destruct (Hget 19%nat "8"%char eq_refl) as (c & Hc & Hin).
    exists c. split; [exact Hc|].
    unfold uuid_char in Hin. simpl in Hin.
    repeat (apply orb_true_iff in Hin as [Hin | Hin];
            [apply Ascii.eqb_eq in Hin; subst c; set_solver|]).
    discriminate. }
  intros i c Hc.
  assert (i < String.length uuid_template)%nat as Hi.
  { rewrite <- (uuid_shape_length _ _ Hshape).
    destruct (Nat.lt_ge_cases i (String.length uuid)) as [|Hge]; [done|].
    pose proof (String.get_correct uuid EmptyString) as _.
    exfalso. revert Hc Hge. clear. revert i.
    induction uuid as [|a uuid IH]; intros [|i]; simpl; try discriminate.
    - intros _ Hge. lia.
    - intros Hc Hge. apply (IH i Hc). lia. }
  destruct (String.get i uuid_template) as [p|] eqn:Hp.
  2: { exfalso. revert Hp Hi. clear. generalize uuid_template. intros s.
       revert i. induction s as [|a s IH]; intros [|i]; simpl;
         try discriminate; try lia.
       intros Hp Hi. apply (IH i Hp). lia. }
  destruct (Hget i p Hp) as (c' & Hc' & Hok).
  rewrite Hc in Hc'. injection Hc' as <-.
  unfold uuid_char in Hok.
  destruct (Ascii.eqb p "0" || Ascii.eqb p "1"); [by left|].
  destruct (Ascii.eqb p "8") eqn:H8.
  { left. unfold is_hex. simpl in *.
    repeat (apply orb_true_iff in Hok as [Hok | Hok];
            [apply Ascii.eqb_eq in Hok; subst c; reflexivity|]).
    discriminate. }
  apply Ascii.eqb_eq in Hok. subst c.
  assert (p ∈ list_ascii_of_string uuid_template) as Hin.
  { revert Hp. clear. generalize uuid_template. intros s. revert i.
    induction s as [|a s IH]; intros [|i]; simpl; try discriminate.
    - intros [= ->]. apply list_elem_of_here.
    - intros Hp. apply list_elem_of_further. by apply (IH i). }
  simpl in Hin.
  repeat (apply elem_of_cons in Hin as [-> | Hin];
          [first [by right | by left | discriminate H8] |]).
  by apply elem_of_nil in Hin.
Qed.


(** ** [addTodo] *)

(** X2.  [addTodo] never fails.  It appends exactly one record at the end of
    the collection and leaves the earlier ones as they were: the record has a
    fresh identifier of UUID shape, the trimmed title and description (['']
    when no description is given), [completed = false] and the clock reading
    as [createdAt]; the item that [createTodoElement] builds for it, which
    carries the identifier and the trimmed title, is appended to the page,
    and the clock is read once. *)
Theorem addTodo_appends_one_record
    (title0 : string) (description0 : option string) (st : State) :
  ∃ st' uuid el,
    let newTodo :=
      {| id := VStr uuid; title := VStr (trim title0);
         description := VStr (trim (default "" description0));
         completed := VBool false;
         createdAt := VNum (Date_now (Date_now_calls st)) |} in
    addTodo title0 description0 st = (Normal tt, st') ∧
    uuid_shape uuid_template uuid = true ∧
    todos st' = todos st ++ [newTodo] ∧
    createTodoElement newTodo = Normal el ∧
    listEl st' = listEl st ++ [el] ∧
    dataset_id el = uuid ∧ todo_title el = trim title0 ∧
    currentFilter st' = currentFilter st ∧
    Date_now_calls st' = S (Date_now_calls st) ∧
    random_calls st' = (random_calls st + 31)%nat.
Proof.
  destruct (replace_018_shape uuid_template st) as (uuid & Hu & Hshape).
  eexists _, uuid, _. split.
  { unfold addTodo, generateUUID.
    erewrite bind_normal by exact Hu.
    erewrite bind_normal by reflexivity.
    erewrite bind_normal by reflexivity.
    erewrite bind_normal by apply saveTodos_eq.
    reflexivity. }
  split; [exact Hshape|].
  simpl. rewrite todos_saved, listEl_saved, currentFilter_saved. simpl.
  repeat split; unfold saved; by destruct (storage_accepts _).
Qed.

(** ** Which task an id denotes *)

Lemma findIndex_absent {A} (p : A → bool) (l : list A) :
  (∀ x, x ∈ l → p x = false) → findIndex p l = -1.
Proof.
  intros Hall.
  destruct (findIndex_spec p l) as [[He _] | (k & x & _ & Hk & Hx & _)];
    [exact He|].
  rewrite (Hall x) in Hx; [discriminate|].
  apply list_elem_of_lookup. by exists k.
Qed.

Lemma findIndex_first {A} (p : A → bool) (l : list A) (k : nat) (x : A) :
  l !! k = Some x → p x = true →
  (∀ (j : nat) (y : A), (j < k)%nat → l !! j = Some y → p y = false) →
  findIndex p l = Z.of_nat k.
Proof.
  intros Hk Hx Hfirst.
  destruct (findIndex_spec p l) as [[_ Hnone] | (k' & x' & He & Hk' & Hx' & Hfirst')].
  { rewrite (Hnone x) in Hx; [discriminate|].
    apply list_elem_of_lookup. by exists k. }
  rewrite He. f_equal.
  destruct (Nat.lt_trichotomy k k') as [Hlt | [-> | Hgt]]; [|done|].
  - rewrite (Hfirst' k x Hlt Hk) in Hx. discriminate.
  - rewrite (Hfirst k' x' Hgt Hk') in Hx'. discriminate.
Qed.

Lemma find_slot_findIndex_from {A} (p : A → bool) (l : list A) (i : Z) :
  match find_slot p l with
  | Some k => findIndex_from p l i = i + Z.of_nat k
  | None => findIndex_from p l i = -1
  end.
Proof.
  revert i. induction l as [|a l IH]; intros i; simpl; [done|].
  destruct (p a); [lia|].
  specialize (IH (i + 1)). destruct (find_slot p l); simpl; lia.
Qed.

Lemma find_slot_findIndex {A} (p : A → bool) (l : list A) :
  match find_slot p l with
  | Some k => findIndex p l = Z.of_nat k
  | None => findIndex p l = -1
  end.
Proof.
  pose proof (find_slot_findIndex_from p l 0) as Hf. unfold findIndex.
  destruct (find_slot p l); [by rewrite Z.add_0_l in Hf | done].
Qed.

Lemma find_slot_absent {A} (p : A → bool) (l : list A) :
  (∀ x, x ∈ l → p x = false) → find_slot p l = None.
Proof.
  intros Hall. pose proof (find_slot_findIndex p l) as Hf.
  rewrite (findIndex_absent p l Hall) in Hf.
  destruct (find_slot p l); [lia | done].
Qed.

Lemma find_slot_first {A} (p : A → bool) (l : list A) (k : nat) (x : A) :
  l !! k = Some x → p x = true →
  (∀ (j : nat) (y : A), (j < k)%nat → l !! j = Some y → p y = false) →
  find_slot p l = Some k.
Proof.
  intros Hk Hx Hfirst. pose proof (find_slot_findIndex p l) as Hf.
  rewrite (findIndex_first p l k x Hk Hx Hfirst) in Hf.
  destruct (find_slot p l); [f_equal; lia | lia].
Qed.

(** The task found does not change when the tasks keep their ids. *)
Lemma findIndex_alter (f : Todo → Todo) (id0 : value) (k : nat) (ts : list Todo) :
  (∀ t, id (f t) = id t) →
  findIndex (fun t => strict_eq (id t) id0) (alter f k ts) =
  findIndex (fun t => strict_eq (id t) id0) ts.
Proof.
  intros Hf. unfold findIndex. generalize 0. revert k.
  induction ts as [|t ts IH]; intros [|k] i; simpl; [done|done| |].
  - by rewrite Hf.
  - destruct (strict_eq (id t) id0); [done|]. apply IH.
Qed.


Lemma find_slot_alter (f : Todo → Todo) (id0 : value) (k : nat) (ts : list Todo) :
  (∀ t, id (f t) = id t) →
  find_slot (fun t => strict_eq (id t) id0) (alter f k ts) =
  find_slot (fun t => strict_eq (id t) id0) ts.
Proof.
  intros Hf.
  pose proof (find_slot_findIndex (fun t => strict_eq (id t) id0) (alter f k ts)) as H1.
  pose proof (find_slot_findIndex (fun t => strict_eq (id t) id0) ts) as H2.
  rewrite (findIndex_alter f id0 k ts Hf) in H1.
  destruct (find_slot _ (alter f k ts)), (find_slot _ ts); try lia; try done.
  f_equal. lia.
Qed.

(** ** [toggleComplete] *)

(** X3.  With no task of the given id [toggleComplete] leaves the whole
    state as it is: nothing is saved and the page is not rebuilt.  Otherwise
    it negates the flag of the first task whose id is the given one (for an
    array or an object: the very same one), only that field of only that
    task, then saves and rebuilds the page; it ends as the rebuild does, with
    the page in step when the rebuild returns, and the flag is flipped also
    when the rebuild throws. *)
Theorem toggleComplete_flips_first_match (st : State) (id0 : value) :
  ((∀ t, t ∈ todos st → strict_eq (id t) id0 = false) →
   toggleComplete id0 st = (Normal tt, st)) ∧
  (∀ (k : nat) (t : Todo),
      todos st !! k = Some t →
      strict_eq (id t) id0 = true →
      (∀ (j : nat) (y : Todo),
          (j < k)%nat → todos st !! j = Some y → strict_eq (id y) id0 = false) →
      let flipped :=
        <[k := {| id := id t; title := title t; description := description t;
                  completed := VBool (negb (truthy (completed t)));
                  createdAt := createdAt t |}]> (todos st) in
      let st' := snd (toggleComplete id0 st) in
      toggleComplete id0 st = renderTodos (saved (set_todos flipped st)) ∧
      todos st' = flipped ∧
      (fst (toggleComplete id0 st) = Normal tt ∨
       fst (toggleComplete id0 st) = Throw TypeError) ∧
      (fst (toggleComplete id0 st) = Normal tt → page_in_step st') ∧
      (Forall (fun x => displayable x = true) (todos st) →
       fst (toggleComplete id0 st) = Normal tt)).
Proof.
  split.
  - intros Habsent. apply toggleComplete_absent. by apply find_slot_absent.
  - intros k t Hk Hid Hfirst flipped st'. subst flipped st'.
    pose proof (find_slot_first _ _ k t Hk Hid Hfirst) as Hf.
    rewrite (toggleComplete_found _ _ k Hf), todos_rebuilt.
    rewrite (alter_as_insert _ _ _ _ Hk).
    split; [reflexivity|]. split; [reflexivity|].
    split; [apply renderTodos_completion|].
    split; [apply page_in_step_renderTodos|].
    intros Hall. rewrite renderTodos_returns; [done|].
    rewrite todos_saved, currentFilter_saved. simpl.
    apply forallb_displayable_filtered.
    rewrite <- (alter_as_insert toggled _ _ _ Hk).
    apply Forall_alter; [exact Hall|]. intros x _. by rewrite displayable_toggled.
Qed.

(** X4.  Toggling the same id twice gives the collection back, when the
    flags of the tasks with that id are booleans. *)
Theorem toggleComplete_twice_restores (st : State) (id0 : value) :
  (∀ t, t ∈ todos st → strict_eq (id t) id0 = true →
        ∃ b, completed t = VBool b) →
  todos (snd (toggleComplete id0 (snd (toggleComplete id0 st)))) = todos st.
Proof.
  intros Hbool.
  destruct (find_slot (fun t => strict_eq (id t) id0) (todos st)) as [k|] eqn:Hf.
  2: { by rewrite !(toggleComplete_absent _ _ Hf). }
  rewrite (toggleComplete_found _ _ k Hf).
  set (st1 := snd (renderTodos (saved (set_todos (alter toggled k (todos st)) st)))).
  assert (todos st1 = alter toggled k (todos st)) as Ht1
    by apply todos_rebuilt.
  assert (find_slot (fun t => strict_eq (id t) id0) (todos st1) = Some k) as Hf1.
  { rewrite Ht1, find_slot_alter by done. exact Hf. }
  rewrite (toggleComplete_found _ _ k Hf1).
  rewrite todos_rebuilt, Ht1, list_alter_alter_eq.
  pose proof (find_slot_findIndex (fun t => strict_eq (id t) id0) (todos st)) as Hi.
  rewrite Hf in Hi.
  destruct (findIndex_spec (fun t => strict_eq (id t) id0) (todos st))
    as [[He _] | (k' & t & He & Hk & Hid & _)]; [lia|].
  assert (k' = k) as -> by lia.
  rewrite (alter_as_insert _ _ _ _ Hk). apply list_insert_id.
  rewrite Hk. f_equal.
  destruct (Hbool t) as [b Hb]; [apply list_elem_of_lookup; by exists k|done|].
  destruct t as [i ti d c ca]. simpl in Hb. subst c.
  unfold toggled, set_completed. simpl. by rewrite negb_involutive.
Qed.

(** ** [updateTodo] *)

(** X5.  The edges of [updateTodo].  With no task of the given id it returns
    with the whole state as it was, whatever [updates] is, [null] included.
    With such a task and [updates] [null] or [undefined] it raises a
    [TypeError] before anything has changed. *)
Theorem updateTodo_edge_cases (st : State) (id0 updates : value) :
  ((∀ t, t ∈ todos st → strict_eq (id t) id0 = false) →
   updateTodo id0 updates st = (Normal tt, st)) ∧
  ((∃ t, t ∈ todos st ∧ strict_eq (id t) id0 = true) →
   nullish updates = true →
   updateTodo id0 updates st = (Throw TypeError, st)).
Proof.
  split.
  - intros Habsent. apply updateTodo_absent. by apply findIndex_absent.
  - intros (t & Hin & Hid) Hu.
    destruct (findIndex_spec (fun t => strict_eq (id t) id0) (todos st))
      as [[_ Hnone] | (k & x & He & _)].
    + rewrite (Hnone t Hin) in Hid. discriminate.
    + by apply (updateTodo_throws _ _ _ k).
Qed.

(** X6.  What [updateTodo] merges.  On the first task whose id is the given
    one, [title] and [description] are replaced by the trimmed strings of
    [updates] and [completed] by its boolean; a field that [updates] lacks,
    or carries with another type, is kept, and so are [id] and [createdAt],
    whatever [updates] says about them.  The other tasks are untouched.  The
    collection is then saved and the page rebuilt: [updateTodo] ends as the
    rebuild does, with the page in step when it returns. *)
Theorem updateTodo_merges_known_fields
    (st : State) (id0 updates : value) (k : nat) (t : Todo) :
  nullish updates = false →
  todos st !! k = Some t →
  strict_eq (id t) id0 = true →
  (∀ (j : nat) (y : Todo),
      (j < k)%nat → todos st !! j = Some y → strict_eq (id y) id0 = false) →
  ∃ t',
    let st' := snd (updateTodo id0 updates st) in
    updateTodo id0 updates st =
      renderTodos (saved (set_todos (<[k := t']> (todos st)) st)) ∧
    todos st' = <[k := t']> (todos st) ∧
    id t' = id t ∧ createdAt t' = createdAt t ∧
    title t' = match field updates "title" with
               | VStr s => VStr (trim s)
               | _ => title t
               end ∧
    description t' = match field updates "description" with
                     | VStr s => VStr (trim s)
                     | _ => description t
                     end ∧
    completed t' = match field updates "completed" with
                   | VBool b => VBool b
                   | _ => completed t
                   end ∧
    (fst (updateTodo id0 updates st) = Normal tt ∨
     fst (updateTodo id0 updates st) = Throw TypeError) ∧
    (fst (updateTodo id0 updates st) = Normal tt → page_in_step st') ∧
    (Forall (fun x => displayable x = true) (todos st) →
     fst (updateTodo id0 updates st) = Normal tt).
Proof.
  intros Hu Hk Hid Hfirst.
  pose proof (findIndex_first _ _ k t Hk Hid Hfirst) as Hi.
  exists (merged updates t). cbn zeta.
  rewrite (updateTodo_found _ _ _ k Hi Hu), todos_rebuilt.
  rewrite (alter_as_insert _ _ _ _ Hk).
  split; [reflexivity|]. split; [reflexivity|].
  assert (id (merged updates t) = id t ∧
          createdAt (merged updates t) = createdAt t) as [Hid' Hca]
    by (unfold merged; by repeat case_match).
  split; [exact Hid'|]. split; [exact Hca|].
  split; [unfold merged; by repeat case_match|].
  split; [unfold merged; by repeat case_match|].
  split; [unfold merged; by repeat case_match|].
  split; [apply renderTodos_completion|].
  split; [apply page_in_step_renderTodos|].
  intros Hall. rewrite renderTodos_returns; [done|].
  rewrite todos_saved, currentFilter_saved. simpl.
  apply forallb_displayable_filtered.
  rewrite <- (alter_as_insert (merged updates) _ _ _ Hk).
  apply Forall_alter; [exact Hall|]. intros x _. apply displayable_merged.
Qed.

(** X7.  Applying the same update twice gives the same collection and the
    same page as applying it once. *)
Theorem updateTodo_idempotent (st : State) (id0 updates : value) :
  let once := snd (updateTodo id0 updates st) in
  let twice := snd (updateTodo id0 updates once) in
  todos twice = todos once ∧ listEl twice = listEl once.
Proof.
  destruct (findIndex_spec (fun t => strict_eq (id t) id0) (todos st))
    as [[He _] | (k & t & He & Hk & _)].
  { simpl. by rewrite !(updateTodo_absent _ _ _ He). }
  destruct (nullish updates) eqn:Hu.
  { simpl. by rewrite !(updateTodo_throws _ _ _ k He Hu). }
  cbn zeta. rewrite (updateTodo_found _ _ _ k He Hu).
  set (st1 := snd (renderTodos
                     (saved (set_todos (alter (merged updates) k (todos st)) st)))).
  assert (todos st1 = alter (merged updates) k (todos st)) as Ht1
    by apply todos_rebuilt.
  assert (currentFilter st1 = currentFilter st) as Hf1
    by apply currentFilter_rebuilt.
  assert (∀ x, id (merged updates x) = id x) as Hsame
    by (intros x; unfold merged; by repeat case_match).
  assert (findIndex (fun t => strict_eq (id t) id0) (todos st1) = Z.of_nat k) as He1
    by (by rewrite Ht1, findIndex_alter).
  rewrite (updateTodo_found _ _ _ k He1 Hu).
  rewrite todos_rebuilt, listEl_rebuilt, Hf1, Ht1, list_alter_alter_eq.
  assert (alter (merged updates ∘ merged updates) k (todos st)
          = alter (merged updates) k (todos st)) as ->.
  { apply list_alter_ext; [|done]. intros x _. unfold compose, merged.
    by repeat case_match. }
  split; [done|]. unfold st1. by rewrite listEl_rebuilt.
Qed.

(** ** [deleteTodo] and what follows it *)

(** X8.  Once [deleteTodo] has run to its end for an id, no task has that
    id: the collection is the earlier one without the tasks whose id is the
    given one (for a string id: without the tasks that have this very string
    as id), deleting the id again keeps the collection, and [updateTodo] and
    [toggleComplete] on that id leave the whole state untouched. *)
Theorem deleted_id_is_gone (st : State) (id0 : value) :
  fst (deleteTodo id0 st) = Normal tt →
  let st1 := snd (deleteTodo id0 st) in
  todos st1 = List.filter (fun t => negb (strict_eq (id t) id0)) (todos st) ∧
  (∀ t, t ∈ todos st1 ↔ t ∈ todos st ∧ strict_eq (id t) id0 = false) ∧
  (∀ s, id0 = VStr s → ∀ t, t ∈ todos st1 ↔ t ∈ todos st ∧ id t ≠ VStr s) ∧
  sublist (todos st1) (todos st) ∧
  todos (snd (deleteTodo id0 st1)) = todos st1 ∧
  (∀ updates, updateTodo id0 updates st1 = (Normal tt, st1)) ∧
  toggleComplete id0 st1 = (Normal tt, st1).
Proof.
  intros Hret st1.
  assert (todos st1 = without_id id0 (todos st)) as Hst1.
  { unfold st1. destruct (deleteTodo_cases id0 st) as [[found Hd] | [e Hd]];
      rewrite Hd in *; [apply todos_deleted | discriminate Hret]. }
  assert (∀ t, t ∈ todos st1 ↔ t ∈ todos st ∧ strict_eq (id t) id0 = false)
    as Hgone.
  { intros t. rewrite Hst1. unfold without_id.
    by rewrite list_filter_elem_of, negb_true_iff. }
  split; [exact Hst1|]. split; [exact Hgone|].
  split.
  { intros s -> t. rewrite Hgone.
    pose proof (strict_eq_string (id t) s) as Hs.
    destruct (strict_eq (id t) (VStr s)); split; intros [Hin Hne];
      split; try done.
    - destruct Hne. by apply Hs.
    - intros Heq. apply Hs in Heq. discriminate. }
  split; [rewrite Hst1; apply list_filter_sublist|].
  split; [|split].
  - destruct (deleteTodo_cases id0 st1) as [[found ->] | [e ->]]; [|done].
    simpl. rewrite todos_deleted. unfold without_id. apply list_filter_id.
    intros t Ht. apply Hgone in Ht as [_ Ht]. by rewrite Ht.
  - intros updates. apply updateTodo_absent, findIndex_absent.
    intros t Ht. by apply Hgone in Ht as [_ Ht].
  - apply toggleComplete_absent, find_slot_absent.
    intros t Ht. by apply Hgone in Ht as [_ Ht].
Qed.


(** ** Listeners that return *)

(** A rebuild of a collection in which every task has an item returns. *)
Lemma renderTodos_displayable st :
  Forall (fun t => displayable t = true) (todos st) →
  renderTodos st = (Normal tt, rendered st).
Proof. intros Hall. by apply renderTodos_returns, forallb_displayable_filtered. Qed.

Lemma commit_returns todo tv dv st :
  Forall (fun t => displayable t = true) (todos st) →
  (nonempty (trim tv) = false → selectable (id todo)) →
  ∃ st', commit todo tv dv st = (Normal tt, rendered st').
Proof.
  intros Hall Hsel. unfold commit, exitEditMode.
  destruct (nonempty (trim tv)).
  - set (u := VObj 0 [("title", VStr (trim tv)); ("description", VStr (trim dv))]).
    destruct (findIndex_spec (fun t => strict_eq (id t) (id todo)) (todos st))
      as [[Hi _] | (k & t & Hk & _)].
    + exists st. erewrite bind_normal by (by apply updateTodo_absent).
      by apply renderTodos_displayable.
    + assert (Forall (fun t => displayable t = true)
                (alter (merged u) k (todos st))) as Hall'.
      { apply Forall_alter; [exact Hall|]. intros x _. apply displayable_merged. }
      pose proof (renderTodos_displayable
                    (saved (set_todos (alter (merged u) k (todos st)) st))) as Hr.
      rewrite todos_saved in Hr. specialize (Hr Hall').
      eexists. erewrite bind_normal
        by (rewrite (updateTodo_found _ u _ k Hk eq_refl); exact Hr).
      apply renderTodos_displayable. simpl. by rewrite todos_saved.
  - destruct (Hsel eq_refl) as (text & Ht & Hp).
    eexists. erewrite bind_normal by (by apply (deleteTodo_selectable _ _ text)).
    apply renderTodos_displayable. rewrite todos_deleted.
    by apply Forall_list_filter.
Qed.

Lemma handle_returns (e : Event) st :
  Forall (fun t => displayable t = true) (todos st) →
  (∀ i, deleted_by e = Some i → selectable i) →
  ∃ st', handle e st = (Normal tt, st').
Proof.
  intros Hall Hsel. destruct e as [tv dv | todo tv dv | | i | i | key]; simpl.
  - erewrite bind_normal by reflexivity. rewrite form_submit_eq. simpl.
    destruct (nonempty (trim tv)); [|by eexists].
    destruct (addTodo_eq (trim tv) (Some (trim dv)) (set_form_inputs tv dv st))
      as (uuid & n & Heq).
    eexists. erewrite bind_normal by exact Heq. reflexivity.
  - destruct (commit_returns todo tv dv st Hall) as [st' Hc]; [|eauto].
    intros Hb. apply Hsel. simpl. by rewrite Hb.
  - eexists. by apply renderTodos_displayable.
  - destruct (find_slot (fun t => strict_eq (id t) i) (todos st)) as [k|] eqn:Hf.
    + eexists. rewrite (toggleComplete_found _ _ k Hf).
      apply renderTodos_displayable. rewrite todos_saved. simpl.
      apply Forall_alter; [exact Hall|]. intros x _. by rewrite displayable_toggled.
    + eexists. by apply toggleComplete_absent.
  - destruct (Hsel i eq_refl) as (text & Ht & Hp).
    eexists. by apply (deleteTodo_selectable _ _ text).
  - eexists. unfold filter_click. erewrite bind_normal by reflexivity.
    by apply renderTodos_displayable.
Qed.

Lemma accent_input_eq color st :
  accent_input color st =
  (Normal tt,
   let items := <["todoAccentColor" := color]> (localStorage st) in
   if storage_accepts items
   then set_localStorage items (set_accent_color color st)
   else log_error "Failed to persist accent color" (set_accent_color color st)).
Proof.
  unfold accent_input, bind, modify, try_catch, localStorage_setItem,
    console_error_call. simpl.
  by destruct (storage_accepts _).
Qed.

(** X9.  The listeners of the page return, whatever the storage does, when
    every task of the collection has an item (as every task with string
    [id], [title] and [description] has) and the id that a delete button or
    a save with a blank title hands to [deleteTodo] is selectable: the form
    submission, the save and cancel handlers of an edit, the checkbox, the
    delete button, the filter buttons and the key handlers of the edit
    fields.  The form submission and the colour picker return in every
    state. *)
Theorem listeners_return (st : State) :
  Forall (fun t => displayable t = true) (todos st) →
  (∀ e, (∀ i, deleted_by e = Some i → selectable i) →
        ∃ st', handle e st = (Normal tt, st')) ∧
  (∀ todo tv dv key,
      (nonempty (trim tv) = false → selectable (id todo)) →
      ∃ st', titleInput_keydown todo tv dv key st = (Normal tt, st')) ∧
  (∀ todo tv dv key shift,
      (nonempty (trim tv) = false → selectable (id todo)) →
      ∃ st', descTextarea_keydown todo tv dv key shift st = (Normal tt, st')) ∧
  (∀ st0 tv dv, ∃ st', handle (Submit tv dv) st0 = (Normal tt, st')) ∧
  (∀ st0 color, ∃ st', accent_input color st0 = (Normal tt, st')).
Proof.
  intros Hall. split; [|split; [|split; [|split]]].
  - intros e Hsel. by apply handle_returns.
  - intros todo tv dv key Hsel. unfold titleInput_keydown.
    destruct (String.eqb key "Enter"); [|by eexists].
    destruct (commit_returns todo tv dv st Hall Hsel) as [st' Hc]. eauto.
  - intros todo tv dv key shift Hsel. unfold descTextarea_keydown.
    destruct (String.eqb key "Enter" && negb shift); [|by eexists].
    destruct (commit_returns todo tv dv st Hall Hsel) as [st' Hc]. eauto.
  - intros st0 tv dv. simpl.
    erewrite bind_normal by reflexivity. rewrite form_submit_eq. simpl.
    destruct (nonempty (trim tv)); [|by eexists].
    destruct (addTodo_eq (trim tv) (Some (trim dv)) (set_form_inputs tv dv st0))
      as (uuid & n & Heq).
    eexists. erewrite bind_normal by exact Heq. reflexivity.
  - intros st0 color. eexists. apply accent_input_eq.
Qed.

(** ** Titles *)

(** X10.  However many events of the page follow one another, a collection
    whose titles are all non-empty strings stays so: the guards of the form
    and of the save handler keep empty titles out. *)
Theorem events_keep_titles_nonempty (es : list Event) (st : State) :
  titled (todos st) → titled (todos (run_events es st)).
Proof.
  revert st. induction es as [|e es IH]; intros st Hst; simpl; [exact Hst|].
  apply IH. by apply handlers_keep_titles_nonempty.
Qed.

(** X20.  A submission with a title that is not blank appends one task with
    the trimmed title and description, non-empty title and [completed]
    false, and empties both fields of the form. *)
Theorem form_submit_adds_and_clears (st : State) :
  trim (titleInput_value st) ≠ "" →
  ∃ st' newTodo,
    form_submit st = (Normal tt, st') ∧
    todos st' = todos st ++ [newTodo] ∧
    title newTodo = VStr (trim (titleInput_value st)) ∧
    description newTodo = VStr (trim (descInput_value st)) ∧
    completed newTodo = VBool false ∧
    titleInput_value st' = "" ∧ descInput_value st' = "".
Proof.
  intros Hne. apply nonempty_true in Hne.
  rewrite form_submit_eq, Hne.
  destruct (addTodo_eq (trim (titleInput_value st))
              (Some (trim (descInput_value st))) st) as (uuid & n & Heq).
  eexists _, (created uuid (trim (titleInput_value st))
                (trim (descInput_value st)) (Date_now_calls st)).
  split.
  { erewrite bind_normal by exact Heq. reflexivity. }
  simpl. rewrite todos_saved. simpl. by rewrite !trim_idempotent.
Qed.

(** ** The page *)

(** X17.  After [loadTodos], after a filter click, and after the save or
    the cancel of an edit, the page holds exactly one item per task that the
    current filter shows, in the order of the collection, whenever the
    handler returns; and it returns when every task of the collection has an
    item and the id handed to [deleteTodo], if any, is selectable. *)
Theorem rebuilds_leave_page_in_step (st : State) :
  (fst (loadTodos st) = Normal tt → page_in_step (snd (loadTodos st))) ∧
  (∀ e, rebuilds e = true → fst (handle e st) = Normal tt →
        page_in_step (snd (handle e st))) ∧
  (∀ e, rebuilds e = true →
        Forall (fun t => displayable t = true) (todos st) →
        (∀ i, deleted_by e = Some i → selectable i) →
        fst (handle e st) = Normal tt ∧ page_in_step (snd (handle e st))).
Proof.
  assert (∀ e, rebuilds e = true → fst (handle e st) = Normal tt →
               page_in_step (snd (handle e st))) as Hstep.
  { intros [tv dv | todo tv dv | | i | i | key]; try discriminate; intros _.
    - simpl. unfold commit, exitEditMode. apply page_then_rebuild.
    - apply page_in_step_renderTodos.
    - simpl. unfold filter_click. erewrite bind_normal by reflexivity.
      apply page_in_step_renderTodos. }
  split; [|split; [exact Hstep|]].
  - destruct (loadTodos_eq st) as (st' & -> & _). apply page_in_step_renderTodos.
  - intros e He Hall Hsel.
    destruct (handle_returns e st Hall Hsel) as [st' Hrun].
    assert (fst (handle e st) = Normal tt) as Hret by (by rewrite Hrun).
    split; [exact Hret | by apply Hstep].
Qed.

(** X18.  Saving the edit of a task that is no longer in the collection
    does not bring it back: the collection is as before, whether the handler
    returns or throws; with a non-empty title it is just a rebuild of the
    page, so that nothing is written to the storage; and when the handler
    returns the page is in step. *)
Theorem commit_on_missing_task_keeps_collection
    (st : State) (todo : Todo) (titleInput_val descTextarea_val : string) :
  (∀ t, t ∈ todos st → strict_eq (id t) (id todo) = false) →
  let r := commit todo titleInput_val descTextarea_val st in
  todos (snd r) = todos st ∧
  (trim titleInput_val ≠ "" → r = renderTodos st) ∧
  (trim titleInput_val ≠ "" → localStorage (snd r) = localStorage st) ∧
  (fst r = Normal tt → page_in_step (snd r)).
Proof.
  intros Habsent r. subst r. split; [|split; [|split]].
  - rewrite todos_commit. destruct (nonempty (trim titleInput_val)).
    + by rewrite updateTodo_absent by (by apply findIndex_absent).
    + destruct (deleteTodo_cases (id todo) st) as [[found ->] | [e ->]]; [|done].
      simpl. rewrite todos_deleted. apply list_filter_id.
      intros t Ht. by rewrite (Habsent t Ht).
  - intros Hne. apply nonempty_true in Hne. unfold commit. rewrite Hne.
    erewrite bind_normal
      by (apply updateTodo_absent; by apply findIndex_absent).
    reflexivity.
  - intros Hne. apply nonempty_true in Hne. unfold commit. rewrite Hne.
    erewrite bind_normal
      by (apply updateTodo_absent; by apply findIndex_absent).
    apply localStorage_renderTodos.
  - unfold commit, exitEditMode. apply page_then_rebuild.
Qed.


(** ** Operations and the storage *)

Lemma localStorage_marked found st :
  localStorage (marked_removing found st) = localStorage st ∧
  console_error (marked_removing found st) = console_error st.
Proof. by destruct found. Qed.

(** An operation either leaves the storage and the collection alone, or
    ends in one [saveTodos] of the collection it leaves, followed at most by
    a rebuild of the page. *)
Lemma run_op_saves (op : Op) st :
  snd (run_op op st) = st ∨
  ∃ mid,
    localStorage mid = localStorage st ∧
    console_error mid = console_error st ∧
    todos (snd (run_op op st)) = todos mid ∧
    localStorage (snd (run_op op st)) = localStorage (saved mid) ∧
    console_error (snd (run_op op st)) = console_error (saved mid).
Proof.
  destruct op as [t d | i u | i | i]; simpl.
  - right. destruct (addTodo_eq t d st) as (uuid & n & ->).
    exists (set_todos
              (todos st ++ [created uuid t (default "" d) (Date_now_calls st)])
              (tick_clock (set_random n st))).
    simpl. rewrite todos_saved. by repeat split.
  - destruct (findIndex_spec (fun t => strict_eq (id t) i) (todos st))
      as [[Hi _] | (k & t & Hk & _)].
    + left. by rewrite (updateTodo_absent _ _ _ Hi).
    + destruct (nullish u) eqn:Hu.
      * left. by rewrite (updateTodo_throws _ _ _ k Hk Hu).
      * right. rewrite (updateTodo_found _ _ _ k Hk Hu).
        exists (set_todos (alter (merged u) k (todos st)) st).
        rewrite todos_renderTodos, localStorage_renderTodos,
          console_error_renderTodos, todos_saved.
        by repeat split.
  - destruct (find_slot (fun t => strict_eq (id t) i) (todos st)) as [k|] eqn:Hf.
    + right. rewrite (toggleComplete_found _ _ k Hf).
      exists (set_todos (alter toggled k (todos st)) st).
      rewrite todos_renderTodos, localStorage_renderTodos,
        console_error_renderTodos, todos_saved.
      by repeat split.
    + left. by rewrite (toggleComplete_absent _ _ Hf).
  - destruct (deleteTodo_cases i st) as [[found ->] | [e ->]]; [|by left].
    right. destruct (localStorage_marked found st) as [Hs Hc].
    exists (set_todos (without_id i (todos st)) (marked_removing found st)).
    unfold deleted. simpl. rewrite todos_saved. by repeat split.
Qed.

Lemma run_op_stored (op : Op) st :
  storage_accepts
    (<["colorfulTodo" := serialized (todos (snd (run_op op st)))]>
       (localStorage st)) = true →
  stored_in_step st → stored_in_step (snd (run_op op st)).
Proof.
  intros Hacc Hst.
  destruct (run_op_saves op st) as [-> | (mid & Hs & _ & Ht & Hl & _)]; [done|].
  unfold stored_in_step. rewrite Hl, Ht. rewrite Ht in Hacc.
  unfold saved. rewrite Hs, Hacc. simpl. apply lookup_insert_eq.
Qed.

Lemma saved_accepted mid :
  storage_accepts
    (<["colorfulTodo" := serialized (todos mid)]> (localStorage mid)) = true →
  localStorage (saved mid) =
    <["colorfulTodo" := serialized (todos mid)]> (localStorage mid) ∧
  console_error (saved mid) = console_error mid.
Proof. intros Hacc. unfold saved. by rewrite Hacc. Qed.

Lemma saved_refused mid :
  storage_accepts
    (<["colorfulTodo" := serialized (todos mid)]> (localStorage mid)) = false →
  localStorage (saved mid) = localStorage mid ∧
  console_error (saved mid) =
    console_error mid ++ ["Failed to save todos to localStorage"].
Proof. intros Hacc. unfold saved. by rewrite Hacc. Qed.

(** X11.  What the store operations do to the storage.  They never touch an
    entry other than ['colorfulTodo'].  When the storage accepts the write,
    an operation that changed the collection leaves the storage holding the
    new collection, and a storage that was in step stays in step.  When the storage refuses, its contents stay as they were and the
    failure is logged once, while the operation still takes effect in
    memory. *)
Theorem operations_store_the_collection_or_nothing (op : Op) (st : State) :
  let st' := snd (run_op op st) in
  let accepted :=
    storage_accepts
      (<["colorfulTodo" := serialized (todos st')]> (localStorage st)) in
  (∀ key, key ≠ "colorfulTodo" →
          localStorage st' !! key = localStorage st !! key) ∧
  (accepted = true → stored_in_step st → stored_in_step st') ∧
  (accepted = true → todos st' ≠ todos st → stored_in_step st') ∧
  (accepted = false →
   localStorage st' = localStorage st ∧
   (st' = st ∨
    console_error st' =
      console_error st ++ ["Failed to save todos to localStorage"])).
Proof.
  intros st' accepted. subst st' accepted.
  destruct (run_op_saves op st) as [-> | (mid & Hs & Hc & Ht & Hl & Hcl)].
  { repeat split; try done. by left. }
  unfold stored_in_step. rewrite Ht, Hl, Hcl, <- Hs.
  destruct (storage_accepts _) eqn:Hacc.
  - destruct (saved_accepted mid Hacc) as [-> _].
    split; [intros key Hk; by apply lookup_insert_ne|].
    split; [intros _ _; apply lookup_insert_eq|].
    split; [intros _ _; apply lookup_insert_eq|]. discriminate.
  - destruct (saved_refused mid Hacc) as [-> ->]. rewrite Hc.
    split; [done|]. split; [discriminate|]. split; [discriminate|].
    intros _. split; [done|]. by right.
Qed.

Lemma task_record_merged updates t : task_record t → task_record (merged updates t).
Proof.
  intros (Hi & Ht & Hd & Hc & n & Hn). unfold task_record, merged.
  repeat case_match; simpl; repeat split; eauto.
Qed.

Lemma run_op_keeps_records (op : Op) st :
  Forall task_record (todos st) → Forall task_record (todos (snd (run_op op st))).
Proof.
  intros Hst. destruct op as [t d | i u | i | i]; simpl.
  - destruct (addTodo_eq t d st) as (uuid & n & ->). simpl.
    rewrite todos_saved. simpl. apply Forall_app. split; [exact Hst|].
    repeat constructor. by eexists.
  - destruct (findIndex_spec (fun t => strict_eq (id t) i) (todos st))
      as [[Hi _] | (k & t & Hk & _)].
    + by rewrite (updateTodo_absent _ _ _ Hi).
    + destruct (nullish u) eqn:Hu.
      * by rewrite (updateTodo_throws _ _ _ k Hk Hu).
      * rewrite (updateTodo_found _ _ _ k Hk Hu).
        rewrite todos_rebuilt. apply Forall_alter; [exact Hst|].
        intros x _. apply task_record_merged.
  - destruct (find_slot (fun t => strict_eq (id t) i) (todos st)) as [k|] eqn:Hf.
    + rewrite (toggleComplete_found _ _ k Hf).
      rewrite todos_rebuilt. apply Forall_alter; [exact Hst|].
      intros x _ (Hi & Ht & Hd & Hc & n & Hn). by repeat split; eauto.
    + by rewrite (toggleComplete_absent _ _ Hf).
  - destruct (deleteTodo_cases i st) as [[found ->] | [e ->]]; [|exact Hst].
    simpl. rewrite todos_deleted. by apply Forall_list_filter.
Qed.

(** X12.  The store operations keep the collection well typed: if every
    task has string [id], [title] and [description], a boolean [completed]
    and a numeric [createdAt], that is still so after any sequence of
    [addTodo], [updateTodo], [toggleComplete] and [deleteTodo], whatever the
    arguments. *)
Theorem operations_keep_task_records (ops : list Op) (st : State) :
  Forall task_record (todos st) → Forall task_record (todos (run_ops ops st)).
Proof.
  revert st. induction ops as [|op ops IH]; intros st Hst; simpl; [exact Hst|].
  apply IH. by apply run_op_keeps_records.
Qed.

Lemma load_of_stored (ts : list Todo) st0 :
  localStorage st0 !! "colorfulTodo" = Some (serialized ts) →
  Forall task_record ts →
  lossless (VArr 0 (map Todo_props ts)) →
  ∃ st2, loadTodos st0 = (Normal tt, st2) ∧ todos st2 = ts.
Proof.
  intros Hst Hrec Hcodec.
  destruct (loadTodos_eq st0) as (st2 & Hrun & Hout & _).
  assert (todos st2 = ts) as Hts
    by (rewrite Hout; by apply load_outcome_stored).
  exists (rendered st2). split; [|exact Hts].
  rewrite Hrun. apply renderTodos_task_records. by rewrite Hts.
Qed.

(** X13.  A reload after any store operation brings back the collection as
    the operation left it: for a well-typed collection whose storage is in
    step, when the storage accepts the write and the codec loses nothing of
    the new document, [loadTodos] on that storage, in this session or a later
    one, yields the same records in the same order. *)
Theorem reload_after_operation (op : Op) (st : State) :
  let st' := snd (run_op op st) in
  Forall task_record (todos st) →
  stored_in_step st →
  storage_accepts
    (<["colorfulTodo" := serialized (todos st')]> (localStorage st)) = true →
  lossless (VArr 0 (map Todo_props (todos st'))) →
  ∀ st0, localStorage st0 = localStorage st' →
         ∃ st2, loadTodos st0 = (Normal tt, st2) ∧ todos st2 = todos st'.
Proof.
  intros st' Hrec Hst Hacc Hcodec st0 Hst0.
  apply load_of_stored; [|by apply run_op_keeps_records|exact Hcodec].
  rewrite Hst0. by apply run_op_stored.
Qed.


(** ** The accent colour *)



(** X15.  The accent colour and the tasks do not disturb each other.  The
    colour picker changes neither the collection, nor the page items, nor
    the stored tasks, and sets the page colour even when the storage refuses
    the write, which is then only logged; [loadTodos] never writes to the
    storage, and without a stored colour (or with an empty one) it leaves
    the page colour as it is. *)
Theorem accent_and_tasks_are_independent (color : string) (st : State) :
  let st1 := snd (accent_input color st) in
  todos st1 = todos st ∧
  listEl st1 = listEl st ∧
  localStorage st1 !! "colorfulTodo" = localStorage st !! "colorfulTodo" ∧
  accent_color st1 = Some color ∧
  (storage_accepts (<["todoAccentColor" := color]> (localStorage st)) = false →
   localStorage st1 = localStorage st ∧
   console_error st1 =
     console_error st ++ ["Failed to persist accent color"]) ∧
  localStorage (snd (loadTodos st)) = localStorage st ∧
  (localStorage st !! "todoAccentColor" = None ∨
   localStorage st !! "todoAccentColor" = Some "" →
   accent_color (snd (loadTodos st)) = accent_color st).
Proof.
  intros st1. subst st1. rewrite accent_input_eq. cbn [snd].
  destruct (loadTodos_eq st) as (st2 & -> & _ & _ & Hl & Hcol & _).
  destruct (accent_renderTodos st2) as [-> _].
  rewrite localStorage_renderTodos, Hcol, Hl.
  assert (localStorage st !! "todoAccentColor" = None ∨
          localStorage st !! "todoAccentColor" = Some "" →
          accent_color (accent_restored st) = accent_color st) as Hkeep.
  { intros [Hn | Hn]; unfold accent_restored; by rewrite Hn. }
  destruct (storage_accepts _); simpl.
  - repeat split; try done. by apply lookup_insert_ne.
  - repeat split; done.
Qed.

(** ** The filters *)

Lemma filter_split_length {A} (p : A → bool) (l : list A) :
  (length (List.filter (fun x => negb (p x)) l) + length (List.filter p l)
   = length l)%nat.
Proof.
  induction l as [|x l IH]; simpl; [done|].
  destruct (p x); simpl; lia.
Qed.

Lemma filter_split_perm {A} (p : A → bool) (l : list A) :
  List.filter (fun x => negb (p x)) l ++ List.filter p l ≡ₚ l.
Proof.
  induction l as [|x l IH]; simpl; [done|].
  destruct (p x); simpl.
  - rewrite <- Permutation_middle. by constructor.
  - by constructor.
Qed.

(** X16.  The filters ['active'] and ['completed'] split the collection:
    every task is in exactly one of the two views, the two views together
    are a rearrangement of the collection, and their sizes add up to its
    size.  Any other filter value shows the whole collection, as ['all']
    does. *)
Theorem filters_split_the_collection (tasks : list Todo) :
  (length (filtered "active" tasks) + length (filtered "completed" tasks)
   = length tasks)%nat ∧
  filtered "active" tasks ++ filtered "completed" tasks ≡ₚ tasks ∧
  (∀ t, t ∈ tasks →
        (t ∈ filtered "active" tasks ∧ (t ∉ filtered "completed" tasks)) ∨
        ((t ∉ filtered "active" tasks) ∧ t ∈ filtered "completed" tasks)) ∧
  (∀ f, f ≠ "active" → f ≠ "completed" → filtered f tasks = tasks).
Proof.
  split; [apply (filter_split_length (fun t => truthy (completed t)))|].
  split; [apply (filter_split_perm (fun t => truthy (completed t)))|].
  split.
  - intros t Ht. unfold filtered. rewrite !list_filter_elem_of.
    unfold shown. simpl.
    destruct (truthy (completed t)); [right | left].
    + split; [intros [_ ?]; discriminate | done].
    + split; [done | intros [_ ?]; discriminate].
  - intros f Ha Hc. unfold filtered. apply list_filter_id.
    intros t _. unfold shown.
    destruct (String.eqb_spec f "active"); [done|].
    by destruct (String.eqb_spec f "completed").
Qed.


(** ** [deleteTodo] and the page *)

Lemma first_with_data_id_first (wanted : string) (items : list Li) (i : nat) (li : Li) :
  items !! i = Some li →
  dataset_id li = wanted →
  (∀ (j : nat) (lj : Li),
      (j < i)%nat → items !! j = Some lj → dataset_id lj ≠ wanted) →
  first_with_data_id wanted items = Some i.
Proof.
  revert i. induction items as [|a items IH]; intros [|i]; simpl; try done.
  - intros [= ->] -> _. by rewrite String.eqb_refl.
  - intros Hi Hw Hfirst.
    destruct (String.eqb_spec (dataset_id a) wanted) as [Ha | _].
    + by destruct (Hfirst O a ltac:(lia) eq_refl).
    + rewrite (IH i Hi Hw); [done|].
      intros j lj Hj Hlj. apply (Hfirst (S j) lj); [lia | done].
Qed.

Lemma first_with_data_id_none (wanted : string) (items : list Li) :
  (∀ li, li ∈ items → dataset_id li ≠ wanted) →
  first_with_data_id wanted items = None.
Proof.
  induction items as [|a items IH]; intros Hall; simpl; [done|].
  destruct (String.eqb_spec (dataset_id a) wanted) as [Ha | _].
  - destruct (Hall a); [apply list_elem_of_here | done].
  - rewrite IH; [done|]. intros li Hli. apply Hall. by apply list_elem_of_further.
Qed.

Lemma filter_filter_shorter {A} (p q : A → bool) (l : list A) (x : A) :
  x ∈ l → p x = true → q x = false →
  (length (List.filter p (List.filter q l)) < length (List.filter p l))%nat.
Proof.
  assert (∀ l', length (List.filter p (List.filter q l'))
                ≤ length (List.filter p l'))%nat as Hle.
  { induction l' as [|a l' IH]; simpl; [done|].
    destruct (q a), (p a) eqn:Hpa; simpl; rewrite ?Hpa; simpl; lia. }
  induction l as [|a l IH]; intros Hin Hp Hq.
  - by apply elem_of_nil in Hin.
  - apply elem_of_cons in Hin as [<- | Hin]; simpl.
    + rewrite Hq, Hp. simpl. specialize (Hle l). lia.
    + specialize (IH Hin Hp Hq).
      destruct (q a), (p a) eqn:Hpa; simpl; rewrite ?Hpa; simpl; lia.
Qed.

(** X19.  [deleteTodo] on an id whose text is plain between the quotes of
    the selector, as every identifier made by [generateUUID] is.  It returns;
    it removes the tasks whose id is the given one and saves the collection;
    and it does not take anything off the page.  The page keeps all its
    items: the first one whose [data-id] is the text of the id gets the class
    ['removing'], the others are untouched, and without such an item the
    page is unchanged.  So when the page was in step and showed a task of
    that id, the page is out of step afterwards: it still holds an item for
    a task that is gone from the collection. *)
Theorem deleteTodo_marks_item_in_place (st : State) (id0 : value) (text : string) :
  ToString id0 = Normal text →
  css_plain text = true →
  let st' := snd (deleteTodo id0 st) in
  fst (deleteTodo id0 st) = Normal tt ∧
  todos st' = List.filter (fun t => negb (strict_eq (id t) id0)) (todos st) ∧
  st' = saved (set_todos (todos st') (set_listEl (listEl st') st)) ∧
  length (listEl st') = length (listEl st) ∧
  currentFilter st' = currentFilter st ∧
  (∀ (i : nat) (li : Li),
      listEl st !! i = Some li →
      dataset_id li = text →
      (∀ (j : nat) (lj : Li),
          (j < i)%nat → listEl st !! j = Some lj → dataset_id lj ≠ text) →
      listEl st' = <[i := li_add_class "removing" li]> (listEl st)) ∧
  ((∀ li, li ∈ listEl st → dataset_id li ≠ text) →
   listEl st' = listEl st) ∧
  (page_in_step st →
   (∃ t, t ∈ todos st ∧ strict_eq (id t) id0 = true ∧
         shown (currentFilter st) t = true) →
   ¬ page_in_step st').
Proof.
  intros Htext Hplain st'. subst st'.
  rewrite (deleteTodo_selectable _ _ text Htext Hplain). cbn [fst snd].
  set (found := first_with_data_id text (listEl st)).
  rewrite todos_deleted, currentFilter_deleted.
  assert (listEl (deleted id0 found st) = listEl (marked_removing found st))
    as Hl by (unfold deleted; by rewrite listEl_saved).
  rewrite Hl.
  assert (length (listEl (marked_removing found st)) = length (listEl st)) as Hlen.
  { destruct found; [|done]. simpl. apply length_alter. }
  split; [reflexivity|]. split; [reflexivity|].
  split; [unfold deleted; by destruct found|].
  split; [exact Hlen|]. split; [reflexivity|]. split; [|split].
  - intros i li Hi Hw Hfirst. unfold found.
    rewrite (first_with_data_id_first _ _ i li Hi Hw Hfirst). simpl.
    by apply alter_as_insert.
  - intros Hnone. unfold found.
    by rewrite (first_with_data_id_none _ _ Hnone).
  - intros Hpage (t & Hin & Hid & Hshown) Hpage'.
    unfold page_in_step in Hpage, Hpage'.
    apply Forall2_length in Hpage, Hpage'.
    rewrite todos_deleted, currentFilter_deleted, Hl, Hlen, <- Hpage in Hpage'.
    unfold filtered, without_id in Hpage'.
    assert (negb (strict_eq (id t) id0) = false) as Hq by (by rewrite Hid).
    pose proof (filter_filter_shorter (shown (currentFilter st))
                  (fun t => negb (strict_eq (id t) id0)) (todos st) t
                  Hin Hshown Hq) as Hlt.
    lia.
Qed.


(** ** What the page shows *)

Lemma classList_add_elem_of (c x : string) (cl : list string) :
  x ∈ classList_add c cl ↔ x = c ∨ x ∈ cl.
Proof.
  unfold classList_add. destruct (existsb (String.eqb c) cl) eqn:Hex.
  - split; [by right|]. intros [-> | Hx]; [|done].
    apply existsb_exists in Hex as (y & Hy & Heq).
    apply String.eqb_eq in Heq. subst y. by apply list_elem_of_In.
  - rewrite elem_of_app, list_elem_of_singleton. tauto.
Qed.

(** An item that [createTodoElement] has built shows its task. *)
Lemma createTodoElement_reflects (t : Todo) (li : Li) :
  "completed" ∉ template_classes →
  createTodoElement t = Normal li → reflects t li.
Proof.
  intros Htemplate Hli. unfold createTodoElement in Hli.
  apply and_then_normal in Hli as (data_id & Hid & Hli).
  apply and_then_normal in Hli as (title_text & Hti & Hli).
  apply and_then_normal in Hli as (description_text & Hde & Hli).
  injection Hli as <-. unfold reflects. simpl.
  repeat split; try done.
  - apply classList_add_elem_of. by left.
  - rewrite classList_add_elem_of. intros [Hc | Hc]; [discriminate|].
    destruct (truthy (completed t)); [done|]. by destruct Htemplate.
  - intros Hc. rewrite Hc. apply classList_add_elem_of. right.
    apply classList_add_elem_of. by left.
  - by rewrite negb_involutive.
  - destruct (truthy (description t)); [discriminate|done].
  - by intros ->.
Qed.

(** X21.  What the rebuilt page shows when [renderTodos] returns: one item
    per shown task, in order, carrying the text of the task's id as
    [data-id], the texts of its title and description, the class ['enter'],
    the class ['completed'] exactly for a completed task (the template's item
    not having that class), a ticked checkbox exactly for a completed task,
    and a hidden description exactly for an empty one.  When it throws, the
    items on the page show the tasks before the one that has no item. *)
Theorem rendered_items_reflect_tasks (st : State) :
  "completed" ∉ template_classes →
  (fst (renderTodos st) = Normal tt →
   Forall2 reflects
     (filtered (currentFilter st) (todos st))
     (listEl (snd (renderTodos st)))) ∧
  (∃ n, Forall2 reflects
          (take n (filtered (currentFilter st) (todos st)))
          (listEl (snd (renderTodos st)))) ∧
  (fst (renderTodos st) = Normal tt ↔
   ∀ t, t ∈ filtered (currentFilter st) (todos st) →
        ∃ li, createTodoElement t = Normal li).
Proof.
  intros Htemplate. split; [|split].
  - intros Hret. pose proof (page_in_step_renderTodos st Hret) as Hpage.
    unfold page_in_step in Hpage.
    rewrite currentFilter_renderTodos, todos_renderTodos in Hpage.
    eapply Forall2_impl; [exact Hpage|].
    intros t li. by apply createTodoElement_reflects.
  - rewrite listEl_renderTodos.
    generalize (filtered (currentFilter st) (todos st)). intros tasks.
    induction tasks as [|t rest [n IH]]; [by exists O|].
    simpl. destruct (createTodoElement t) as [li|e] eqn:Ht.
    + exists (S n). simpl. constructor; [|exact IH].
      by apply createTodoElement_reflects.
    + exists O. constructor.
  - rewrite renderTodos_eq. unfold render_result.
    destruct (forallb displayable _) eqn:Hall; simpl.
    + split; [|done]. intros _ t Ht. apply displayable_true.
      rewrite forallb_forall in Hall. apply Hall. by apply list_elem_of_In.
    + split; [discriminate|]. intros Hevery. exfalso.
      assert (forallb displayable (filtered (currentFilter st) (todos st)) = true)
        as Hyes; [|congruence].
      apply forallb_forall. intros t Ht. apply displayable_true, Hevery.
      by apply list_elem_of_In.
Qed.

(** X22.  The item appended by [addTodo] keeps a page that was in step in
    step exactly when the current filter is not ['completed']: under
    ['completed'] the page gets an item for a task the filter does not
    show. *)
Theorem addTodo_page_in_step_iff
    (title0 : string) (description0 : option string) (st : State) :
  page_in_step st →
  (page_in_step (snd (addTodo title0 description0 st)) ↔
   currentFilter st ≠ "completed").
Proof.
  intros Hpage. split.
  - intros Hpage' Hf.
    destruct (addTodo_under_completed_filter title0 description0 st Hf Hpage)
      as (st' & Heq & Hlen).
    rewrite Heq in Hpage'. simpl in Hpage'.
    apply Forall2_length in Hpage'. lia.
  - intros Hf.
    destruct (addTodo_keeps_page_in_step title0 description0 st)
      as (st' & Heq & Hstep); [|exact Hpage|].
    { by destruct (String.eqb_spec (currentFilter st) "completed"). }
    by rewrite Heq.
Qed.


(** ** [loadTodos] *)


(** ** The save handler of an edit *)

(** X24.  Saving the edit of a task of the collection.  With a title that is
    not blank, the first task whose id is that of the edited task gets the
    trimmed title and description and keeps its other fields, whether the
    rebuild that follows returns or throws.  With a blank title and a
    selectable id, the tasks of that id leave the collection, the edited one
    among them.  With a blank title and any id, the collection either loses
    the tasks of that id or, when [deleteTodo] throws, stays as it is; in no
    case does a task get an empty title. *)
Theorem commit_on_task_of_collection
    (st : State) (todo : Todo) (titleInput_val descTextarea_val : string) :
  todo ∈ todos st →
  let newTitle := trim titleInput_val in
  let newDesc := trim descTextarea_val in
  let st' := snd (commit todo titleInput_val descTextarea_val st) in
  (newTitle ≠ "" →
   ∃ (k : nat) (t : Todo),
     todos st !! k = Some t ∧
     strict_eq (id t) (id todo) = true ∧
     (∀ (j : nat) (y : Todo),
         (j < k)%nat → todos st !! j = Some y →
         strict_eq (id y) (id todo) = false) ∧
     todos st' =
       <[k := {| id := id t; title := VStr newTitle;
                 description := VStr newDesc; completed := completed t;
                 createdAt := createdAt t |}]> (todos st)) ∧
  (newTitle = "" → selectable (id todo) →
   todos st' =
     List.filter (fun t => negb (strict_eq (id t) (id todo))) (todos st) ∧
   (todo ∉ todos st')) ∧
  (newTitle = "" →
   todos st' =
     List.filter (fun t => negb (strict_eq (id t) (id todo))) (todos st) ∨
   todos st' = todos st) ∧
  (titled (todos st) → titled (todos st')).
Proof.
  intros Hin newTitle newDesc st'. subst st'.
  rewrite todos_commit. fold newTitle newDesc.
  split; [|split; [|split]].
  - intros Hne. apply nonempty_true in Hne. rewrite Hne.
    destruct (findIndex_spec (fun t => strict_eq (id t) (id todo)) (todos st))
      as [[_ Hnone] | (k & t & Hk & Ht & Hid & Hfirst)].
    { specialize (Hnone todo Hin). simpl in Hnone.
      by rewrite strict_eq_refl in Hnone. }
    exists k, t. repeat split; [done|done|done|].
    rewrite (updateTodo_found _
               (VObj 0 [("title", VStr newTitle); ("description", VStr newDesc)])
               _ k Hk eq_refl), todos_rebuilt.
    rewrite (alter_as_insert _ _ _ _ Ht).
    unfold merged, set_title, set_description; simpl.
    unfold newTitle, newDesc. by rewrite !trim_idempotent.
  - intros Hblank (text & Htext & Hplain).
    assert (nonempty newTitle = false) as -> by (by rewrite Hblank).
    rewrite (deleteTodo_selectable _ _ text Htext Hplain). cbn [snd].
    rewrite todos_deleted. split; [reflexivity|].
    unfold without_id. rewrite list_filter_elem_of.
    intros [_ Hstill]. by rewrite strict_eq_refl in Hstill.
  - intros Hblank.
    assert (nonempty newTitle = false) as -> by (by rewrite Hblank).
    destruct (deleteTodo_cases (id todo) st) as [[found ->] | [e ->]];
      [left; apply todos_deleted | by right].
  - intros Hst.
    pose proof (handlers_keep_titles_nonempty
                  (Commit todo titleInput_val descTextarea_val) st Hst) as Hk.
    simpl in Hk. by rewrite todos_commit in Hk.
Qed.

End Extras.

(** ** The further properties on concrete states *)

Section Extras_concrete.
Import Reference Scenario Session.

Lemma toggleComplete_twice_restores_witness :
  (∀ t, t ∈ todos one_task → strict_eq (id t) (VStr "t-1") = true →
        ∃ b, completed t = VBool b) ∧
  todos (snd (toggleComplete (VStr "t-1")
                (snd (toggleComplete (VStr "t-1") one_task))))
    = todos one_task.
Proof.
  assert (∀ t, t ∈ todos one_task → strict_eq (id t) (VStr "t-1") = true →
               ∃ b, completed t = VBool b) as Hbool.
  { intros t Ht _. apply list_elem_of_singleton in Ht as ->. by exists false. }
  split; [exact Hbool|].
  exact (toggleComplete_twice_restores one_task (VStr "t-1") Hbool).
Defined.

Lemma updateTodo_merges_known_fields_witness :
  ∃ t',
    todos (snd (updateTodo (VStr "t-1")
                  (VObj 0 [("title", VStr " Buy oat milk ");
                           ("description", VNum 3); ("id", VStr "t-2")])
                  one_task)) = [t'] ∧
    t' = {| id := VStr "t-1"; title := VStr "Buy oat milk";
            description := VStr ""; completed := VBool false;
            createdAt := VNum 1700000000000 |}.
Proof.
  destruct (updateTodo_merges_known_fields one_task (VStr "t-1")
              (VObj 0 [("title", VStr " Buy oat milk "); ("description", VNum 3);
                       ("id", VStr "t-2")]) O milk eq_refl eq_refl eq_refl)
    as (t' & _ & Htodos & Hid & Hca & Hti & Hd & Hc & _).
  { intros j y Hj. lia. }
  exists t'. split; [exact Htodos|].
  destruct t' as [i ti d c ca]. simpl in *. by subst.
Defined.

Lemma deleted_id_is_gone_witness :
  fst (deleteTodo (VStr "t-1") one_task) = Normal tt ∧
  todos (snd (deleteTodo (VStr "t-1") one_task)) = [] ∧
  toggleComplete (VStr "t-1") (snd (deleteTodo (VStr "t-1") one_task)) =
    (Normal tt, snd (deleteTodo (VStr "t-1") one_task)).
Proof.
  assert (fst (deleteTodo (VStr "t-1") one_task) = Normal tt) as Hret
    by reflexivity.
  split; [exact Hret|].
  destruct (deleted_id_is_gone one_task (VStr "t-1") Hret)
    as (Htodos & _ & _ & _ & _ & _ & Htoggle).
  split; [rewrite Htodos; reflexivity | exact Htoggle].
Defined.

Lemma listeners_return_witness :
  Forall (fun t => displayable t = true) (todos one_task) ∧
  (∃ text, ToString (VStr "t-1") = Normal text ∧ css_plain text = true) ∧
  (∃ st', handle (Delete (VStr "t-1")) one_task = (Normal tt, st')) ∧
  (∃ st', handle (Tick (VStr "t-1")) one_task = (Normal tt, st')).
Proof.
  assert (Forall (fun t => displayable t = true) (todos one_task)) as Hall
    by (repeat constructor).
  assert (selectable (VStr "t-1")) as Hsel by (by exists "t-1").
  split; [exact Hall|]. split; [exact Hsel|].
  destruct (listeners_return one_task Hall) as (Hhandle & _).
  split.
  - apply Hhandle. intros i [= <-]. exact Hsel.
  - apply Hhandle. intros i [=].
Defined.

Lemma events_keep_titles_nonempty_witness :
  titled (todos one_task) ∧ titled (todos (run_events some_events one_task)).
Proof.
  assert (titled (todos one_task)) as Hst.
  { repeat constructor. exists "Buy milk". split; [reflexivity | discriminate]. }
  split; [exact Hst|].
  exact (events_keep_titles_nonempty some_events one_task Hst).
Defined.

Lemma operations_keep_task_records_witness :
  Forall task_record (todos one_task) ∧
  Forall task_record (todos (run_ops some_ops one_task)).
Proof.
  assert (Forall task_record (todos one_task)) as Hrec.
  { repeat constructor. by exists 1700000000000. }
  split; [exact Hrec|].
  exact (operations_keep_task_records some_ops one_task Hrec).
Defined.

Lemma reload_after_operation_witness :
  let op := OpToggle (VStr "t-1") in
  let st' := snd (run_op op kept) in
  Forall task_record (todos kept) ∧
  stored_in_step kept ∧
  storage_accepts
    (<["colorfulTodo" := serialized (todos st')]> (localStorage kept)) = true ∧
  lossless (VArr 0 (map Todo_props (todos st'))) ∧
  ∃ st2, loadTodos (initial_state (localStorage st')) = (Normal tt, st2) ∧
         todos st2 = [set_completed (VBool true) milk].
Proof.
  intros op st'.
  assert (Forall task_record (todos kept)) as Hrec.
  { repeat constructor. by exists 1700000000000. }
  assert (stored_in_step kept) as Hst by (vm_compute; reflexivity).
  assert (storage_accepts
            (<["colorfulTodo" := serialized (todos st')]> (localStorage kept))
          = true) as Hacc by (vm_compute; reflexivity).
  assert (lossless (VArr 0 (map Todo_props (todos st')))) as Hcodec.
  { split; [vm_compute; discriminate | vm_compute; reflexivity]. }
  split; [exact Hrec|]. split; [exact Hst|]. split; [exact Hacc|].
  split; [exact Hcodec|].
  destruct (reload_after_operation op kept Hrec Hst Hacc Hcodec
              (initial_state (localStorage st')) eq_refl) as (st2 & Hrun & Ht).
  exists st2. split; [exact Hrun|]. rewrite Ht. vm_compute. reflexivity.
Defined.


Lemma commit_on_missing_task_witness :
  (∀ t, t ∈ todos completed_view → strict_eq (id t) (id milk) = false) ∧
  todos (snd (commit milk "Buy oat milk" "" completed_view)) = [] ∧
  commit milk "Buy oat milk" "" completed_view = renderTodos completed_view.
Proof.
  assert (∀ t, t ∈ todos completed_view → strict_eq (id t) (id milk) = false)
    as Habsent.
  { intros t Ht. by apply elem_of_nil in Ht. }
  split; [exact Habsent|].
  destruct (commit_on_missing_task_keeps_collection completed_view milk
              "Buy oat milk" "" Habsent) as (Ht & Hst & _).
  split; [exact Ht|]. apply Hst. discriminate.
Defined.

Lemma deleteTodo_marks_item_in_place_witness :
  ToString (VStr "t-1") = Normal "t-1" ∧
  css_plain "t-1" = true ∧
  fst (deleteTodo (VStr "t-1") one_task) = Normal tt ∧
  map classList (listEl (snd (deleteTodo (VStr "t-1") one_task)))
    = [["todo-item"; "enter"; "removing"]].
Proof.
  split; [reflexivity|]. split; [reflexivity|].
  destruct (deleteTodo_marks_item_in_place one_task (VStr "t-1") "t-1"
              eq_refl eq_refl) as (Hret & _ & _ & _ & _ & Hmark & _).
  split; [exact Hret|].
  rewrite (Hmark O (default (created_item "" "" "" O) (head (listEl one_task)))
             eq_refl eq_refl).
  - reflexivity.
  - intros j lj Hj. lia.
Defined.

Lemma form_submit_adds_and_clears_witness :
  trim (titleInput_value (set_form_inputs "  Call Ana " " today " one_task)) ≠ "" ∧
  ∃ st', form_submit (set_form_inputs "  Call Ana " " today " one_task)
           = (Normal tt, st') ∧
         map title (todos st') = [VStr "Buy milk"; VStr "Call Ana"] ∧
         map description (todos st') = [VStr ""; VStr "today"] ∧
         titleInput_value st' = "".
Proof.
  assert (trim (titleInput_value
                  (set_form_inputs "  Call Ana " " today " one_task)) ≠ "")
    as Hne by discriminate.
  split; [exact Hne|].
  destruct (form_submit_adds_and_clears
              (set_form_inputs "  Call Ana " " today " one_task) Hne)
    as (st' & newTodo & Hrun & Ht & Hti & Hd & _ & Hf & _).
  exists st'. split; [exact Hrun|].
  rewrite Ht, !map_app. simpl map. rewrite Hti, Hd.
  split; [reflexivity|]. split; [reflexivity|]. exact Hf.
Defined.

Lemma rendered_items_reflect_tasks_witness :
  ("completed" ∉ template_classes) ∧
  fst (renderTodos one_task) = Normal tt ∧
  Forall2 reflects
    (filtered (currentFilter one_task) (todos one_task))
    (listEl (snd (renderTodos one_task))).
Proof.
  assert ("completed" ∉ template_classes) as Ht.
  { intros Hin. apply list_elem_of_singleton in Hin. discriminate. }
  split; [exact Ht|]. split; [reflexivity|].
  destruct (rendered_items_reflect_tasks one_task Ht) as (Hall & _).
  apply Hall. reflexivity.
Defined.

Lemma addTodo_page_in_step_iff_witness :
  page_in_step one_task ∧
  page_in_step (snd (addTodo "Call Ana" None one_task)).
Proof.
  assert (page_in_step one_task) as Hpage by (repeat constructor).
  split; [exact Hpage|].
  apply (addTodo_page_in_step_iff "Call Ana" None one_task Hpage).
  discriminate.
Defined.

Lemma commit_on_task_of_collection_witness :
  milk ∈ todos one_task ∧
  (∃ text, ToString (id milk) = Normal text ∧ css_plain text = true) ∧
  todos (snd (commit milk "   " "soon" one_task)) = [] ∧
  map title (todos (snd (commit milk " Buy oat milk " "soon" one_task)))
    = [VStr "Buy oat milk"].
Proof.
  assert (milk ∈ todos one_task) as Hin by apply list_elem_of_here.
  assert (selectable (id milk)) as Hsel by (by exists "t-1").
  split; [exact Hin|]. split; [exact Hsel|]. split.
  - destruct (commit_on_task_of_collection one_task milk "   " "soon" Hin)
      as (_ & Hdel & _).
    destruct (Hdel eq_refl Hsel) as [-> _]. reflexivity.
  - destruct (commit_on_task_of_collection one_task milk " Buy oat milk " "soon"
                Hin) as (Hupd & _).
    destruct Hupd as (k & t & Hk & _ & _ & ->); [discriminate|].
    destruct k as [|k]; [|destruct k; discriminate Hk].
    reflexivity.
Defined.

End Extras_concrete.
